(** * PyPOTS [pypots/modules/self_attention.py]: a shallow embedding

    The Transformer building blocks of PyPOTS (scaled dot-product attention,
    multi-head attention, position-wise feed-forward, encoder and decoder
    layers and stacks, sinusoidal positional encoding) embedded in Rocq.

    Layout of the development:
    - tensor values: a shape and an element function over the reals
      (floating-point numbers are idealised as real numbers);
    - the functional semantics of the torch / numpy primitives the module
      calls, with the shape checks that make them raise;
    - tensor objects: handles into a store of base tensors, so that views
      share their base and [+=] writes in place;
    - Python objects: modules as attribute dictionaries, calls with
      positional and keyword arguments;
    - the module's classes, one definition per source method;
    - the verified properties.

    Conventions:
    - a forward pass is a computation [M A] over the store: it returns a
      result or raises a Python exception, and threads the store;
    - learned parameters are arbitrary: a constructor reads them from a
      state dictionary it is given;
    - dropout draws its keep-masks from the random source of the state;
    - sizes and module hyper-parameters are natural numbers, dropout
      probabilities are rationals. *)

From Stdlib Require Import Reals Lra Lia List String QArith Qreals ZArith.
From stdpp Require Import base list strings pretty.
Import ListNotations.

#[local] Set Warnings "-register-all".
#[local] Open Scope nat_scope.

(** ** Python exceptions and results *)

Inductive PyExc : Type :=
| TypeError
| AttributeError (name : string)
| IndexError
| RuntimeError
| ValueError.

Inductive Result (A : Type) : Type :=
| Ok (a : A)
| Raise (e : PyExc).
Arguments Ok {A} a.
Arguments Raise {A} e.

Definition rbind {A B} (r : Result A) (k : A -> Result B) : Result B :=
  match r with
  | Ok a => k a
  | Raise e => Raise e
  end.

Definition is_ok {A} (r : Result A) : bool :=
  match r with Ok _ => true | Raise _ => false end.

(** ** Tensor values *)

Module TensorValue.

(** A tensor value: its sizes and its elements, read at a multi-index. *)
Record Tensor : Type := mkTensor {
  shape : list nat;
  elem : list nat -> R
}.

Definition rank (t : Tensor) : nat := length (shape t).

Definition numel_of (s : list nat) : nat := fold_right Nat.mul 1 s.

Definition numel (t : Tensor) : nat := numel_of (shape t).

(** Finite sums over [0 .. n-1]. *)
Fixpoint sumR (n : nat) (f : nat -> R) : R :=
  match n with
  | O => 0%R
  | S m => (sumR m f + f m)%R
  end.

(** *** Index arithmetic *)

(** Exchange the entries at positions [d1] and [d2]. *)
Definition swap_at {A} (d1 d2 : nat) (l : list A) : list A :=
  match l !! d1, l !! d2 with
  | Some a, Some b => <[d1 := b]> (<[d2 := a]> l)
  | _, _ => l
  end.

(** Replace the last entry of a non-empty index. *)
Definition set_last (idx : list nat) (j : nat) : list nat :=
  removelast idx ++ [j].

Definition last_of (l : list nat) : nat := List.last l 0.

(** Row-major offset of a multi-index, and its inverse. *)
Fixpoint ravel (s idx : list nat) : nat :=
  match s, idx with
  | _ :: s', i :: idx' => i * numel_of s' + ravel s' idx'
  | _, _ => 0
  end.

Fixpoint unravel (s : list nat) (n : nat) : list nat :=
  match s with
  | [] => []
  | _ :: s' => (n / numel_of s') :: unravel s' (n mod numel_of s')
  end.

(** Broadcasting (torch, numpy): sizes are aligned on the right; two sizes
    are compatible when they are equal or one of them is 1. *)
Fixpoint broadcast_rev (r1 r2 : list nat) : option (list nat) :=
  match r1, r2 with
  | [], r => Some r
  | r, [] => Some r
  | a :: r1', b :: r2' =>
      if a =? b then cons a <$> broadcast_rev r1' r2'
      else if a =? 1 then cons b <$> broadcast_rev r1' r2'
      else if b =? 1 then cons a <$> broadcast_rev r1' r2'
      else None
  end.

Definition broadcast_shapes (s1 s2 : list nat) : option (list nat) :=
  @rev nat <$> broadcast_rev (rev s1) (rev s2).

(** The index at which a tensor of sizes [s] is read when it is broadcast
    to a result addressed by [idx]: the trailing [length s] entries, with 0
    wherever the size is 1. *)
Definition bidx (s idx : list nat) : list nat :=
  zip_with (fun d i => if d =? 1 then 0 else i) s (drop (length idx - length s) idx).

(** *** Element-wise primitives *)

(** [t / c], over the reals.  (In floating point a division by 0 gives inf
    or NaN, and a quotient may overflow; the properties that depend on it
    are stated for a temperature other than 0 and for scores within the
    float range.) *)
Definition div_scalar_v (t : Tensor) (c : R) : Tensor :=
  mkTensor (shape t) (fun idx => (elem t idx / c)%R).

(** [t == c], a 0/1 tensor *)
Definition eq_scalar_v (t : Tensor) (c : R) : Tensor :=
  mkTensor (shape t) (fun idx => if Req_dec_T (elem t idx) c then 1%R else 0%R).

(** [F.relu] *)
Definition relu_v (t : Tensor) : Tensor :=
  mkTensor (shape t) (fun idx => Rmax 0 (elem t idx)).

(** [a + b], broadcasting both operands to the sizes [s] *)
Definition add_t (s : list nat) (a b : Tensor) : Tensor :=
  mkTensor s (fun idx =>
    (elem a (bidx (shape a) idx) + elem b (bidx (shape b) idx))%R).

Definition add_v (a b : Tensor) : Result Tensor :=
  match broadcast_shapes (shape a) (shape b) with
  | Some s => Ok (add_t s a b)
  | None => Raise RuntimeError
  end.

(** The value written by [a += b]: [b] is broadcast to the sizes of [a],
    which do not change. *)
Definition iadd_t (a b : Tensor) : Tensor :=
  mkTensor (shape a) (fun idx => (elem a idx + elem b (bidx (shape b) idx))%R).

Definition iadd_v (a b : Tensor) : Result Tensor :=
  match broadcast_shapes (shape a) (shape b) with
  | Some s => if decide (s = shape a) then Ok (iadd_t a b) else Raise RuntimeError
  | None => Raise RuntimeError
  end.

(** [t.masked_fill(m, c)]: out of place, operand and mask are broadcast
    together; entries whose mask is 1 (True) are replaced by [c]. *)
Definition masked_fill_t (s : list nat) (t m : Tensor) (c : R) : Tensor :=
  mkTensor s (fun idx =>
    if Req_dec_T (elem m (bidx (shape m) idx)) 1
    then c else elem t (bidx (shape t) idx)).

Definition masked_fill_v (t m : Tensor) (c : R) : Result Tensor :=
  match broadcast_shapes (shape t) (shape m) with
  | Some s => Ok (masked_fill_t s t m c)
  | None => Raise RuntimeError
  end.

(** *** Views *)

(** [t.transpose(d1, d2)] *)
Definition transpose_v (d1 d2 : nat) (t : Tensor) : Tensor :=
  mkTensor (swap_at d1 d2 (shape t)) (fun idx => elem t (swap_at d1 d2 idx)).

(** [t.unsqueeze(d)] *)
Definition unsqueeze_v (d : nat) (t : Tensor) : Tensor :=
  mkTensor (take d (shape t) ++ 1 :: drop d (shape t))
           (fun idx => elem t (take d idx ++ drop (S d) idx)).

(** [t.squeeze(d)] on a dimension of size 1 *)
Definition squeeze_v (d : nat) (t : Tensor) : Tensor :=
  mkTensor (take d (shape t) ++ drop (S d) (shape t))
           (fun idx => elem t (take d idx ++ 0 :: drop d idx)).

(** [t[:, :n]] *)
Definition narrow1_v (n : nat) (t : Tensor) : Tensor :=
  mkTensor (match shape t with
            | d0 :: d1 :: s => d0 :: Nat.min n d1 :: s
            | s => s
            end) (elem t).

(** The same elements in row-major order under other sizes. *)
Definition view_v (s : list nat) (t : Tensor) : Tensor :=
  mkTensor s (fun idx => elem t (unravel (shape t) (ravel s idx))).

(** Size inference of [view]: at most one entry may be -1; it is inferred
    from the number of elements, which the product of the other entries
    must divide (and which must not be 0). *)
Definition infer_size (dims : list Z) (n : nat) : Result (list nat) :=
  if decide (Forall (fun d => (-1 <= d)%Z) dims) then
    let known := filter (fun d => d ≠ (-1)%Z) dims in
    let newsize := numel_of (Z.to_nat <$> known) in
    match length dims - length known with
    | 0 => if n =? newsize then Ok (Z.to_nat <$> dims) else Raise RuntimeError
    | 1 =>
        if (0 <? newsize) && (n mod newsize =? 0)
        then Ok ((fun d => if decide (d = (-1)%Z) then n / newsize else Z.to_nat d) <$> dims)
        else Raise RuntimeError
    | _ => Raise RuntimeError
    end
  else Raise RuntimeError.

(** *** Reductions over the last axis *)

(** [F.softmax(t, dim=-1)], over the reals.  (In floating point a row that
    holds inf or NaN gives NaN weights; finite rows do not overflow, since
    the maximum of the row is subtracted first.) *)
Definition softmax_v (t : Tensor) : Tensor :=
  match shape t with
  | [] => mkTensor [] (fun idx => (exp (elem t idx) / exp (elem t idx))%R)
  | _ =>
      mkTensor (shape t) (fun idx =>
        (exp (elem t idx)
         / sumR (last_of (shape t)) (fun l => exp (elem t (set_last idx l))))%R)
  end.

(** Mean and (biased) variance of the row through [idx] along the last axis. *)
Definition row_mean (t : Tensor) (idx : list nat) : R :=
  let n := last_of (shape t) in
  (sumR n (fun l => elem t (set_last idx l)) / INR n)%R.

Definition row_var (t : Tensor) (idx : list nat) : R :=
  let n := last_of (shape t) in
  let mu := row_mean t idx in
  (sumR n (fun l => (elem t (set_last idx l) - mu) * (elem t (set_last idx l) - mu)) / INR n)%R.

(** *** Matrix product *)

(** [torch.matmul] on operands of rank at least 2: the leading (batch)
    sizes are broadcast, the last two axes are multiplied as matrices. *)
Definition bmm_t (bs : list nat) (n m p : nat) (a b : Tensor) : Tensor :=
  let ba := take (length (shape a) - 2) (shape a) in
  let bb := take (length (shape b) - 2) (shape b) in
  mkTensor (bs ++ [n; p]) (fun idx =>
    let r := length idx in
    let bi := take (r - 2) idx in
    let i := nth (r - 2) idx 0 in
    let j := nth (r - 1) idx 0 in
    sumR m (fun l =>
      (elem a (bidx ba bi ++ [i; l]) * elem b (bidx bb bi ++ [l; j]))%R)).

Definition bmm_v (a b : Tensor) : Result Tensor :=
  let ra := length (shape a) in
  let rb := length (shape b) in
  match drop (ra - 2) (shape a), drop (rb - 2) (shape b) with
  | [n; m], [m'; p] =>
      if m =? m' then
        match broadcast_shapes (take (ra - 2) (shape a)) (take (rb - 2) (shape b)) with
        | Some bs => Ok (bmm_t bs n m p a b)
        | None => Raise RuntimeError
        end
      else Raise RuntimeError
  | _, _ => Raise RuntimeError
  end.

(** [torch.matmul]: a rank-1 operand is promoted to a matrix (a row on the
    left, a column on the right) and the added axis is removed from the
    result; a rank-0 operand is refused. *)
Definition matmul_v (a b : Tensor) : Result Tensor :=
  match length (shape a), length (shape b) with
  | 0, _ | _, 0 => Raise RuntimeError
  | 1, 1 =>
      rbind (bmm_v (unsqueeze_v 0 a) (unsqueeze_v 1 b)) (fun r =>
      Ok (squeeze_v 0 (squeeze_v 0 r)))
  | 1, S (S rb) =>
      rbind (bmm_v (unsqueeze_v 0 a) b) (fun r =>
      Ok (squeeze_v rb r))
  | S (S ra), 1 =>
      rbind (bmm_v a (unsqueeze_v 1 b)) (fun r =>
      Ok (squeeze_v (S ra) r))
  | _, _ => bmm_v a b
  end.

End TensorValue.
Export TensorValue.

(** ** The torch.nn library modules the source instantiates *)

Module TorchNN.

(** Learned parameters are read from a state dictionary: a name and an
    index give a value.  Sub-modules read theirs under their own prefix. *)
Definition StateDict : Type := string -> list nat -> R.

Definition sub_dict (sd : StateDict) (prefix : string) : StateDict :=
  fun name => sd (prefix +:+ "." +:+ name).

(** [nn.Linear(in_features, out_features, bias)] *)
Record Linear : Type := mkLinear {
  in_features : nat;
  out_features : nat;
  weight : Tensor;
  bias : option Tensor
}.

Definition nn_Linear (sd : StateDict) (n_in n_out : nat) (has_bias : bool) : Linear :=
  mkLinear n_in n_out
    (mkTensor [n_out; n_in] (sd "weight"))
    (if has_bias then Some (mkTensor [n_out] (sd "bias")) else None).

(** [F.linear]: [y = x W^T + b] along the last axis. *)
Definition linear_t (L : Linear) (t : Tensor) : Tensor :=
  mkTensor (removelast (shape t) ++ [out_features L]) (fun idx =>
    let j := last_of idx in
    (sumR (in_features L)
       (fun l => elem t (set_last idx l) * elem (weight L) [j; l])
     + match bias L with
       | Some b => elem b [j]
       | None => 0
       end)%R).

Definition linear_v (L : Linear) (t : Tensor) : Result Tensor :=
  match shape t with
  | [] => Raise RuntimeError
  | _ =>
      if last_of (shape t) =? in_features L
      then Ok (linear_t L t)
      else Raise RuntimeError
  end.

(** [nn.LayerNorm(normalized_shape, eps)] over the last axis, with the
    learned element-wise scale and bias. *)
Record LayerNorm : Type := mkLayerNorm {
  normalized_shape : nat;
  eps : R;
  ln_weight : Tensor;
  ln_bias : Tensor
}.

Definition nn_LayerNorm (sd : StateDict) (d : nat) (e : R) : LayerNorm :=
  mkLayerNorm d e (mkTensor [d] (sd "weight")) (mkTensor [d] (sd "bias")).

Definition layer_norm_t (N : LayerNorm) (t : Tensor) : Tensor :=
  mkTensor (shape t) (fun idx =>
    let j := last_of idx in
    ((elem t idx - row_mean t idx) / sqrt (row_var t idx + eps N)
     * elem (ln_weight N) [j] + elem (ln_bias N) [j])%R).

Definition layer_norm_v (N : LayerNorm) (t : Tensor) : Result Tensor :=
  match shape t with
  | [] => Raise RuntimeError
  | _ =>
      if last_of (shape t) =? normalized_shape N
      then Ok (layer_norm_t N t)
      else Raise RuntimeError
  end.

(** [nn.Dropout(p)]; [training] is the module's mode flag. *)
Record Dropout : Type := mkDropout {
  p : Q;
  training : bool
}.

(** The constructor refuses a probability outside [0, 1] (a ValueError). *)
Definition nn_Dropout (prob : Q) : Result Dropout :=
  if Qle_bool 0 prob && Qle_bool prob 1
  then Ok (mkDropout prob true)
  else Raise ValueError.

(** Inverted dropout with the keep-mask [keep]. *)
Definition dropout_v (prob : Q) (keep : list nat -> bool) (t : Tensor) : Tensor :=
  mkTensor (shape t) (fun idx =>
    if keep idx then (elem t idx / (1 - Q2R prob))%R else 0%R).

Definition zeros_like_v (t : Tensor) : Tensor :=
  mkTensor (shape t) (fun _ => 0%R).

(** The value [nn.Dropout.forward] returns: the input when not training,
    when [p] is 0 or when the input is empty; zeros when [p] is 1;
    otherwise the kept elements rescaled. *)
Definition dropout_t (d : Dropout) (keep : list nat -> bool) (t : Tensor) : Tensor :=
  if negb (training d) || Qeq_bool (p d) 0 || (numel t =? 0) then t
  else if Qeq_bool (p d) 1 then zeros_like_v t
  else dropout_v (p d) keep t.

End TorchNN.
Export TorchNN.

(** ** Tensor objects: a store of base tensors and handles into it *)

Module Store.

(** A view of a base tensor is the base read through a path of view
    operations; writing through the view writes the base. *)
Inductive ViewOp : Type :=
| VView (s : list nat)
| VTranspose (d1 d2 : nat)
| VUnsqueeze (d : nat)
| VNarrow1 (n : nat).

Definition get_op (op : ViewOp) (t : Tensor) : Tensor :=
  match op with
  | VView s => view_v s t
  | VTranspose d1 d2 => transpose_v d1 d2 t
  | VUnsqueeze d => unsqueeze_v d t
  | VNarrow1 n => narrow1_v n t
  end.

Definition put_op (op : ViewOp) (base new : Tensor) : Tensor :=
  match op with
  | VView _ => view_v (shape base) new
  | VTranspose d1 d2 => transpose_v d1 d2 new
  | VUnsqueeze d => squeeze_v d new
  | VNarrow1 n =>
      mkTensor (shape base) (fun idx =>
        match idx with
        | _ :: i1 :: _ => if i1 <? n then elem new idx else elem base idx
        | _ => elem base idx
        end)
  end.

Fixpoint get_path (path : list ViewOp) (t : Tensor) : Tensor :=
  match path with
  | [] => t
  | op :: rest => get_path rest (get_op op t)
  end.

Fixpoint put_path (path : list ViewOp) (base new : Tensor) : Tensor :=
  match path with
  | [] => new
  | op :: rest => put_op op base (put_path rest (get_op op base) new)
  end.

(** A tensor object: the storage it reads, the view path, its strides
    (which decide contiguity) and its autograd flag. *)
Record handle : Type := mkHandle {
  stor : nat;
  path : list ViewOp;
  strides : list nat;
  requires_grad : bool
}.

(** The interpreter state: the storages, and the random source of
    dropout (one keep-mask per draw, numbered by [tick]). *)
Record State : Type := mkState {
  heap : list Tensor;
  tick : nat;
  rng : nat -> list nat -> bool
}.

Definition M (A : Type) : Type := State -> Result A * State.

Definition ret {A} (a : A) : M A := fun st => (Ok a, st).

Definition raise {A} (e : PyExc) : M A := fun st => (Raise e, st).

Definition bind {A B} (m : M A) (k : A -> M B) : M B :=
  fun st =>
    match m st with
    | (Ok a, st') => k a st'
    | (Raise e, st') => (Raise e, st')
    end.

Definition lift {A} (r : Result A) : M A := fun st => (r, st).

Definition run {A} (m : M A) (st : State) : Result A * State := m st.

End Store.
Export Store.

Declare Scope py_scope.
Delimit Scope py_scope with py.
Notation "x <- m ;; k" := (bind m (fun x => k))
  (at level 100, m at next level, right associativity) : py_scope.
#[local] Open Scope py_scope.

Module Torch.

(** *** Reading and allocating *)

Definition read (st : State) (h : handle) : option Tensor :=
  get_path (path h) <$> heap st !! stor h.

Definition value (h : handle) : M Tensor :=
  fun st =>
    match read st h with
    | Some t => (Ok t, st)
    | None => (Raise RuntimeError, st)
    end.

Fixpoint contiguous_strides (s : list nat) : list nat :=
  match s with
  | [] => []
  | _ :: s' => numel_of (Nat.max 1 <$> s') :: contiguous_strides s'
  end.

Fixpoint is_contiguous_rev (rs rstr : list nat) (z : nat) : bool :=
  match rs, rstr with
  | [], [] => true
  | d :: rs', k :: rstr' =>
      if d =? 1 then is_contiguous_rev rs' rstr' z
      else (k =? z) && is_contiguous_rev rs' rstr' (z * d)
  | _, _ => false
  end.

Definition is_contiguous (s str : list nat) : bool :=
  (numel_of s =? 0) || is_contiguous_rev (rev s) (rev str) 1.

Definition alloc (st : State) (t : Tensor) : State :=
  mkState (heap st ++ [t]) (tick st) (rng st).

(** A new tensor object on a storage of its own. *)
Definition fresh (t : Tensor) (rg : bool) : M handle :=
  fun st =>
    (Ok (mkHandle (length (heap st)) [] (contiguous_strides (shape t)) rg),
     alloc st t).

(** Write [t] through the view [h] into its storage. *)
Definition write (h : handle) (t : Tensor) : M unit :=
  fun st =>
    match heap st !! stor h with
    | Some base =>
        (Ok tt, mkState (<[stor h := put_path (path h) base t]> (heap st))
                        (tick st) (rng st))
    | None => (Raise RuntimeError, st)
    end.

Definition next_mask : M (list nat -> bool) :=
  fun st => (Ok (rng st (tick st)), mkState (heap st) (S (tick st)) (rng st)).

(** *** Tensor methods and functions *)

(** [t.size(d)] *)
Definition size (t : handle) (d : nat) : M nat :=
  v <- value t ;;
  match shape v !! d with
  | Some n => ret n
  | None => raise IndexError
  end.

(** [t / c] *)
Definition div (t : handle) (c : R) : M handle :=
  v <- value t ;;
  fresh (div_scalar_v v c) (requires_grad t).

(** [t == c] *)
Definition eq (t : handle) (c : R) : M handle :=
  v <- value t ;;
  fresh (eq_scalar_v v c) false.

(** [a + b] *)
Definition add (a b : handle) : M handle :=
  va <- value a ;;
  vb <- value b ;;
  r <- lift (add_v va vb) ;;
  fresh r (requires_grad a || requires_grad b).

(** [a += b]: the storage of [a] is overwritten and [a] itself is the result. *)
Definition iadd (a b : handle) : M handle :=
  va <- value a ;;
  vb <- value b ;;
  r <- lift (iadd_v va vb) ;;
  _ <- write a r ;;
  ret (mkHandle (stor a) (path a) (strides a) (requires_grad a || requires_grad b)).

(** [torch.matmul(a, b)] *)
Definition matmul (a b : handle) : M handle :=
  va <- value a ;;
  vb <- value b ;;
  r <- lift (matmul_v va vb) ;;
  fresh r (requires_grad a || requires_grad b).

(** [t.masked_fill(m, c)] *)
Definition masked_fill (t m : handle) (c : R) : M handle :=
  vt <- value t ;;
  vm <- value m ;;
  r <- lift (masked_fill_v vt vm c) ;;
  fresh r (requires_grad t).

(** [t.transpose(d1, d2)]: a view *)
Definition transpose (t : handle) (d1 d2 : nat) : M handle :=
  v <- value t ;;
  if (d1 <? rank v) && (d2 <? rank v)
  then ret (mkHandle (stor t) (path t ++ [VTranspose d1 d2])
                     (swap_at d1 d2 (strides t)) (requires_grad t))
  else raise IndexError.

(** [t.unsqueeze(d)]: a view *)
Definition unsqueeze (t : handle) (d : nat) : M handle :=
  v <- value t ;;
  if d <=? rank v
  then ret (mkHandle (stor t) (path t ++ [VUnsqueeze d])
                     (take d (strides t)
                      ++ match shape v !! d, strides t !! d with
                         | Some n, Some k => n * k
                         | _, _ => 1
                         end :: drop d (strides t))
                     (requires_grad t))
  else raise IndexError.

(** [t[:, :n]]: a view *)
Definition narrow1 (t : handle) (n : nat) : M handle :=
  v <- value t ;;
  if 2 <=? rank v
  then ret (mkHandle (stor t) (path t ++ [VNarrow1 n]) (strides t) (requires_grad t))
  else raise IndexError.

(** [t.contiguous()]: the object itself when it is contiguous already,
    a copy otherwise *)
Definition contiguous (t : handle) : M handle :=
  v <- value t ;;
  if is_contiguous (shape v) (strides t) then ret t
  else fresh v (requires_grad t).

(** [t.clone()] *)
Definition clone (t : handle) : M handle :=
  v <- value t ;;
  fresh v (requires_grad t).

(** [t.detach()]: the same storage, cut from the autograd graph *)
Definition detach (t : handle) : M handle :=
  ret (mkHandle (stor t) (path t) (strides t) false).

(** [t.view(dims)]: a view.  Only a contiguous tensor is viewed here (torch
    also accepts some non-contiguous layouts; the source calls [view] on
    results of [nn.Linear] and of [contiguous()] only). *)
Definition view (t : handle) (dims : list Z) : M handle :=
  v <- value t ;;
  s <- lift (infer_size dims (numel v)) ;;
  if is_contiguous (shape v) (strides t)
  then ret (mkHandle (stor t) (path t ++ [VView s]) (contiguous_strides s)
                     (requires_grad t))
  else raise RuntimeError.

(** [F.softmax(t, dim=-1)] *)
Definition softmax (t : handle) : M handle :=
  v <- value t ;;
  fresh (softmax_v v) (requires_grad t).

(** [F.relu(t)] *)
Definition relu (t : handle) : M handle :=
  v <- value t ;;
  fresh (relu_v v) (requires_grad t).

(** [nn.Linear.forward]; the parameters require gradients. *)
Definition Linear_forward (L : Linear) (t : handle) : M handle :=
  v <- value t ;;
  r <- lift (linear_v L v) ;;
  fresh r true.

(** [nn.LayerNorm.forward] *)
Definition LayerNorm_forward (N : LayerNorm) (t : handle) : M handle :=
  v <- value t ;;
  r <- lift (layer_norm_v N v) ;;
  fresh r true.

(** [nn.Dropout.forward]: the input object itself when not training, when
    [p] is 0 or when the input is empty; zeros when [p] is 1; otherwise
    the kept elements rescaled by [1 / (1 - p)]. *)
Definition Dropout_forward (d : Dropout) (t : handle) : M handle :=
  v <- value t ;;
  if negb (training d) || Qeq_bool (p d) 0 || (numel v =? 0) then ret t
  else if Qeq_bool (p d) 1 then fresh (zeros_like_v v) (requires_grad t)
  else keep <- next_mask ;;
       fresh (dropout_v (p d) keep v) (requires_grad t).

End Torch.

(** ** Python objects, attribute access and calls *)

Module Python.

(** The objects the module handles.  An [nn.Module] of this repository is
    its class name and its attribute dictionary (the attributes assigned
    by [__init__], sub-modules and buffers included, in assignment order);
    [nn.ModuleList] is the list of its modules. *)
Inductive Obj : Type :=
| ONone
| OBool (b : bool)
| OInt (n : nat)
| OFloat (r : R)
| OTensor (h : handle)
| OList (l : list Obj)
| OTuple (l : list Obj)
| OLinear (m : Linear)
| OLayerNorm (m : LayerNorm)
| ODropout (m : Dropout)
| OModule (cls : string) (attrs : list (string * Obj)).

Fixpoint assoc {A} (k : string) (l : list (string * A)) : option A :=
  match l with
  | [] => None
  | (k', v) :: rest => if String.eqb k k' then Some v else assoc k rest
  end.

(** [o.name]: [nn.Module.__getattr__] raises AttributeError for a name
    that was never assigned. *)
Definition getattr (o : Obj) (name : string) : M Obj :=
  match o with
  | OModule _ attrs =>
      match assoc name attrs with
      | Some v => ret v
      | None => raise (AttributeError name)
      end
  | _ => raise (AttributeError name)
  end.

(** The arguments of a call, read at the type the method uses them at.
    (An argument of another type makes Python raise at its first use inside
    the method, a TypeError or an AttributeError according to that use;
    TypeError stands for both here.) *)
Definition as_tensor (o : Obj) : M handle :=
  match o with OTensor h => ret h | _ => raise TypeError end.

Definition as_opt_tensor (o : Obj) : M (option handle) :=
  match o with
  | OTensor h => ret (Some h)
  | ONone => ret None
  | _ => raise TypeError
  end.

Definition as_int (o : Obj) : M nat :=
  match o with OInt n => ret n | _ => raise TypeError end.

Definition as_float (o : Obj) : M R :=
  match o with OFloat r => ret r | _ => raise TypeError end.

Definition as_list (o : Obj) : M (list Obj) :=
  match o with OList l => ret l | _ => raise TypeError end.

Definition of_opt_tensor (o : option handle) : Obj :=
  match o with Some h => OTensor h | None => ONone end.

(** A signature: the parameters after [self], each with its default if any. *)
Definition Signature : Type := list (string * option Obj).

Fixpoint fill_rest (rest : Signature) (kwargs : list (string * Obj))
  : Result (list (string * Obj)) :=
  match rest with
  | [] => Ok []
  | (x, dflt) :: rest' =>
      match assoc x kwargs, dflt with
      | Some v, _ | None, Some v =>
          rbind (fill_rest rest' kwargs) (fun env => Ok ((x, v) :: env))
      | None, None => Raise TypeError
      end
  end.

(** Argument binding of a call: positional arguments
    fill the parameters from the left; a keyword must name a parameter not
    filled yet; a parameter left over takes its default and must have one.
    Every violation is a TypeError. *)
Definition bind_args (sig : Signature) (args : list Obj) (kwargs : list (string * Obj))
  : Result (list (string * Obj)) :=
  if length sig <? length args then Raise TypeError
  else
    let rest := drop (length args) sig in
    if forallb (fun kv => bool_decide (kv.1 ∈ rest.*1)) kwargs
       && bool_decide (NoDup kwargs.*1)
    then rbind (fill_rest rest kwargs) (fun env => Ok (zip (take (length args) sig).*1 args ++ env))
    else Raise TypeError.

Definition arg (env : list (string * Obj)) (name : string) : Obj :=
  default ONone (assoc name env).

Definition is_instance (o : Obj) (c : string) : bool :=
  match o with
  | OModule cls _ => bool_decide (cls = c)
  | _ => false
  end.

(** Calling a library module held in an attribute. *)
Definition call_Linear (o : Obj) (x : handle) : M handle :=
  match o with OLinear L => Torch.Linear_forward L x | _ => raise TypeError end.

Definition call_LayerNorm (o : Obj) (x : handle) : M handle :=
  match o with OLayerNorm N => Torch.LayerNorm_forward N x | _ => raise TypeError end.

Definition call_Dropout (o : Obj) (x : handle) : M handle :=
  match o with ODropout d => Torch.Dropout_forward d x | _ => raise TypeError end.

(** [nn.Module.train(mode)]: sets the mode flag of the module and of all
    its sub-modules; [eval()] is [train(False)]. *)
Fixpoint Module_train (mode : bool) (o : Obj) : Obj :=
  match o with
  | ODropout d => ODropout (mkDropout (p d) mode)
  | OModule c attrs =>
      OModule c (List.map (fun kv => match kv with (k, v) => (k, Module_train mode v) end) attrs)
  | OList l => OList (List.map (Module_train mode) l)
  | other => other
  end.

(** [x ** y] on a non-negative base. *)
Definition float_pow (x y : R) : R :=
  if Req_dec_T x 0 then (if Req_dec_T y 0 then 1%R else 0%R) else Rpower x y.

End Python.
Export Python.

(** ** The numpy operations of the positional table *)

Module Numpy.

(** [np.array(rows)] of a list of equally long lists; the empty list gives
    a one-dimensional array of size 0. *)
Definition array (rows : list (list R)) : Tensor :=
  match rows with
  | [] => mkTensor [0] (fun _ => 0%R)
  | r :: _ =>
      mkTensor [length rows; length r]
        (fun idx => nth (nth 1 idx 0) (nth (nth 0 idx 0) rows []) 0%R)
  end.

(** [a[:, start::2] = f(a[:, start::2])] *)
Definition update_columns (start : nat) (f : R -> R) (a : Tensor) : Result Tensor :=
  if length (shape a) <? 2 then Raise IndexError
  else Ok (mkTensor (shape a) (fun idx =>
             let j := nth 1 idx 0 in
             if (start <=? j) && ((j - start) mod 2 =? 0)
             then f (elem a idx) else elem a idx)).

(** [np.power(b, x)] for a positive base *)
Definition power (b x : R) : R := Rpower b x.

End Numpy.

(** ** The classes of [self_attention.py] *)

Definition rmapM {A B} (f : A -> Result B) : list A -> Result (list B) :=
  fix go l :=
    match l with
    | [] => Ok []
    | a :: l' => rbind (f a) (fun b => rbind (go l') (fun bs => Ok (b :: bs)))
    end.

(** *** ScaledDotProductAttention *)

Definition ScaledDotProductAttention_init (temperature : R) (attn_dropout : Q)
  : Result Obj :=
  rbind (nn_Dropout attn_dropout) (fun dropout =>
  Ok (OModule "ScaledDotProductAttention"
        [("temperature", OFloat temperature);
         ("dropout", ODropout dropout)])).

Definition ScaledDotProductAttention_forward
  (self : Obj) (q k v : handle) (attn_mask : option handle) : M (handle * handle) :=
  (* dot product q with k.T to obtain similarity *)
  temperature <- (t <- getattr self "temperature" ;; as_float t) ;;
  q_scaled <- Torch.div q temperature ;;
  k_t <- Torch.transpose k 2 3 ;;
  attn <- Torch.matmul q_scaled k_t ;;
  (* apply masking on the attention map, this is optional *)
  attn <- match attn_mask with
          | Some m =>
              is_one <- Torch.eq m 1 ;;
              Torch.masked_fill attn is_one (-1e9)
          | None => ret attn
          end ;;
  (* compute attention score [0, 1], then apply dropout *)
  dropout <- getattr self "dropout" ;;
  score <- Torch.softmax attn ;;
  attn <- call_Dropout dropout score ;;
  (* multiply the score with v *)
  output <- Torch.matmul attn v ;;
  ret (output, attn).

Definition ScaledDotProductAttention_signature : Signature :=
  [("q", None); ("k", None); ("v", None); ("attn_mask", Some ONone)].

Definition ScaledDotProductAttention_call
  (self : Obj) (args : list Obj) (kwargs : list (string * Obj)) : M (handle * handle) :=
  if is_instance self "ScaledDotProductAttention" then
    env <- lift (bind_args ScaledDotProductAttention_signature args kwargs) ;;
    q <- as_tensor (arg env "q") ;;
    k <- as_tensor (arg env "k") ;;
    v <- as_tensor (arg env "v") ;;
    attn_mask <- as_opt_tensor (arg env "attn_mask") ;;
    ScaledDotProductAttention_forward self q k v attn_mask
  else raise TypeError.

(** *** MultiHeadAttention *)

Definition MultiHeadAttention_init
  (sd : StateDict) (n_heads d_model d_k d_v : nat) (dropout attn_dropout : Q)
  : Result Obj :=
  let w_qs := nn_Linear (sub_dict sd "w_qs") d_model (n_heads * d_k) false in
  let w_ks := nn_Linear (sub_dict sd "w_ks") d_model (n_heads * d_k) false in
  let w_vs := nn_Linear (sub_dict sd "w_vs") d_model (n_heads * d_v) false in
  rbind (ScaledDotProductAttention_init (float_pow (INR d_k) 0.5) attn_dropout)
    (fun attention =>
  let fc := nn_Linear (sub_dict sd "fc") (n_heads * d_v) d_model false in
  rbind (nn_Dropout dropout) (fun drop =>
  let layer_norm := nn_LayerNorm (sub_dict sd "layer_norm") d_model 1e-6 in
  Ok (OModule "MultiHeadAttention"
        [("n_head", OInt n_heads);
         ("d_k", OInt d_k);
         ("d_v", OInt d_v);
         ("w_qs", OLinear w_qs);
         ("w_ks", OLinear w_ks);
         ("w_vs", OLinear w_vs);
         ("attention", attention);
         ("fc", OLinear fc);
         ("dropout", ODropout drop);
         ("layer_norm", OLayerNorm layer_norm)]))).

Definition MultiHeadAttention_forward
  (self : Obj) (q k v : handle) (attn_mask : option handle) : M (handle * handle) :=
  (* keep useful variables *)
  batch_size <- Torch.size q 0 ;;
  n_steps <- Torch.size q 1 ;;
  let residual := q in
  (* now separate the last dimension of q, k, v into different heads *)
  w_qs <- getattr self "w_qs" ;;
  q <- call_Linear w_qs q ;;
  n_head <- (a <- getattr self "n_head" ;; as_int a) ;;
  d_k <- (a <- getattr self "d_k" ;; as_int a) ;;
  q <- Torch.view q [Z.of_nat batch_size; Z.of_nat n_steps; Z.of_nat n_head; Z.of_nat d_k] ;;
  w_ks <- getattr self "w_ks" ;;
  k <- call_Linear w_ks k ;;
  n_head <- (a <- getattr self "n_head" ;; as_int a) ;;
  d_k <- (a <- getattr self "d_k" ;; as_int a) ;;
  k <- Torch.view k [Z.of_nat batch_size; Z.of_nat n_steps; Z.of_nat n_head; Z.of_nat d_k] ;;
  w_vs <- getattr self "w_vs" ;;
  v <- call_Linear w_vs v ;;
  n_head <- (a <- getattr self "n_head" ;; as_int a) ;;
  d_v <- (a <- getattr self "d_v" ;; as_int a) ;;
  v <- Torch.view v [Z.of_nat batch_size; Z.of_nat n_steps; Z.of_nat n_head; Z.of_nat d_v] ;;
  (* transpose for self-attention calculation *)
  q <- Torch.transpose q 1 2 ;;
  k <- Torch.transpose k 1 2 ;;
  v <- Torch.transpose v 1 2 ;;
  attn_mask <- match attn_mask with
               | Some m =>
                   (* broadcasting on the head axis *)
                   m' <- Torch.unsqueeze m 1 ;; ret (Some m')
               | None => ret None
               end ;;
  attention <- getattr self "attention" ;;
  r <- ScaledDotProductAttention_call attention
         [OTensor q; OTensor k; OTensor v; of_opt_tensor attn_mask] [] ;;
  let '(v, attn_weights) := r in
  (* transpose back, then merge the last two dimensions to combine all the heads *)
  v <- Torch.transpose v 1 2 ;;
  v <- Torch.contiguous v ;;
  v <- Torch.view v [Z.of_nat batch_size; Z.of_nat n_steps; (-1)%Z] ;;
  fc <- getattr self "fc" ;;
  v <- call_Linear fc v ;;
  (* apply dropout and residual connection *)
  dropout <- getattr self "dropout" ;;
  v <- call_Dropout dropout v ;;
  v <- Torch.iadd v residual ;;
  (* apply layer-norm *)
  layer_norm <- getattr self "layer_norm" ;;
  v <- call_LayerNorm layer_norm v ;;
  ret (v, attn_weights).

Definition MultiHeadAttention_signature : Signature :=
  [("q", None); ("k", None); ("v", None); ("attn_mask", None)].

Definition MultiHeadAttention_call
  (self : Obj) (args : list Obj) (kwargs : list (string * Obj)) : M (handle * handle) :=
  if is_instance self "MultiHeadAttention" then
    env <- lift (bind_args MultiHeadAttention_signature args kwargs) ;;
    q <- as_tensor (arg env "q") ;;
    k <- as_tensor (arg env "k") ;;
    v <- as_tensor (arg env "v") ;;
    attn_mask <- as_opt_tensor (arg env "attn_mask") ;;
    MultiHeadAttention_forward self q k v attn_mask
  else raise TypeError.

(** *** PositionWiseFeedForward *)

Definition PositionWiseFeedForward_init (sd : StateDict) (d_in d_hid : nat) (dropout : Q)
  : Result Obj :=
  let linear_1 := nn_Linear (sub_dict sd "linear_1") d_in d_hid true in
  let linear_2 := nn_Linear (sub_dict sd "linear_2") d_hid d_in true in
  let layer_norm := nn_LayerNorm (sub_dict sd "layer_norm") d_in 1e-6 in
  rbind (nn_Dropout dropout) (fun drop =>
  Ok (OModule "PositionWiseFeedForward"
        [("linear_1", OLinear linear_1);
         ("linear_2", OLinear linear_2);
         ("layer_norm", OLayerNorm layer_norm);
         ("dropout", ODropout drop)])).

Definition PositionWiseFeedForward_forward (self : Obj) (x : handle) : M handle :=
  (* save the original input for the later residual connection *)
  let residual := x in
  (* the 1st linear processing and ReLU non-linear projection *)
  linear_1 <- getattr self "linear_1" ;;
  x <- call_Linear linear_1 x ;;
  x <- Torch.relu x ;;
  (* the 2nd linear processing *)
  linear_2 <- getattr self "linear_2" ;;
  x <- call_Linear linear_2 x ;;
  (* apply dropout *)
  dropout <- getattr self "dropout" ;;
  x <- call_Dropout dropout x ;;
  (* apply residual connection *)
  x <- Torch.iadd x residual ;;
  (* apply layer-norm *)
  layer_norm <- getattr self "layer_norm" ;;
  x <- call_LayerNorm layer_norm x ;;
  ret x.

Definition PositionWiseFeedForward_signature : Signature := [("x", None)].

Definition PositionWiseFeedForward_call
  (self : Obj) (args : list Obj) (kwargs : list (string * Obj)) : M handle :=
  if is_instance self "PositionWiseFeedForward" then
    env <- lift (bind_args PositionWiseFeedForward_signature args kwargs) ;;
    x <- as_tensor (arg env "x") ;;
    PositionWiseFeedForward_forward self x
  else raise TypeError.

(** *** EncoderLayer *)

Definition EncoderLayer_init
  (sd : StateDict) (d_model d_inner n_head d_k d_v : nat) (dropout attn_dropout : Q)
  : Result Obj :=
  rbind (MultiHeadAttention_init (sub_dict sd "slf_attn")
           n_head d_model d_k d_v dropout attn_dropout) (fun slf_attn =>
  rbind (PositionWiseFeedForward_init (sub_dict sd "pos_ffn") d_model d_inner dropout)
    (fun pos_ffn =>
  Ok (OModule "EncoderLayer"
        [("slf_attn", slf_attn);
         ("pos_ffn", pos_ffn)]))).

Definition EncoderLayer_forward
  (self : Obj) (enc_input : handle) (src_mask : option handle) : M (handle * handle) :=
  slf_attn <- getattr self "slf_attn" ;;
  r <- MultiHeadAttention_call slf_attn
         [OTensor enc_input; OTensor enc_input; OTensor enc_input]
         [("attn_mask", of_opt_tensor src_mask)] ;;
  let '(enc_output, attn_weights) := r in
  pos_ffn <- getattr self "pos_ffn" ;;
  enc_output <- PositionWiseFeedForward_call pos_ffn [OTensor enc_output] [] ;;
  ret (enc_output, attn_weights).

Definition EncoderLayer_signature : Signature :=
  [("enc_input", None); ("src_mask", Some ONone)].

Definition EncoderLayer_call
  (self : Obj) (args : list Obj) (kwargs : list (string * Obj)) : M (handle * handle) :=
  if is_instance self "EncoderLayer" then
    env <- lift (bind_args EncoderLayer_signature args kwargs) ;;
    enc_input <- as_tensor (arg env "enc_input") ;;
    src_mask <- as_opt_tensor (arg env "src_mask") ;;
    EncoderLayer_forward self enc_input src_mask
  else raise TypeError.

(** *** DecoderLayer *)

Definition DecoderLayer_init
  (sd : StateDict) (d_model d_inner n_head d_k d_v : nat) (dropout attn_dropout : Q)
  : Result Obj :=
  rbind (MultiHeadAttention_init (sub_dict sd "slf_attn")
           n_head d_model d_k d_v dropout attn_dropout) (fun slf_attn =>
  rbind (MultiHeadAttention_init (sub_dict sd "enc_attn")
           n_head d_model d_k d_v dropout attn_dropout) (fun enc_attn =>
  rbind (PositionWiseFeedForward_init (sub_dict sd "pos_ffn") d_model d_inner dropout)
    (fun pos_ffn =>
  Ok (OModule "DecoderLayer"
        [("slf_attn", slf_attn);
         ("enc_attn", enc_attn);
         ("pos_ffn", pos_ffn)])))).

Definition DecoderLayer_forward
  (self : Obj) (dec_input enc_output : handle)
  (slf_attn_mask dec_enc_attn_mask : option handle) : M (handle * handle * handle) :=
  slf_attn <- getattr self "slf_attn" ;;
  r <- MultiHeadAttention_call slf_attn
         [OTensor dec_input; OTensor dec_input; OTensor dec_input]
         [("mask", of_opt_tensor slf_attn_mask)] ;;
  let '(dec_output, dec_slf_attn) := r in
  enc_attn <- getattr self "enc_attn" ;;
  r <- MultiHeadAttention_call enc_attn
         [OTensor dec_output; OTensor enc_output; OTensor enc_output]
         [("mask", of_opt_tensor dec_enc_attn_mask)] ;;
  let '(dec_output, dec_enc_attn) := r in
  pos_ffn <- getattr self "pos_ffn" ;;
  dec_output <- PositionWiseFeedForward_call pos_ffn [OTensor dec_output] [] ;;
  ret (dec_output, dec_slf_attn, dec_enc_attn).

Definition DecoderLayer_signature : Signature :=
  [("dec_input", None); ("enc_output", None);
   ("slf_attn_mask", Some ONone); ("dec_enc_attn_mask", Some ONone)].

Definition DecoderLayer_call
  (self : Obj) (args : list Obj) (kwargs : list (string * Obj))
  : M (handle * handle * handle) :=
  if is_instance self "DecoderLayer" then
    env <- lift (bind_args DecoderLayer_signature args kwargs) ;;
    dec_input <- as_tensor (arg env "dec_input") ;;
    enc_output <- as_tensor (arg env "enc_output") ;;
    slf_attn_mask <- as_opt_tensor (arg env "slf_attn_mask") ;;
    dec_enc_attn_mask <- as_opt_tensor (arg env "dec_enc_attn_mask") ;;
    DecoderLayer_forward self dec_input enc_output slf_attn_mask dec_enc_attn_mask
  else raise TypeError.

(** *** PositionalEncoding *)

Definition get_position_angle_vec (d_hid position : nat) : list R :=
  (fun hid_j =>
     (INR position / Numpy.power 10000 (INR (2 * (hid_j / 2)) / INR d_hid))%R)
    <$> seq 0 d_hid.

(** Sinusoid position encoding table *)
Definition _get_sinusoid_encoding_table (n_position d_hid : nat) : M handle :=
  let sinusoid_table :=
    Numpy.array (get_position_angle_vec d_hid <$> seq 0 n_position) in
  (* dim 2i *)
  sinusoid_table <- lift (Numpy.update_columns 0 sin sinusoid_table) ;;
  (* dim 2i+1 *)
  sinusoid_table <- lift (Numpy.update_columns 1 cos sinusoid_table) ;;
  t <- Torch.fresh sinusoid_table false ;;
  Torch.unsqueeze t 0.

Definition PositionalEncoding_init (d_hid n_position : nat) : M Obj :=
  (* Not a parameter *)
  pos_table <- _get_sinusoid_encoding_table n_position d_hid ;;
  ret (OModule "PositionalEncoding" [("pos_table", OTensor pos_table)]).

Definition PositionalEncoding_forward (self : Obj) (x : handle) : M handle :=
  pos_table <- (t <- getattr self "pos_table" ;; as_tensor t) ;;
  steps <- Torch.size x 1 ;;
  sliced <- Torch.narrow1 pos_table steps ;;
  cloned <- Torch.clone sliced ;;
  detached <- Torch.detach cloned ;;
  Torch.add x detached.

Definition PositionalEncoding_signature : Signature := [("x", None)].

Definition PositionalEncoding_call
  (self : Obj) (args : list Obj) (kwargs : list (string * Obj)) : M handle :=
  if is_instance self "PositionalEncoding" then
    env <- lift (bind_args PositionalEncoding_signature args kwargs) ;;
    x <- as_tensor (arg env "x") ;;
    PositionalEncoding_forward self x
  else raise TypeError.

(** *** Encoder

    (The return annotation of [Encoder.forward] is not part of the body
    embedded here.) *)

Definition layer_dict (sd : StateDict) (stack : string) (i : nat) : StateDict :=
  sub_dict sd (stack +:+ "." +:+ pretty i).

Definition Encoder_init
  (sd : StateDict) (n_layers n_steps n_features d_model d_inner n_heads d_k d_v : nat)
  (dropout attn_dropout : Q) : M Obj :=
  let embedding := nn_Linear (sub_dict sd "embedding") n_features d_model true in
  drop <- lift (nn_Dropout dropout) ;;
  position_enc <- PositionalEncoding_init d_model n_steps ;;
  enc_layer_stack <-
    lift (rmapM (fun i =>
            EncoderLayer_init (layer_dict sd "enc_layer_stack" i)
              d_model d_inner n_heads d_k d_v dropout attn_dropout)
          (seq 0 n_layers)) ;;
  ret (OModule "Encoder"
         [("embedding", OLinear embedding);
          ("dropout", ODropout drop);
          ("position_enc", position_enc);
          ("enc_layer_stack", OList enc_layer_stack)]).

(** The body of [for layer in self.enc_layer_stack], over the remaining layers. *)
Fixpoint Encoder_loop
  (layers : list Obj) (src_mask : option handle)
  (enc_output : handle) (attn_weights_collector : list Obj) : M (handle * list Obj) :=
  match layers with
  | [] => ret (enc_output, attn_weights_collector)
  | layer :: rest =>
      r <- EncoderLayer_call layer [OTensor enc_output; of_opt_tensor src_mask] [] ;;
      let '(enc_output, attn_weights) := r in
      Encoder_loop rest src_mask enc_output
        (attn_weights_collector ++ [OTensor attn_weights])
  end.

Definition Encoder_forward
  (self : Obj) (x : handle) (src_mask : option handle) (return_attn_weights : bool)
  : M Obj :=
  embedding <- getattr self "embedding" ;;
  x <- call_Linear embedding x ;;
  dropout <- getattr self "dropout" ;;
  position_enc <- getattr self "position_enc" ;;
  x <- PositionalEncoding_call position_enc [OTensor x] [] ;;
  enc_output <- call_Dropout dropout x ;;
  let attn_weights_collector := [] in
  enc_layer_stack <- (s <- getattr self "enc_layer_stack" ;; as_list s) ;;
  r <- Encoder_loop enc_layer_stack src_mask enc_output attn_weights_collector ;;
  let '(enc_output, attn_weights_collector) := r in
  if return_attn_weights
  then ret (OTuple [OTensor enc_output; OList attn_weights_collector])
  else ret (OTensor enc_output).

(** *** Decoder *)

Definition Decoder_init
  (sd : StateDict) (n_layers n_steps n_features d_model d_inner n_heads d_k d_v : nat)
  (dropout attn_dropout : Q) : M Obj :=
  let embedding := nn_Linear (sub_dict sd "embedding") n_features d_model true in
  drop <- lift (nn_Dropout dropout) ;;
  position_enc <- PositionalEncoding_init d_model n_steps ;;
  dec_layer_stack <-
    lift (rmapM (fun i =>
            DecoderLayer_init (layer_dict sd "dec_layer_stack" i)
              d_model d_inner n_heads d_k d_v dropout attn_dropout)
          (seq 0 n_layers)) ;;
  ret (OModule "Decoder"
         [("embedding", OLinear embedding);
          ("dropout", ODropout drop);
          ("position_enc", position_enc);
          ("dec_layer_stack", OList dec_layer_stack)]).

Fixpoint Decoder_loop
  (layers : list Obj) (enc_output : handle) (trg_mask src_mask : option handle)
  (dec_output : handle) (dec_slf_attn_collector dec_enc_attn_collector : list Obj)
  : M (handle * list Obj * list Obj) :=
  match layers with
  | [] => ret (dec_output, dec_slf_attn_collector, dec_enc_attn_collector)
  | layer :: rest =>
      r <- DecoderLayer_call layer
             [OTensor dec_output; OTensor enc_output]
             [("slf_attn_mask", of_opt_tensor trg_mask);
              ("dec_enc_attn_mask", of_opt_tensor src_mask)] ;;
      let '(dec_output, dec_slf_attn, dec_enc_attn) := r in
      Decoder_loop rest enc_output trg_mask src_mask dec_output
        (dec_slf_attn_collector ++ [OTensor dec_slf_attn])
        (dec_enc_attn_collector ++ [OTensor dec_enc_attn])
  end.

Definition Decoder_forward
  (self : Obj) (trg_seq enc_output : handle) (trg_mask src_mask : option handle)
  (return_attn_weights : bool) : M Obj :=
  embedding <- getattr self "embedding" ;;
  trg_seq <- call_Linear embedding trg_seq ;;
  dropout <- getattr self "dropout" ;;
  position_enc <- getattr self "position_enc" ;;
  trg_seq <- PositionalEncoding_call position_enc [OTensor trg_seq] [] ;;
  dec_output <- call_Dropout dropout trg_seq ;;
  let dec_slf_attn_collector := [] in
  let dec_enc_attn_collector := [] in
  layer_stack <- (s <- getattr self "layer_stack" ;; as_list s) ;;
  r <- Decoder_loop layer_stack enc_output trg_mask src_mask dec_output
         dec_slf_attn_collector dec_enc_attn_collector ;;
  let '(dec_output, dec_slf_attn_collector, dec_enc_attn_collector) := r in
  if return_attn_weights
  then ret (OTuple [OTensor dec_output;
                    OList dec_slf_attn_collector; OList dec_enc_attn_collector])
  else ret (OTensor dec_output).

(** ** The specification's formulas *)

Module Spec.

(** Scaled dot-product attention, as the specification words it: the raw
    similarity of query row [i] and key row [j] is the product of the
    query divided by the temperature with the key, over the feature axis. *)
Definition similarity (temperature : R) (q k : Tensor) (b h i j : nat) : R :=
  sumR (last_of (shape q))
       (fun d => (elem q [b; h; i; d] / temperature * elem k [b; h; j; d])%R).

(** Where the mask is 1, the similarity is overwritten by a large negative
    constant. *)
Definition masked (mask : option Tensor) (score : R) (b h i j : nat) : R :=
  match mask with
  | Some m =>
      if Req_dec_T (elem m (bidx (shape m) [b; h; i; j])) 1
      then (-1e9)%R else score
  | None => score
  end.

Definition score (temperature : R) (q k : Tensor) (mask : option Tensor)
  (b h i j : nat) : R :=
  masked mask (similarity temperature q k b h i j) b h i j.

(** Softmax of a row of [n] scores. *)
Definition softmax_row (n : nat) (row : nat -> R) (j : nat) : R :=
  (exp (row j) / sumR n (fun l => exp (row l)))%R.

(** The attention weights before dropout. *)
Definition attention (temperature : R) (q k : Tensor) (mask : option Tensor)
  (steps_k : nat) (b h i j : nat) : R :=
  softmax_row steps_k (score temperature q k mask b h i) j.


(** Layer normalisation of the feature vector [y] of width [n]. *)
Definition mean (n : nat) (y : nat -> R) : R := (sumR n y / INR n)%R.

Definition variance (n : nat) (y : nat -> R) : R :=
  (sumR n (fun l => (y l - mean n y) * (y l - mean n y)) / INR n)%R.

Definition layer_norm (n : nat) (epsilon : R) (gamma beta y : nat -> R) (j : nat) : R :=
  ((y j - mean n y) / sqrt (variance n y + epsilon) * gamma j + beta j)%R.

(** The angle of the sinusoidal table at position [pos] and feature [i]. *)
Definition angle (d_model pos i : nat) : R :=
  (INR pos / Rpower 10000 (2 * INR (i / 2) / INR d_model))%R.

Definition sinusoid (d_model pos i : nat) : R :=
  if Nat.even i then sin (angle d_model pos i) else cos (angle d_model pos i).

End Spec.

(** ** The constructed modules, in a given mode *)

Module Built.

(** What [ScaledDotProductAttention(temperature, attn_dropout)] builds,
    after [train(mode)]. *)
Definition sdpa_module (temperature : R) (attn_dropout : Q) (mode : bool) : Obj :=
  OModule "ScaledDotProductAttention"
    [("temperature", OFloat temperature);
     ("dropout", ODropout (mkDropout attn_dropout mode))].

Section MultiHead.

Variable sd : StateDict.
Variables n_heads d_model d_k d_v : nat.
Variables dropout attn_dropout : Q.
Variable mode : bool.

Definition w_qs : Linear := nn_Linear (sub_dict sd "w_qs") d_model (n_heads * d_k) false.
Definition w_ks : Linear := nn_Linear (sub_dict sd "w_ks") d_model (n_heads * d_k) false.
Definition w_vs : Linear := nn_Linear (sub_dict sd "w_vs") d_model (n_heads * d_v) false.
Definition fc : Linear := nn_Linear (sub_dict sd "fc") (n_heads * d_v) d_model false.
Definition mha_norm : LayerNorm := nn_LayerNorm (sub_dict sd "layer_norm") d_model 1e-6.
Definition temperature : R := float_pow (INR d_k) 0.5.

(** What [MultiHeadAttention(n_heads, d_model, d_k, d_v, dropout,
    attn_dropout)] builds, after [train(mode)]. *)
Definition mha_module : Obj :=
  OModule "MultiHeadAttention"
    [("n_head", OInt n_heads);
     ("d_k", OInt d_k);
     ("d_v", OInt d_v);
     ("w_qs", OLinear w_qs);
     ("w_ks", OLinear w_ks);
     ("w_vs", OLinear w_vs);
     ("attention", sdpa_module temperature attn_dropout mode);
     ("fc", OLinear fc);
     ("dropout", ODropout (mkDropout dropout mode));
     ("layer_norm", OLayerNorm mha_norm)].

(** The heads of a projected input: [batch, heads, steps, dim]. *)
Definition heads (B N D : nat) (t : Tensor) : Tensor :=
  transpose_v 1 2 (view_v [B; N; n_heads; D] t).

(** The heads merged back: [batch, steps, heads * dim]. *)
Definition merged (B N : nat) (t : Tensor) : Tensor :=
  view_v [B; N; n_heads * d_v] (transpose_v 1 2 t).

End MultiHead.

Section FeedForward.

Variable sd : StateDict.
Variables d_in d_hid : nat.
Variable dropout : Q.
Variable mode : bool.

Definition linear_1 : Linear := nn_Linear (sub_dict sd "linear_1") d_in d_hid true.
Definition linear_2 : Linear := nn_Linear (sub_dict sd "linear_2") d_hid d_in true.
Definition pwff_norm : LayerNorm := nn_LayerNorm (sub_dict sd "layer_norm") d_in 1e-6.

(** What [PositionWiseFeedForward(d_in, d_hid, dropout)] builds, after
    [train(mode)]. *)
Definition pwff_module : Obj :=
  OModule "PositionWiseFeedForward"
    [("linear_1", OLinear linear_1);
     ("linear_2", OLinear linear_2);
     ("layer_norm", OLayerNorm pwff_norm);
     ("dropout", ODropout (mkDropout dropout mode))].

(** The value of the feed-forward block on [x], with the dropout mask [keep]. *)
Definition pwff_value (keep : list nat -> bool) (x : Tensor) : Tensor :=
  layer_norm_t pwff_norm
    (iadd_t (dropout_t (mkDropout dropout mode) keep
               (linear_t linear_2 (relu_v (linear_t linear_1 x))))
            x).

End FeedForward.

(** What [EncoderLayer(d_model, d_inner, n_head, d_k, d_v, dropout,
    attn_dropout)] builds, after [train(mode)]. *)
Definition encoder_layer_module
  (sd : StateDict) (d_model d_inner n_head d_k d_v : nat) (dropout attn_dropout : Q)
  (mode : bool) : Obj :=
  OModule "EncoderLayer"
    [("slf_attn",
      mha_module (sub_dict sd "slf_attn") n_head d_model d_k d_v dropout attn_dropout mode);
     ("pos_ffn", pwff_module (sub_dict sd "pos_ffn") d_model d_inner dropout mode)].

End Built.
Export Built.

(** ** Sample data *)

Module Sample.

Definition zeros (s : list nat) : Tensor := mkTensor s (fun _ => 0%R).

Definition ones (s : list nat) : Tensor := mkTensor s (fun _ => 1%R).

Definition sd0 : StateDict := fun _ _ => 0%R.

(** A state holding the given tensors, each on its own storage. *)
Definition state_of (ts : list Tensor) : State := mkState ts 0 (fun _ _ => true).

(** The object on storage [i], of sizes [s]. *)
Definition obj (i : nat) (s : list nat) : handle :=
  mkHandle i [] (Torch.contiguous_strides s) false.

End Sample.

(** ** Predicates on runs *)

Module Logic.

Import Torch.

(** [s'] extends [s]: the storages of [s] are all there, unchanged. *)
Definition ext (s s' : State) : Prop :=
  length (heap s) <= length (heap s')
  /\ forall l, l < length (heap s) -> heap s' !! l = heap s !! l.

(** Total correctness: the run returns and its result satisfies [Q]. *)
Definition wp {A} (m : M A) (st : State) (Q : A -> State -> Prop) : Prop :=
  match m st with
  | (Ok a, st') => Q a st'
  | (Raise _, _) => False
  end.

(** What a newly allocated object [h] holding [v] brings. *)
Definition new_obj (st st' : State) (h : handle) (v : Tensor) : Prop :=
  ext st st' /\ read st' h = Some v /\ length (heap st) <= stor h
  /\ path h = [] /\ strides h = contiguous_strides (shape v).

(** Frame: whatever the outcome of the run, the storages of [s0] are
    unchanged, and a returned result satisfies [Q]. *)
Definition safe {A} (s0 : State) (m : M A) (Q : A -> Prop) : Prop :=
  forall st, ext s0 st ->
    ext s0 (m st).2 /\ match (m st).1 with Ok a => Q a | Raise _ => True end.

(** An object that owns a storage allocated after [s0]. *)
Definition owned (s0 : State) (h : handle) : Prop :=
  length (heap s0) <= stor h /\ path h = [].

(** An object that reads a storage allocated after [s0]. *)
Definition later (s0 : State) (h : handle) : Prop :=
  length (heap s0) <= stor h.

(** The value of an optional tensor argument. *)
Definition read_opt (st : State) (o : option handle) : option (option Tensor) :=
  match o with
  | Some h => Some <$> read st h
  | None => Some None
  end.

(** An optional mask can be broadcast to the sizes [s]. *)
Definition mask_fits (s : list nat) (mask : option Tensor) : Prop :=
  match mask with
  | Some m => broadcast_shapes s (shape m) = Some s
  | None => True
  end.

(** The layer list held by an encoder. *)
Definition layers_of (self : Obj) : list Obj :=
  match self with
  | OModule _ attrs =>
      match assoc "enc_layer_stack" attrs with
      | Some (OList l) => l
      | _ => []
      end
  | _ => []
  end.

(** [ws] lists, in order, the attention weights returned by applying the
    layers one after the other to the running hidden state, from [x] in
    state [st] to [xn] in state [stn]. *)
Inductive encoder_chain (mask : option handle)
  : list Obj -> handle -> State -> list Obj -> handle -> State -> Prop :=
| chain_nil x st : encoder_chain mask [] x st [] x st
| chain_cons layer rest x st x1 w1 st1 ws xn stn :
    run (EncoderLayer_call layer [OTensor x; of_opt_tensor mask] []) st
    = (Ok (x1, w1), st1) ->
    encoder_chain mask rest x1 st1 ws xn stn ->
    encoder_chain mask (layer :: rest) x st (OTensor w1 :: ws) xn stn.

(** An object is a tensor of sizes [s] in state [st]. *)
Definition tensor_of_shape (st : State) (s : list nat) (o : Obj) : Prop :=
  exists h v, o = OTensor h /\ read st h = Some v /\ shape v = s.

(** The run raises, whatever the state. *)
Definition always_raises {A} (m : M A) : Prop :=
  forall st, exists e st', run m st = (Raise e, st').

(** The outcome of the run, returned or raised, and its final state
    satisfy [Q]. *)
Definition outcome {A} (m : M A) (st : State) (Q : Result A -> State -> Prop) : Prop :=
  Q (m st).1 (m st).2.

(** A dropout probability [nn.Dropout] accepts. *)
Definition probability (p : Q) : Prop := (0 <= p)%Q /\ (p <= 1)%Q.

(** A module put in evaluation mode. *)
Definition in_eval (o : Obj) : Prop := exists o', o = Module_train false o'.

(** The run draws no dropout mask, and a returned result satisfies [Q]. *)
Definition calm {A} (m : M A) (Q : A -> Prop) : Prop :=
  forall st, tick (m st).2 = tick st
             /\ match (m st).1 with Ok a => Q a | Raise _ => True end.

(** Two computations that run alike from every state. *)
Definition same_run {A} (m m' : M A) : Prop := forall st, m st = m' st.



End Logic.
Export Logic.

(** * Verified properties *)

(** ** Runs: extension, reads, total correctness, frame *)

Section RunFacts.

Import Torch.

Lemma ext_refl s : ext s s.
Proof. split; auto. Qed.

Lemma ext_trans s1 s2 s3 : ext s1 s2 -> ext s2 s3 -> ext s1 s3.
Proof.
  intros [L1 E1] [L2 E2]. split; [lia|].
  intros l Hl. rewrite E2 by lia. auto.
Qed.

Lemma ext_alloc s t : ext s (alloc s t).
Proof.
  split; simpl.
  - rewrite length_app. lia.
  - intros l Hl. apply lookup_app_l. exact Hl.
Qed.

Lemma ext_tick s n : ext s (mkState (heap s) n (rng s)).
Proof. split; auto. Qed.

Lemma read_valid s h v : read s h = Some v -> stor h < length (heap s).
Proof.
  unfold read. intros H. destruct (heap s !! stor h) eqn:E; [|discriminate].
  eapply lookup_lt_Some; eauto.
Qed.

Lemma read_ext s s' h v : ext s s' -> read s h = Some v -> read s' h = Some v.
Proof.
  intros [_ E] H. pose proof (read_valid _ _ _ H) as Hl.
  unfold read in *. rewrite E by exact Hl. exact H.
Qed.

Lemma read_alloc_new s t str rg :
  read (alloc s t) (mkHandle (length (heap s)) [] str rg) = Some t.
Proof.
  unfold read, alloc; simpl.
  rewrite lookup_app_r by lia. rewrite Nat.sub_diag. reflexivity.
Qed.

Lemma get_path_app p1 p2 t : get_path (p1 ++ p2) t = get_path p2 (get_path p1 t).
Proof. revert t. induction p1; simpl; auto. Qed.

Lemma read_view s h v op str rg :
  read s h = Some v ->
  read s (mkHandle (stor h) (path h ++ [op]) str rg) = Some (get_op op v).
Proof.
  unfold read; simpl. destruct (heap s !! stor h); simpl; [|discriminate].
  intros [= <-]. rewrite get_path_app. reflexivity.
Qed.

Lemma read_same_view s h v str rg :
  read s h = Some v -> read s (mkHandle (stor h) (path h) str rg) = Some v.
Proof. unfold read; simpl. auto. Qed.

Lemma wp_run {A} (m : M A) st Q :
  wp m st Q <-> exists a st', run m st = (Ok a, st') /\ Q a st'.
Proof.
  unfold wp, run. destruct (m st) as [[a|e] st']; split.
  - intros H. eauto.
  - intros (a' & s' & [= <- <-] & H). exact H.
  - intros [].
  - intros (a' & s' & [=] & _).
Qed.

Lemma wp_mono {A} (m : M A) st (Q Q' : A -> State -> Prop) :
  wp m st Q -> (forall a s, Q a s -> Q' a s) -> wp m st Q'.
Proof. unfold wp. destruct (m st) as [[a|e] s]; auto. Qed.

Lemma wp_bind {A B} (m : M A) (k : A -> M B) st Q :
  wp m st (fun a s => wp (k a) s Q) -> wp (bind m k) st Q.
Proof. unfold wp, bind. destruct (m st) as [[a|e] s]; auto. Qed.

Lemma wp_ret {A} (a : A) st (Q : A -> State -> Prop) : Q a st -> wp (ret a) st Q.
Proof. auto. Qed.

Lemma wp_lift {A} (r : Result A) a st (Q : A -> State -> Prop) :
  r = Ok a -> Q a st -> wp (lift r) st Q.
Proof. intros ->. auto. Qed.

Lemma wp_value h v st (Q : Tensor -> State -> Prop) :
  read st h = Some v -> Q v st -> wp (value h) st Q.
Proof. unfold wp, value. intros ->. auto. Qed.

Lemma wp_fresh t rg st (Q : handle -> State -> Prop) :
  (forall h st', new_obj st st' h t -> requires_grad h = rg -> Q h st') ->
  wp (fresh t rg) st Q.
Proof.
  intros H. unfold wp, fresh. apply H; [|reflexivity].
  split; [apply ext_alloc|]. split; [apply read_alloc_new|]. simpl. auto.
Qed.

Lemma wp_size t d v n st (Q : nat -> State -> Prop) :
  read st t = Some v -> shape v !! d = Some n -> Q n st -> wp (size t d) st Q.
Proof.
  intros Hr Hs HQ. unfold size. apply wp_bind. eapply wp_value; eauto.
  rewrite Hs. apply wp_ret. exact HQ.
Qed.

(** In-place addition into an object that owns its storage. *)
Lemma wp_iadd a b va vb r st (Q : handle -> State -> Prop) :
  read st a = Some va -> read st b = Some vb -> iadd_v va vb = Ok r ->
  path a = [] ->
  (forall h st',
      read st' h = Some r -> stor h = stor a -> path h = [] ->
      (forall h' v, stor h' <> stor a -> read st h' = Some v -> read st' h' = Some v) ->
      (forall s0, ext s0 st -> length (heap s0) <= stor a -> ext s0 st') ->
      Q h st') ->
  wp (iadd a b) st Q.
Proof.
  intros Ha Hb Hr Hp H. unfold iadd.
  apply wp_bind. eapply wp_value; eauto.
  apply wp_bind. eapply wp_value; eauto.
  apply wp_bind. eapply wp_lift; eauto.
  pose proof (read_valid _ _ _ Ha) as Hl.
  unfold wp, bind, write.
  destruct (heap st !! stor a) as [base|] eqn:E.
  2:{ apply lookup_ge_None in E. lia. }
  simpl. apply H; simpl; auto.
  - unfold read; simpl. rewrite Hp. rewrite list_lookup_insert_eq by exact Hl.
    reflexivity.
  - intros h' v Hne Hv. unfold read in *; simpl.
    rewrite list_lookup_insert_ne by congruence. exact Hv.
  - intros s0 [L0 E0] Hfresh. split; simpl.
    + rewrite length_insert. exact L0.
    + intros l Hl0. rewrite list_lookup_insert_ne by lia. auto.
Qed.

Lemma safe_bind {A B} s0 (m : M A) (k : A -> M B) (Q : A -> Prop) (Q' : B -> Prop) :
  safe s0 m Q -> (forall a, Q a -> safe s0 (k a) Q') -> safe s0 (bind m k) Q'.
Proof.
  intros Hm Hk st Hst. unfold bind.
  destruct (Hm st Hst) as [E1 H1]. destruct (m st) as [[a|e] s1]; simpl in *.
  - apply Hk; auto.
  - auto.
Qed.

Lemma safe_ret {A} s0 (a : A) (Q : A -> Prop) : Q a -> safe s0 (ret a) Q.
Proof. intros H st Hst. simpl. auto. Qed.

Lemma safe_raise {A} s0 e (Q : A -> Prop) : safe s0 (raise e) Q.
Proof. intros st Hst. simpl. auto. Qed.

Lemma safe_lift {A} s0 (r : Result A) : safe s0 (lift r) (fun _ => True).
Proof. intros st Hst. simpl. split; auto. destruct r; auto. Qed.

Lemma safe_weaken {A} s0 (m : M A) (Q Q' : A -> Prop) :
  safe s0 m Q -> (forall a, Q a -> Q' a) -> safe s0 m Q'.
Proof.
  intros H HQ st Hst. destruct (H st Hst) as [E R]. split; auto.
  destruct (m st).1; auto.
Qed.

Lemma safe_value s0 h : safe s0 (value h) (fun _ => True).
Proof.
  intros st Hst. unfold value. destruct (read st h); simpl; auto.
Qed.

Lemma safe_fresh s0 t rg : safe s0 (fresh t rg) (owned s0).
Proof.
  intros st Hst. unfold fresh; simpl. split.
  - eapply ext_trans; [exact Hst | apply ext_alloc].
  - split; simpl; auto. destruct Hst. lia.
Qed.

Lemma safe_write s0 h t : later s0 h -> safe s0 (write h t) (fun _ => True).
Proof.
  intros Hl st [L E]. unfold write. destruct (heap st !! stor h); simpl.
  - split; auto. split; simpl.
    + rewrite length_insert. exact L.
    + intros l Hl0. rewrite list_lookup_insert_ne by (unfold later in Hl; lia). auto.
  - split; auto. split; auto.
Qed.

Lemma safe_next_mask s0 : safe s0 next_mask (fun _ => True).
Proof. intros st [L E]. unfold next_mask; simpl. split; auto. split; auto. Qed.

End RunFacts.

(** ** Runs of the torch primitives *)

Ltac wp_step :=
  lazymatch goal with
  | |- wp (bind _ _) _ _ => apply wp_bind
  | |- wp (ret _) _ _ => apply wp_ret
  | |- wp (Torch.value _) _ _ => eapply wp_value; [eassumption|]
  | |- wp (lift _) _ _ => eapply wp_lift; [eassumption|]
  | |- wp (Torch.fresh _ _) _ _ => apply wp_fresh
  end.

Section TorchFacts.

Import Torch.

Lemma wp_Linear L x vx r st (Q : handle -> State -> Prop) :
  read st x = Some vx -> linear_v L vx = Ok r ->
  (forall h st', new_obj st st' h r -> Q h st') ->
  wp (Linear_forward L x) st Q.
Proof.
  intros Hx Hr H. unfold Linear_forward. repeat wp_step. intros; eauto.
Qed.

Lemma wp_LayerNorm N x vx r st (Q : handle -> State -> Prop) :
  read st x = Some vx -> layer_norm_v N vx = Ok r ->
  (forall h st', new_obj st st' h r -> Q h st') ->
  wp (LayerNorm_forward N x) st Q.
Proof.
  intros Hx Hr H. unfold LayerNorm_forward. repeat wp_step. intros; eauto.
Qed.

Lemma wp_relu x vx st (Q : handle -> State -> Prop) :
  read st x = Some vx ->
  (forall h st', new_obj st st' h (relu_v vx) -> Q h st') ->
  wp (relu x) st Q.
Proof.
  intros Hx H. unfold relu. repeat wp_step. intros; eauto.
Qed.

Lemma wp_softmax x vx st (Q : handle -> State -> Prop) :
  read st x = Some vx ->
  (forall h st', new_obj st st' h (softmax_v vx) -> Q h st') ->
  wp (softmax x) st Q.
Proof.
  intros Hx H. unfold softmax. repeat wp_step. intros; eauto.
Qed.

Lemma wp_div x c vx st (Q : handle -> State -> Prop) :
  read st x = Some vx ->
  (forall h st', new_obj st st' h (div_scalar_v vx c) -> Q h st') ->
  wp (div x c) st Q.
Proof.
  intros Hx H. unfold div. repeat wp_step. intros; eauto.
Qed.

Lemma wp_eq x c vx st (Q : handle -> State -> Prop) :
  read st x = Some vx ->
  (forall h st', new_obj st st' h (eq_scalar_v vx c) -> Q h st') ->
  wp (eq x c) st Q.
Proof.
  intros Hx H. unfold eq. repeat wp_step. intros; eauto.
Qed.

Lemma wp_matmul a b va vb r st (Q : handle -> State -> Prop) :
  read st a = Some va -> read st b = Some vb -> matmul_v va vb = Ok r ->
  (forall h st', new_obj st st' h r -> Q h st') ->
  wp (matmul a b) st Q.
Proof.
  intros Ha Hb Hr H. unfold matmul. repeat wp_step. intros; eauto.
Qed.

Lemma wp_masked_fill t m c vt vm r st (Q : handle -> State -> Prop) :
  read st t = Some vt -> read st m = Some vm -> masked_fill_v vt vm c = Ok r ->
  (forall h st', new_obj st st' h r -> Q h st') ->
  wp (masked_fill t m c) st Q.
Proof.
  intros Ha Hb Hr H. unfold masked_fill. repeat wp_step. intros; eauto.
Qed.

Lemma wp_add a b va vb r st (Q : handle -> State -> Prop) :
  read st a = Some va -> read st b = Some vb -> add_v va vb = Ok r ->
  (forall h st', new_obj st st' h r ->
                 requires_grad h = requires_grad a || requires_grad b -> Q h st') ->
  wp (add a b) st Q.
Proof.
  intros Ha Hb Hr H. unfold add. repeat wp_step. intros; eauto.
Qed.

Lemma wp_clone x vx st (Q : handle -> State -> Prop) :
  read st x = Some vx ->
  (forall h st', new_obj st st' h vx -> requires_grad h = requires_grad x -> Q h st') ->
  wp (clone x) st Q.
Proof.
  intros Hx H. unfold clone. repeat wp_step. intros; eauto.
Qed.

Lemma wp_detach x vx st (Q : handle -> State -> Prop) :
  read st x = Some vx ->
  (forall h, read st h = Some vx -> requires_grad h = false -> stor h = stor x ->
             Q h st) ->
  wp (detach x) st Q.
Proof.
  intros Hx H. unfold detach. wp_step. apply H; auto using read_same_view.
Qed.

Lemma wp_transpose x d1 d2 vx st (Q : handle -> State -> Prop) :
  read st x = Some vx -> d1 < rank vx -> d2 < rank vx ->
  (forall h, read st h = Some (transpose_v d1 d2 vx) -> stor h = stor x ->
             requires_grad h = requires_grad x -> Q h st) ->
  wp (transpose x d1 d2) st Q.
Proof.
  intros Hx H1 H2 H. unfold transpose. repeat wp_step.
  apply Nat.ltb_lt in H1, H2. rewrite H1, H2. simpl. wp_step.
  apply H; auto. exact (read_view _ _ _ (VTranspose d1 d2) _ _ Hx).
Qed.

Lemma wp_unsqueeze x d vx st (Q : handle -> State -> Prop) :
  read st x = Some vx -> d <= rank vx ->
  (forall h, read st h = Some (unsqueeze_v d vx) -> stor h = stor x ->
             requires_grad h = requires_grad x -> Q h st) ->
  wp (unsqueeze x d) st Q.
Proof.
  intros Hx H1 H. unfold unsqueeze. repeat wp_step.
  apply Nat.leb_le in H1. rewrite H1. wp_step.
  apply H; auto. exact (read_view _ _ _ (VUnsqueeze d) _ _ Hx).
Qed.

Lemma wp_narrow1 x n vx st (Q : handle -> State -> Prop) :
  read st x = Some vx -> 2 <= rank vx ->
  (forall h, read st h = Some (narrow1_v n vx) -> stor h = stor x ->
             requires_grad h = requires_grad x -> Q h st) ->
  wp (narrow1 x n) st Q.
Proof.
  intros Hx H1 H. unfold narrow1. repeat wp_step.
  apply Nat.leb_le in H1. rewrite H1. wp_step.
  apply H; auto. exact (read_view _ _ _ (VNarrow1 n) _ _ Hx).
Qed.

Lemma numel_of_app s1 s2 : numel_of (s1 ++ s2) = numel_of s1 * numel_of s2.
Proof. induction s1; simpl; [lia|]. rewrite IHs1. lia. Qed.

Lemma contiguous_strides_snoc s d :
  d <> 0 ->
  contiguous_strides (s ++ [d]) = ((fun k => k * d) <$> contiguous_strides s) ++ [1].
Proof.
  intros Hd. induction s as [|a s IH]; simpl; [reflexivity|].
  rewrite IH. f_equal. rewrite fmap_app, numel_of_app. simpl.
  replace (Nat.max 1 d) with d by lia. lia.
Qed.

Lemma is_contiguous_rev_strides s z :
  numel_of s <> 0 ->
  is_contiguous_rev (rev s) (rev ((fun k => k * z) <$> contiguous_strides s)) z = true.
Proof.
  revert z. induction s as [|d s IH] using rev_ind; intros z Hn; [reflexivity|].
  rewrite numel_of_app in Hn. simpl in Hn.
  assert (Hd : d <> 0) by lia. assert (Hs : numel_of s <> 0) by lia.
  rewrite contiguous_strides_snoc by exact Hd.
  rewrite rev_app_distr, fmap_app, rev_app_distr. simpl.
  rewrite <- list_fmap_compose.
  destruct (d =? 1) eqn:E1.
  - apply Nat.eqb_eq in E1. subst d.
    erewrite list_fmap_ext; [apply IH; auto|]. intros; simpl; lia.
  - replace (z + 0 =? z) with true by (symmetry; apply Nat.eqb_eq; lia). simpl.
    erewrite list_fmap_ext; [apply (IH (z * d)); auto|]. intros; simpl; lia.
Qed.

Lemma is_contiguous_strides s : is_contiguous s (contiguous_strides s) = true.
Proof.
  unfold is_contiguous. destruct (numel_of s =? 0) eqn:E0; [reflexivity|]. simpl.
  apply Nat.eqb_neq in E0.
  pose proof (is_contiguous_rev_strides s 1 E0) as G.
  erewrite list_fmap_ext in G; [rewrite list_fmap_id in G; exact G|].
  intros; simpl; lia.
Qed.

(** The result of [contiguous()] reads the same value and is contiguous. *)
Lemma wp_contiguous x vx st (Q : handle -> State -> Prop) :
  read st x = Some vx ->
  (forall h st', ext st st' -> read st' h = Some vx ->
                 is_contiguous (shape vx) (strides h) = true -> Q h st') ->
  wp (contiguous x) st Q.
Proof.
  intros Hx H. unfold contiguous. repeat wp_step.
  destruct (is_contiguous (shape vx) (strides x)) eqn:E.
  - wp_step. apply H; auto. apply ext_refl.
  - wp_step. intros h st' (He & Hr & _ & _ & Hs) _. apply H; auto.
    rewrite Hs. apply is_contiguous_strides.
Qed.

Lemma wp_view x dims vx s st (Q : handle -> State -> Prop) :
  read st x = Some vx -> infer_size dims (numel vx) = Ok s ->
  is_contiguous (shape vx) (strides x) = true ->
  (forall h, read st h = Some (view_v s vx) -> stor h = stor x ->
             strides h = contiguous_strides s -> Q h st) ->
  wp (view x dims) st Q.
Proof.
  intros Hx Hs Hc H. unfold view. repeat wp_step. rewrite Hc. wp_step.
  apply H; auto. exact (read_view _ _ _ (VView s) _ _ Hx).
Qed.

Lemma wp_Dropout d x vx st (Q : handle -> State -> Prop) :
  read st x = Some vx ->
  (forall h st' keep,
      ext st st' -> read st' h = Some (dropout_t d keep vx) ->
      (forall s0, ext s0 st -> owned s0 x -> owned s0 h) ->
      Q h st') ->
  wp (Dropout_forward d x) st Q.
Proof.
  intros Hx H. unfold Dropout_forward. repeat wp_step.
  destruct (negb (training d) || Qeq_bool (p d) 0 || (numel vx =? 0)) eqn:E1.
  - wp_step. apply (H x st (fun _ => true)); auto using ext_refl.
    unfold dropout_t. rewrite E1. exact Hx.
  - destruct (Qeq_bool (p d) 1) eqn:E2.
    + wp_step. intros h st' (He & Hr & Hl & Hp & _) _.
      apply (H h st' (fun _ => true)); auto.
      * unfold dropout_t. rewrite E1, E2. exact Hr.
      * intros s0 [L0 _] _. split; [lia|exact Hp].
    + apply wp_bind. unfold wp at 1, next_mask.
      wp_step. intros h st' (He & Hr & Hl & Hp & _) _.
      apply (H h st' (rng st (tick st))).
      * eapply ext_trans; [apply (ext_tick st (S (tick st)))|exact He].
      * unfold dropout_t. rewrite E1, E2. exact Hr.
      * intros s0 [L0 _] _. simpl in Hl. split; [lia|exact Hp].
Qed.

End TorchFacts.

Lemma wp_getattr c attrs name v st (Q : Obj -> State -> Prop) :
  assoc name attrs = Some v -> Q v st -> wp (getattr (OModule c attrs) name) st Q.
Proof. intros E H. unfold getattr. rewrite E. exact H. Qed.

Ltac wp_attr :=
  lazymatch goal with
  | |- wp (bind (getattr (OModule _ _) _) _) _ _ =>
      apply wp_bind; eapply wp_getattr; [reflexivity|]
  | |- wp (bind (bind (getattr (OModule _ _) _) _) _) _ _ =>
      apply wp_bind; apply wp_bind; eapply wp_getattr; [reflexivity|];
      cbn [as_int as_float as_tensor as_list]; apply wp_ret
  end;
  cbn [call_Linear call_LayerNorm call_Dropout].


Section ShapeFacts.

Lemma broadcast_rev_same r : broadcast_rev r r = Some r.
Proof.
  induction r as [|a r IH]; simpl; [reflexivity|].
  rewrite Nat.eqb_refl, IH. reflexivity.
Qed.

Lemma broadcast_shapes_same s : broadcast_shapes s s = Some s.
Proof.
  unfold broadcast_shapes. rewrite broadcast_rev_same. simpl.
  rewrite rev_involutive. reflexivity.
Qed.

Lemma iadd_v_same a b : shape b = shape a -> iadd_v a b = Ok (iadd_t a b).
Proof.
  intros E. unfold iadd_v. rewrite E, broadcast_shapes_same.
  destruct (decide (shape a = shape a)); [reflexivity|contradiction].
Qed.

Lemma last_of_snoc s d : last_of (s ++ [d]) = d.
Proof. unfold last_of. apply last_last. Qed.

Lemma linear_v_ok L t s :
  shape t = s ++ [in_features L] -> linear_v L t = Ok (linear_t L t).
Proof.
  intros E. unfold linear_v. rewrite E, last_of_snoc, Nat.eqb_refl.
  destruct s; reflexivity.
Qed.

Lemma linear_t_shape L t s d :
  shape t = s ++ [d] -> shape (linear_t L t) = s ++ [out_features L].
Proof. intros E. simpl. rewrite E, removelast_last. reflexivity. Qed.

Lemma layer_norm_v_ok N t s :
  shape t = s ++ [normalized_shape N] -> layer_norm_v N t = Ok (layer_norm_t N t).
Proof.
  intros E. unfold layer_norm_v. rewrite E, last_of_snoc, Nat.eqb_refl.
  destruct s; reflexivity.
Qed.

Lemma dropout_t_shape d keep t : shape (dropout_t d keep t) = shape t.
Proof.
  unfold dropout_t.
  destruct (negb (training d) || Qeq_bool (p d) 0 || (numel t =? 0)); [reflexivity|].
  destruct (Qeq_bool (p d) 1); reflexivity.
Qed.

Lemma PositionWiseFeedForward_init_inv sd d_in d_hid dropout self :
  PositionWiseFeedForward_init sd d_in d_hid dropout = Ok self ->
  self = OModule "PositionWiseFeedForward"
           [("linear_1", OLinear (nn_Linear (sub_dict sd "linear_1") d_in d_hid true));
            ("linear_2", OLinear (nn_Linear (sub_dict sd "linear_2") d_hid d_in true));
            ("layer_norm", OLayerNorm (nn_LayerNorm (sub_dict sd "layer_norm") d_in 1e-6));
            ("dropout", ODropout (mkDropout dropout true))].
Proof.
  unfold PositionWiseFeedForward_init, nn_Dropout.
  destruct (Qle_bool 0 dropout && Qle_bool dropout 1); simpl; [|discriminate].
  intros [= <-]. reflexivity.
Qed.

End ShapeFacts.

(** ** Frame of the torch primitives and of the forward passes *)

Section FrameFacts.

Import Torch.

Variable s0 : State.

Lemma safe_true {A} (m : M A) (Q : A -> Prop) :
  safe s0 m Q -> safe s0 m (fun _ => True).
Proof. intros H. eapply safe_weaken; eauto. Qed.

Lemma owned_later h : owned s0 h -> later s0 h.
Proof. intros [H _]. exact H. Qed.

(** A run that reads its operands and allocates its result. *)
Lemma safe_alloc1 {A} (x : handle) (f : Tensor -> Result A) (g : A -> Tensor) rg :
  safe s0 (v <- value x ;; r <- lift (f v) ;; fresh (g r) rg) (later s0).
Proof.
  eapply safe_bind; [apply safe_value|]. intros v _.
  eapply safe_bind; [apply safe_lift|]. intros r _.
  eapply safe_weaken; [apply safe_fresh | apply owned_later].
Qed.

Lemma safe_alloc2 (a b : handle) (f : Tensor -> Tensor -> Result Tensor) rg :
  safe s0 (va <- value a ;; vb <- value b ;; r <- lift (f va vb) ;; fresh r rg)
       (later s0).
Proof.
  eapply safe_bind; [apply safe_value|]. intros va _.
  eapply safe_bind; [apply safe_value|]. intros vb _.
  eapply safe_bind; [apply safe_lift|]. intros r _.
  eapply safe_weaken; [apply safe_fresh | apply owned_later].
Qed.

Lemma safe_alloc0 (x : handle) (f : Tensor -> Tensor) rg :
  safe s0 (v <- value x ;; fresh (f v) rg) (later s0).
Proof.
  eapply safe_bind; [apply safe_value|]. intros v _.
  eapply safe_weaken; [apply safe_fresh | apply owned_later].
Qed.

Lemma safe_Linear L x : safe s0 (Linear_forward L x) (later s0).
Proof. apply (safe_alloc1 x (linear_v L) (fun r => r)). Qed.

Lemma safe_LayerNorm N x : safe s0 (LayerNorm_forward N x) (later s0).
Proof. apply (safe_alloc1 x (layer_norm_v N) (fun r => r)). Qed.

Lemma safe_relu x : safe s0 (relu x) (later s0).
Proof. apply safe_alloc0. Qed.

Lemma safe_softmax x : safe s0 (softmax x) (later s0).
Proof. apply safe_alloc0. Qed.

Lemma safe_div x c : safe s0 (div x c) (later s0).
Proof. apply (safe_alloc0 x (fun v => div_scalar_v v c)). Qed.

Lemma safe_eq x c : safe s0 (eq x c) (later s0).
Proof. apply (safe_alloc0 x (fun v => eq_scalar_v v c)). Qed.

Lemma safe_clone x : safe s0 (clone x) (later s0).
Proof. apply (safe_alloc0 x (fun v => v)). Qed.

Lemma safe_matmul a b : safe s0 (matmul a b) (later s0).
Proof. apply safe_alloc2. Qed.

Lemma safe_add a b : safe s0 (add a b) (later s0).
Proof. apply safe_alloc2. Qed.

Lemma safe_masked_fill t m c : safe s0 (masked_fill t m c) (later s0).
Proof. apply (safe_alloc2 t m (fun vt vm => masked_fill_v vt vm c)). Qed.

Lemma safe_size x d : safe s0 (size x d) (fun _ => True).
Proof.
  eapply safe_bind; [apply safe_value|]. intros v _.
  destruct (shape v !! d); [apply safe_ret; exact I | apply safe_raise].
Qed.

(** Views read the storage of their operand. *)
Lemma safe_transpose x d1 d2 :
  safe s0 (transpose x d1 d2) (fun h => later s0 x -> later s0 h).
Proof.
  eapply safe_bind; [apply safe_value|]. intros v _.
  destruct ((d1 <? rank v) && (d2 <? rank v)); [apply safe_ret; auto | apply safe_raise].
Qed.

Lemma safe_unsqueeze x d :
  safe s0 (unsqueeze x d) (fun h => later s0 x -> later s0 h).
Proof.
  eapply safe_bind; [apply safe_value|]. intros v _.
  destruct (d <=? rank v); [apply safe_ret; auto | apply safe_raise].
Qed.

Lemma safe_narrow1 x n :
  safe s0 (narrow1 x n) (fun h => later s0 x -> later s0 h).
Proof.
  eapply safe_bind; [apply safe_value|]. intros v _.
  destruct (2 <=? rank v); [apply safe_ret; auto | apply safe_raise].
Qed.

Lemma safe_view x dims :
  safe s0 (view x dims) (fun h => later s0 x -> later s0 h).
Proof.
  eapply safe_bind; [apply safe_value|]. intros v _.
  eapply safe_bind; [apply safe_lift|]. intros s _.
  destruct (is_contiguous (shape v) (strides x)); [apply safe_ret; auto | apply safe_raise].
Qed.

Lemma safe_detach x : safe s0 (detach x) (fun h => later s0 x -> later s0 h).
Proof. apply safe_ret. auto. Qed.

Lemma safe_contiguous x :
  safe s0 (contiguous x) (fun h => later s0 x -> later s0 h).
Proof.
  eapply safe_bind; [apply safe_value|]. intros v _.
  destruct (is_contiguous (shape v) (strides x)); [apply safe_ret; auto|].
  eapply safe_weaken; [apply safe_fresh|]. intros h [H _] _. exact H.
Qed.

Lemma safe_Dropout d x :
  safe s0 (Dropout_forward d x) (fun h => later s0 x -> later s0 h).
Proof.
  eapply safe_bind; [apply safe_value|]. intros v _.
  destruct (negb (training d) || Qeq_bool (p d) 0 || (numel v =? 0));
    [apply safe_ret; auto|].
  destruct (Qeq_bool (p d) 1).
  - eapply safe_weaken; [apply safe_fresh|]. intros h [H _] _. exact H.
  - eapply safe_bind; [apply safe_next_mask|]. intros keep _.
    eapply safe_weaken; [apply safe_fresh|]. intros h [H _] _. exact H.
Qed.

(** [a += b] writes the storage of [a] only. *)
Lemma safe_iadd a b :
  later s0 a -> safe s0 (iadd a b) (fun h => later s0 h).
Proof.
  intros Ha.
  eapply safe_bind; [apply safe_value|]. intros va _.
  eapply safe_bind; [apply safe_value|]. intros vb _.
  eapply safe_bind; [apply safe_lift|]. intros r _.
  eapply safe_bind; [apply safe_write; exact Ha|]. intros _ _.
  apply safe_ret. exact Ha.
Qed.

(** *** Python-level steps *)

Lemma safe_getattr o name : safe s0 (getattr o name) (fun _ => True).
Proof.
  destruct o; simpl; try apply safe_raise.
  destruct (assoc name attrs); [apply safe_ret; exact I | apply safe_raise].
Qed.

Lemma safe_as_tensor o : safe s0 (as_tensor o) (fun _ => True).
Proof. destruct o; simpl; (apply safe_raise || (apply safe_ret; exact I)). Qed.

Lemma safe_as_opt_tensor o : safe s0 (as_opt_tensor o) (fun _ => True).
Proof. destruct o; simpl; (apply safe_raise || (apply safe_ret; exact I)). Qed.

Lemma safe_as_int o : safe s0 (as_int o) (fun _ => True).
Proof. destruct o; simpl; (apply safe_raise || (apply safe_ret; exact I)). Qed.

Lemma safe_as_float o : safe s0 (as_float o) (fun _ => True).
Proof. destruct o; simpl; (apply safe_raise || (apply safe_ret; exact I)). Qed.

Lemma safe_as_list o : safe s0 (as_list o) (fun _ => True).
Proof. destruct o; simpl; (apply safe_raise || (apply safe_ret; exact I)). Qed.

Lemma safe_call_Linear o x : safe s0 (call_Linear o x) (later s0).
Proof. destruct o; simpl; try apply safe_raise. apply safe_Linear. Qed.

Lemma safe_call_LayerNorm o x : safe s0 (call_LayerNorm o x) (later s0).
Proof. destruct o; simpl; try apply safe_raise. apply safe_LayerNorm. Qed.

Lemma safe_call_Dropout o x :
  safe s0 (call_Dropout o x) (fun h => later s0 x -> later s0 h).
Proof. destruct o; simpl; try apply safe_raise. apply safe_Dropout. Qed.

End FrameFacts.

Ltac safe_prim :=
  lazymatch goal with
  | |- safe _ (raise _) _ => apply safe_raise
  | |- safe _ (ret _) _ => apply safe_ret; first [exact I | assumption | auto]
  | |- safe _ (lift _) _ => apply safe_lift
  | |- safe _ (call_Linear _ _) _ => apply safe_call_Linear
  | |- safe _ (call_LayerNorm _ _) _ => apply safe_call_LayerNorm
  | |- safe _ (call_Dropout _ _) _ => apply safe_call_Dropout
  | |- safe _ (Torch.relu _) _ => apply safe_relu
  | |- safe _ (Torch.softmax _) _ => apply safe_softmax
  | |- safe _ (Torch.div _ _) _ => apply safe_div
  | |- safe _ (Torch.eq _ _) _ => apply safe_eq
  | |- safe _ (Torch.clone _) _ => apply safe_clone
  | |- safe _ (Torch.matmul _ _) _ => apply safe_matmul
  | |- safe _ (Torch.add _ _) _ => apply safe_add
  | |- safe _ (Torch.masked_fill _ _ _) _ => apply safe_masked_fill
  | |- safe _ (Torch.size _ _) _ => apply safe_size
  | |- safe _ (Torch.transpose _ _ _) _ => apply safe_transpose
  | |- safe _ (Torch.unsqueeze _ _) _ => apply safe_unsqueeze
  | |- safe _ (Torch.narrow1 _ _) _ => apply safe_narrow1
  | |- safe _ (Torch.view _ _) _ => apply safe_view
  | |- safe _ (Torch.detach _) _ => apply safe_detach
  | |- safe _ (Torch.contiguous _) _ => apply safe_contiguous
  | |- safe _ (Torch.iadd _ _) _ => apply safe_iadd; solve [auto]
  | |- safe _ (getattr _ _) _ => apply safe_getattr
  | |- safe _ (as_tensor _) _ => apply safe_as_tensor
  | |- safe _ (as_opt_tensor _) _ => apply safe_as_opt_tensor
  | |- safe _ (as_int _) _ => apply safe_as_int
  | |- safe _ (as_float _) _ => apply safe_as_float
  | |- safe _ (as_list _) _ => apply safe_as_list
  end.

Ltac safe_go :=
  repeat (lazymatch goal with |- safe _ (bind _ _) _ => idtac end;
          eapply safe_bind;
          [first [safe_prim | eapply safe_true; safe_prim]
          | let H := fresh "H" in intros ? H; cbv beta in H]).

Section ForwardFrames.

Variable s0 : State.

Lemma safe_SDPA_forward self q k v attn_mask :
  safe s0 (ScaledDotProductAttention_forward self q k v attn_mask) (fun _ => True).
Proof.
  unfold ScaledDotProductAttention_forward.
  eapply safe_bind.
  { eapply safe_bind; [apply safe_getattr|]. intros; apply safe_as_float. }
  intros temperature _. safe_go.
  eapply (safe_bind _ _ _ (fun _ => True)).
  { destruct attn_mask as [m|]; [|apply safe_ret; exact I].
    eapply safe_true. safe_go. safe_prim. }
  intros ? _. safe_go. safe_prim.
Qed.

Lemma safe_SDPA_call self args kwargs :
  safe s0 (ScaledDotProductAttention_call self args kwargs) (fun _ => True).
Proof.
  unfold ScaledDotProductAttention_call.
  destruct (is_instance self "ScaledDotProductAttention"); [|apply safe_raise].
  safe_go. apply safe_SDPA_forward.
Qed.

Lemma safe_MHA_forward self q k v attn_mask :
  safe s0 (MultiHeadAttention_forward self q k v attn_mask) (fun _ => True).
Proof.
  unfold MultiHeadAttention_forward.
  do 3 (safe_go;
        eapply (safe_bind _ _ _ (fun _ => True));
        [eapply safe_bind; [apply safe_getattr|]; intros; apply safe_as_int|];
        intros ? _;
        eapply (safe_bind _ _ _ (fun _ => True));
        [eapply safe_bind; [apply safe_getattr|]; intros; apply safe_as_int|];
        intros ? _).
  safe_go.
  eapply (safe_bind _ _ _ (fun _ => True)).
  { destruct attn_mask as [m|]; [|apply safe_ret; exact I].
    eapply safe_bind; [apply safe_unsqueeze|]. intros; apply safe_ret; exact I. }
  intros mask' _. safe_go.
  eapply safe_bind; [apply safe_SDPA_call|]. intros [v' w] _. safe_go.
  apply safe_ret. exact I.
Qed.

Lemma safe_MHA_call self args kwargs :
  safe s0 (MultiHeadAttention_call self args kwargs) (fun _ => True).
Proof.
  unfold MultiHeadAttention_call.
  destruct (is_instance self "MultiHeadAttention"); [|apply safe_raise].
  safe_go. apply safe_MHA_forward.
Qed.

Lemma safe_PWFF_forward self x :
  safe s0 (PositionWiseFeedForward_forward self x) (fun _ => True).
Proof.
  unfold PositionWiseFeedForward_forward. safe_go. apply safe_ret. exact I.
Qed.

Lemma safe_PWFF_call self args kwargs :
  safe s0 (PositionWiseFeedForward_call self args kwargs) (fun _ => True).
Proof.
  unfold PositionWiseFeedForward_call.
  destruct (is_instance self "PositionWiseFeedForward"); [|apply safe_raise].
  safe_go. apply safe_PWFF_forward.
Qed.

Lemma safe_EncoderLayer_forward self enc_input src_mask :
  safe s0 (EncoderLayer_forward self enc_input src_mask) (fun _ => True).
Proof.
  unfold EncoderLayer_forward. safe_go.
  eapply safe_bind; [apply safe_MHA_call|]. intros [o w] _. safe_go.
  eapply safe_bind; [apply safe_PWFF_call|]. intros o' _.
  apply safe_ret. exact I.
Qed.

Lemma safe_EncoderLayer_call self args kwargs :
  safe s0 (EncoderLayer_call self args kwargs) (fun _ => True).
Proof.
  unfold EncoderLayer_call.
  destruct (is_instance self "EncoderLayer"); [|apply safe_raise].
  safe_go. apply safe_EncoderLayer_forward.
Qed.

Lemma safe_DecoderLayer_forward self dec_input enc_output m1 m2 :
  safe s0 (DecoderLayer_forward self dec_input enc_output m1 m2) (fun _ => True).
Proof.
  unfold DecoderLayer_forward. safe_go.
  eapply safe_bind; [apply safe_MHA_call|]. intros [o w] _. safe_go.
  eapply safe_bind; [apply safe_MHA_call|]. intros [o1 w1] _. safe_go.
  eapply safe_bind; [apply safe_PWFF_call|]. intros o' _.
  apply safe_ret. exact I.
Qed.

Lemma safe_DecoderLayer_call self args kwargs :
  safe s0 (DecoderLayer_call self args kwargs) (fun _ => True).
Proof.
  unfold DecoderLayer_call.
  destruct (is_instance self "DecoderLayer"); [|apply safe_raise].
  safe_go. apply safe_DecoderLayer_forward.
Qed.

Lemma safe_PositionalEncoding_forward self x :
  safe s0 (PositionalEncoding_forward self x) (fun _ => True).
Proof.
  unfold PositionalEncoding_forward.
  eapply (safe_bind _ _ _ (fun _ => True)).
  { eapply safe_bind; [apply safe_getattr|]. intros; apply safe_as_tensor. }
  intros t _. safe_go. eapply safe_true. safe_prim.
Qed.

Lemma safe_PositionalEncoding_call self args kwargs :
  safe s0 (PositionalEncoding_call self args kwargs) (fun _ => True).
Proof.
  unfold PositionalEncoding_call.
  destruct (is_instance self "PositionalEncoding"); [|apply safe_raise].
  safe_go. apply safe_PositionalEncoding_forward.
Qed.

Lemma safe_Encoder_loop layers src_mask enc_output collector :
  safe s0 (Encoder_loop layers src_mask enc_output collector) (fun _ => True).
Proof.
  revert enc_output collector.
  induction layers as [|layer rest IH]; intros; simpl.
  - apply safe_ret. exact I.
  - eapply safe_bind; [apply safe_EncoderLayer_call|]. intros [o w] _. apply IH.
Qed.

Lemma safe_Encoder_forward self x src_mask flag :
  safe s0 (Encoder_forward self x src_mask flag) (fun _ => True).
Proof.
  unfold Encoder_forward. safe_go.
  eapply safe_bind; [apply safe_PositionalEncoding_call|]. intros x' _. safe_go.
  eapply (safe_bind _ _ _ (fun _ => True)).
  { eapply safe_bind; [apply safe_getattr|]. intros; apply safe_as_list. }
  intros stack _.
  eapply safe_bind; [apply safe_Encoder_loop|]. intros [o c] _.
  destruct flag; apply safe_ret; exact I.
Qed.

Lemma safe_Decoder_loop layers enc_output m1 m2 dec_output c1 c2 :
  safe s0 (Decoder_loop layers enc_output m1 m2 dec_output c1 c2) (fun _ => True).
Proof.
  revert dec_output c1 c2.
  induction layers as [|layer rest IH]; intros; simpl.
  - apply safe_ret. exact I.
  - eapply safe_bind; [apply safe_DecoderLayer_call|]. intros [[o w1] w2] _. apply IH.
Qed.

Lemma safe_Decoder_forward self trg enc_output m1 m2 flag :
  safe s0 (Decoder_forward self trg enc_output m1 m2 flag) (fun _ => True).
Proof.
  unfold Decoder_forward. safe_go.
  eapply safe_bind; [apply safe_PositionalEncoding_call|]. intros x' _. safe_go.
  eapply (safe_bind _ _ _ (fun _ => True)).
  { eapply safe_bind; [apply safe_getattr|]. intros; apply safe_as_list. }
  intros stack _.
  eapply safe_bind; [apply safe_Decoder_loop|]. intros [[o c1] c2] _.
  destruct flag; apply safe_ret; exact I.
Qed.

(** What the frame gives: an object of [s0] reads the same value afterwards. *)
Lemma safe_read {A} (m : M A) (Q : A -> Prop) h v :
  safe s0 m Q -> Torch.read s0 h = Some v ->
  Torch.read (run m s0).2 h = Some v.
Proof.
  intros H Hr. destruct (H s0 (ext_refl s0)) as [E _].
  eapply read_ext; eauto.
Qed.

End ForwardFrames.

(** ** Construction *)

Section InitFacts.

Lemma nn_Dropout_inv prob d : nn_Dropout prob = Ok d -> d = mkDropout prob true.
Proof.
  unfold nn_Dropout. destruct (Qle_bool 0 prob && Qle_bool prob 1); [|discriminate].
  intros [= <-]. reflexivity.
Qed.

Lemma rbind_inv {A B} (r : Result A) (k : A -> Result B) b :
  rbind r k = Ok b -> exists a, r = Ok a /\ k a = Ok b.
Proof. destruct r; simpl; [eauto|discriminate]. Qed.

Lemma ScaledDotProductAttention_init_inv temperature attn_dropout self :
  ScaledDotProductAttention_init temperature attn_dropout = Ok self ->
  self = OModule "ScaledDotProductAttention"
           [("temperature", OFloat temperature);
            ("dropout", ODropout (mkDropout attn_dropout true))].
Proof.
  unfold ScaledDotProductAttention_init. intros H.
  apply rbind_inv in H as (d & Hd & [= <-]).
  apply nn_Dropout_inv in Hd. subst d. reflexivity.
Qed.

Lemma MultiHeadAttention_init_inv sd n_heads d_model d_k d_v dropout attn_dropout self :
  MultiHeadAttention_init sd n_heads d_model d_k d_v dropout attn_dropout = Ok self ->
  self = OModule "MultiHeadAttention"
           [("n_head", OInt n_heads);
            ("d_k", OInt d_k);
            ("d_v", OInt d_v);
            ("w_qs", OLinear (nn_Linear (sub_dict sd "w_qs") d_model (n_heads * d_k) false));
            ("w_ks", OLinear (nn_Linear (sub_dict sd "w_ks") d_model (n_heads * d_k) false));
            ("w_vs", OLinear (nn_Linear (sub_dict sd "w_vs") d_model (n_heads * d_v) false));
            ("attention",
             OModule "ScaledDotProductAttention"
               [("temperature", OFloat (float_pow (INR d_k) 0.5));
                ("dropout", ODropout (mkDropout attn_dropout true))]);
            ("fc", OLinear (nn_Linear (sub_dict sd "fc") (n_heads * d_v) d_model false));
            ("dropout", ODropout (mkDropout dropout true));
            ("layer_norm", OLayerNorm (nn_LayerNorm (sub_dict sd "layer_norm") d_model 1e-6))].
Proof.
  unfold MultiHeadAttention_init. intros H.
  apply rbind_inv in H as (att & Ha & H).
  apply rbind_inv in H as (d & Hd & [= <-]).
  apply ScaledDotProductAttention_init_inv in Ha. apply nn_Dropout_inv in Hd.
  subst. reflexivity.
Qed.

Lemma DecoderLayer_init_inv sd d_model d_inner n_head d_k d_v dropout attn_dropout self :
  DecoderLayer_init sd d_model d_inner n_head d_k d_v dropout attn_dropout = Ok self ->
  exists slf_attn enc_attn pos_ffn,
    MultiHeadAttention_init (sub_dict sd "slf_attn")
      n_head d_model d_k d_v dropout attn_dropout = Ok slf_attn
    /\ MultiHeadAttention_init (sub_dict sd "enc_attn")
         n_head d_model d_k d_v dropout attn_dropout = Ok enc_attn
    /\ PositionWiseFeedForward_init (sub_dict sd "pos_ffn") d_model d_inner dropout
       = Ok pos_ffn
    /\ self = OModule "DecoderLayer"
                [("slf_attn", slf_attn); ("enc_attn", enc_attn); ("pos_ffn", pos_ffn)].
Proof.
  unfold DecoderLayer_init. intros H.
  apply rbind_inv in H as (a & Ha & H).
  apply rbind_inv in H as (b & Hb & H).
  apply rbind_inv in H as (c & Hc & [= <-]).
  eauto 10.
Qed.

Lemma EncoderLayer_init_inv sd d_model d_inner n_head d_k d_v dropout attn_dropout self :
  EncoderLayer_init sd d_model d_inner n_head d_k d_v dropout attn_dropout = Ok self ->
  exists slf_attn pos_ffn,
    MultiHeadAttention_init (sub_dict sd "slf_attn")
      n_head d_model d_k d_v dropout attn_dropout = Ok slf_attn
    /\ PositionWiseFeedForward_init (sub_dict sd "pos_ffn") d_model d_inner dropout
       = Ok pos_ffn
    /\ self = OModule "EncoderLayer" [("slf_attn", slf_attn); ("pos_ffn", pos_ffn)].
Proof.
  unfold EncoderLayer_init. intros H.
  apply rbind_inv in H as (a & Ha & H).
  apply rbind_inv in H as (c & Hc & [= <-]).
  eauto 10.
Qed.

Lemma bind_inv {A B} (m : M A) (k : A -> M B) st b st' :
  bind m k st = (Ok b, st') ->
  exists a s1, m st = (Ok a, s1) /\ k a s1 = (Ok b, st').
Proof.
  unfold bind. destruct (m st) as [[a|e] s1]; [eauto|discriminate].
Qed.

Lemma Decoder_init_inv sd n_layers n_steps n_features d_model d_inner n_heads d_k d_v
      dropout attn_dropout st0 self st1 :
  run (Decoder_init sd n_layers n_steps n_features d_model d_inner n_heads d_k d_v
         dropout attn_dropout) st0 = (Ok self, st1) ->
  exists position_enc dec_layer_stack,
    run (PositionalEncoding_init d_model n_steps) st0 = (Ok position_enc, st1)
    /\ rmapM (fun i =>
            DecoderLayer_init (layer_dict sd "dec_layer_stack" i)
              d_model d_inner n_heads d_k d_v dropout attn_dropout)
          (seq 0 n_layers) = Ok dec_layer_stack
    /\ self = OModule "Decoder"
         [("embedding", OLinear (nn_Linear (sub_dict sd "embedding") n_features d_model true));
          ("dropout", ODropout (mkDropout dropout true));
          ("position_enc", position_enc);
          ("dec_layer_stack", OList dec_layer_stack)].
Proof.
  unfold run, Decoder_init. intros H.
  apply bind_inv in H as (d & s1 & Hd & H).
  apply bind_inv in H as (pe & s2 & Hpe & H).
  apply bind_inv in H as (stack & s3 & Hs & H).
  unfold lift in Hd, Hs. injection Hd as Hd <-. injection Hs as Hs <-.
  injection H as <- <-. apply nn_Dropout_inv in Hd. subst d. eauto.
Qed.

Lemma Encoder_init_inv sd n_layers n_steps n_features d_model d_inner n_heads d_k d_v
      dropout attn_dropout st0 self st1 :
  run (Encoder_init sd n_layers n_steps n_features d_model d_inner n_heads d_k d_v
         dropout attn_dropout) st0 = (Ok self, st1) ->
  exists position_enc enc_layer_stack,
    run (PositionalEncoding_init d_model n_steps) st0 = (Ok position_enc, st1)
    /\ rmapM (fun i =>
            EncoderLayer_init (layer_dict sd "enc_layer_stack" i)
              d_model d_inner n_heads d_k d_v dropout attn_dropout)
          (seq 0 n_layers) = Ok enc_layer_stack
    /\ self = OModule "Encoder"
         [("embedding", OLinear (nn_Linear (sub_dict sd "embedding") n_features d_model true));
          ("dropout", ODropout (mkDropout dropout true));
          ("position_enc", position_enc);
          ("enc_layer_stack", OList enc_layer_stack)].
Proof.
  unfold run, Encoder_init. intros H.
  apply bind_inv in H as (d & s1 & Hd & H).
  apply bind_inv in H as (pe & s2 & Hpe & H).
  apply bind_inv in H as (stack & s3 & Hs & H).
  unfold lift in Hd, Hs. injection Hd as Hd <-. injection Hs as Hs <-.
  injection H as <- <-. apply nn_Dropout_inv in Hd. subst d. eauto.
Qed.

End InitFacts.

(** ** Runs that raise *)

Section Raises.

Lemma raises_bind_l {A B} (m : M A) (k : A -> M B) :
  always_raises m -> always_raises (bind m k).
Proof.
  intros H st. destruct (H st) as (e & st' & E). unfold run, bind in *.
  rewrite E. eauto.
Qed.

Lemma raises_bind_r {A B} (m : M A) (k : A -> M B) :
  (forall a, always_raises (k a)) -> always_raises (bind m k).
Proof.
  intros H st. unfold run, bind. destruct (m st) as [[a|e] s1]; [|eauto].
  apply (H a s1).
Qed.

Lemma raises_raise {A} e : always_raises (@raise A e).
Proof. intros st. unfold run, raise. eauto. Qed.

End Raises.

(** ** Scaled dot-product attention *)

Section Attention.

Import Torch.

Lemma bsel d i : i < d -> (if d =? 1 then 0 else i) = i.
Proof. intros H. destruct (d =? 1) eqn:E; [apply Nat.eqb_eq in E; lia | reflexivity]. Qed.

Lemma bidx_rank4 B H n m b h i j :
  b < B -> h < H -> i < n -> j < m -> bidx [B; H; n; m] [b; h; i; j] = [b; h; i; j].
Proof. intros. unfold bidx. simpl. rewrite !bsel by assumption. reflexivity. Qed.

Lemma bidx_rank3 B n m b i j :
  b < B -> i < n -> j < m -> bidx [B; n; m] [b; i; j] = [b; i; j].
Proof. intros. unfold bidx. simpl. rewrite !bsel by assumption. reflexivity. Qed.

Lemma matmul_v_rank4 a b B H n m p0 :
  shape a = [B; H; n; m] -> shape b = [B; H; m; p0] ->
  matmul_v a b = Ok (bmm_t [B; H] n m p0 a b).
Proof.
  intros Ea Eb. unfold matmul_v, bmm_v. rewrite Ea, Eb. simpl.
  rewrite Nat.eqb_refl, (broadcast_shapes_same [B; H]). reflexivity.
Qed.

Lemma bmm_t_elem a b B H n m p0 i0 h i j :
  shape a = [B; H; n; m] -> shape b = [B; H; m; p0] ->
  i0 < B -> h < H ->
  elem (bmm_t [B; H] n m p0 a b) [i0; h; i; j]
  = sumR m (fun l => (elem a [i0; h; i; l] * elem b [i0; h; l; j])%R).
Proof.
  intros Ea Eb Hb Hh. unfold bmm_t. rewrite Ea, Eb. simpl.
  unfold bidx. simpl. rewrite !bsel by assumption. reflexivity.
Qed.

Lemma sumR_ext n f g : (forall l, l < n -> f l = g l) -> sumR n f = sumR n g.
Proof.
  induction n as [|n IH]; intros H; simpl; [reflexivity|].
  rewrite IH by (intros; apply H; lia). rewrite H by lia. reflexivity.
Qed.

Lemma read_opt_ext s s' o v : ext s s' -> read_opt s o = Some v -> read_opt s' o = Some v.
Proof.
  intros E. destruct o as [h|]; simpl; [|auto].
  destruct (read s h) as [t|] eqn:R; simpl; [|discriminate].
  intros [= <-]. rewrite (read_ext _ _ _ _ E R). reflexivity.
Qed.

(** The optional masking step. *)
Lemma wp_mask attn attn_mask vattn vmask st B H Sq Sk (Q : handle -> State -> Prop) :
  read st attn = Some vattn -> shape vattn = [B; H; Sq; Sk] ->
  read_opt st attn_mask = Some vmask -> mask_fits [B; H; Sq; Sk] vmask ->
  (forall h st' vs,
      ext st st' -> read st' h = Some vs -> shape vs = [B; H; Sq; Sk] ->
      (forall b h0 i j, b < B -> h0 < H -> i < Sq -> j < Sk ->
         elem vs [b; h0; i; j] = Spec.masked vmask (elem vattn [b; h0; i; j]) b h0 i j) ->
      Q h st') ->
  wp (match attn_mask with
      | Some m => is_one <- eq m 1 ;; masked_fill attn is_one (-1e9)
      | None => ret attn
      end) st Q.
Proof.
  intros Ra Sa Rm Fm HQ. destruct attn_mask as [m|]; simpl in Rm.
  - destruct (read st m) as [vm|] eqn:Rm'; simpl in Rm; [|discriminate].
    injection Rm as <-. simpl in Fm.
    apply wp_bind. eapply wp_eq; [exact Rm'|].
    intros h1 s1 (E1 & R1 & _).
    eapply wp_masked_fill; [exact (read_ext _ _ _ _ E1 Ra) | exact R1 | |].
    { unfold masked_fill_v. rewrite Sa. simpl. rewrite Fm. reflexivity. }
    intros h2 s2 (E2 & R2 & _).
    eapply HQ; [exact (ext_trans _ _ _ E1 E2) | exact R2 | reflexivity |].
    intros b h0 i j Hb Hh Hi Hj. simpl. rewrite Sa.
    rewrite bidx_rank4 by assumption.
    destruct (Req_dec_T (elem vm (bidx (shape vm) [b; h0; i; j])) 1) as [e|n].
    + destruct (Req_dec_T 1 1); [reflexivity|contradiction].
    + destruct (Req_dec_T 0 1); [lra|reflexivity].
  - injection Rm as <-. apply wp_ret.
    eapply HQ; [apply ext_refl | exact Ra | exact Sa |]. reflexivity.
Qed.

Lemma wp_SDPA_forward temperature pr mode q k v attn_mask vq vk vv vmask st
      B H Sq Sk D Dv (Q : handle * handle -> State -> Prop) :
  read st q = Some vq -> read st k = Some vk -> read st v = Some vv ->
  shape vq = [B; H; Sq; D] -> shape vk = [B; H; Sk; D] -> shape vv = [B; H; Sk; Dv] ->
  read_opt st attn_mask = Some vmask -> mask_fits [B; H; Sq; Sk] vmask ->
  (forall ho hw st' sm keep vo,
      ext st st' ->
      read st' hw = Some (dropout_t (mkDropout pr mode) keep sm) ->
      read st' ho = Some vo ->
      shape sm = [B; H; Sq; Sk] ->
      (forall b h i j, b < B -> h < H -> i < Sq -> j < Sk ->
         elem sm [b; h; i; j] = Spec.attention temperature vq vk vmask Sk b h i j) ->
      shape vo = [B; H; Sq; Dv] ->
      (forall b h i e, b < B -> h < H -> i < Sq -> e < Dv ->
         elem vo [b; h; i; e]
         = sumR Sk (fun j => (elem (dropout_t (mkDropout pr mode) keep sm) [b; h; i; j]
                              * elem vv [b; h; j; e])%R)) ->
      is_contiguous (shape vo) (strides ho) = true ->
      Q (ho, hw) st') ->
  wp (ScaledDotProductAttention_forward
        (OModule "ScaledDotProductAttention"
           [("temperature", OFloat temperature);
            ("dropout", ODropout (mkDropout pr mode))]) q k v attn_mask) st Q.
Proof.
  intros Rq Rk Rv Sq' Sk' Sv' Rm Fm HQ.
  unfold ScaledDotProductAttention_forward.
  wp_attr.
  apply wp_bind. eapply wp_div; [exact Rq|].
  intros h1 s1 (E1 & R1 & _).
  apply wp_bind. eapply wp_transpose; [exact (read_ext _ _ _ _ E1 Rk) | | |];
    try (unfold rank; rewrite Sk'; simpl; lia).
  intros h2 R2 _ _.
  apply wp_bind.
  eapply wp_matmul; [exact R1 | exact R2 | apply (matmul_v_rank4 _ _ B H Sq D Sk) |].
  { simpl. exact Sq'. }
  { simpl. rewrite Sk'. reflexivity. }
  intros h3 s3 (E3 & R3 & _).
  pose proof (ext_trans _ _ _ E1 E3) as X3.
  apply wp_bind.
  eapply (wp_mask _ _ _ vmask _ B H Sq Sk);
    [exact R3 | reflexivity | exact (read_opt_ext _ _ _ _ X3 Rm) | exact Fm |].
  intros h4 s4 vs E4 R4 S4 V4.
  pose proof (ext_trans _ _ _ X3 E4) as X4.
  wp_attr.
  apply wp_bind. eapply wp_softmax; [exact R4|].
  intros h5 s5 (E5 & R5 & _).
  pose proof (ext_trans _ _ _ X4 E5) as X5.
  apply wp_bind. eapply wp_Dropout; [exact R5|].
  intros h6 s6 keep E6 R6 _.
  pose proof (ext_trans _ _ _ X5 E6) as X6.
  apply wp_bind.
  eapply wp_matmul;
    [exact R6 | exact (read_ext _ _ _ _ X6 Rv)
    | apply (matmul_v_rank4 _ _ B H Sq Sk Dv) | ].
  { rewrite dropout_t_shape. unfold softmax_v. rewrite S4. reflexivity. }
  { exact Sv'. }
  intros h7 s7 (E7 & R7 & _ & _ & C7).
  pose proof (ext_trans _ _ _ X6 E7) as X7.
  apply wp_ret.
  assert (Ssm : shape (softmax_v vs) = [B; H; Sq; Sk])
    by (unfold softmax_v; rewrite S4; reflexivity).
  eapply (HQ h7 h6 s7 (softmax_v vs) keep);
    [exact X7 | exact (read_ext _ _ _ _ E7 R6) | exact R7 | exact Ssm | | reflexivity | |].
  - intros b h i j Hb Hh Hi Hj. unfold softmax_v. rewrite S4. simpl.
    unfold Spec.attention, Spec.softmax_row, Spec.score.
    rewrite V4 by assumption. f_equal.
    + f_equal. f_equal. rewrite bmm_t_elem with (B := B) (H := H);
        [| exact Sq' | simpl; rewrite Sk'; reflexivity | assumption | assumption].
      unfold Spec.similarity. rewrite Sq'. reflexivity.
    + apply sumR_ext. intros l Hl. unfold set_last. simpl.
      rewrite V4 by assumption. f_equal. f_equal.
      rewrite bmm_t_elem with (B := B) (H := H);
        [| exact Sq' | simpl; rewrite Sk'; reflexivity | assumption | assumption].
      unfold Spec.similarity. rewrite Sq'. reflexivity.
  - intros b h i e Hb Hh Hi He.
    apply bmm_t_elem; [|exact Sv'|assumption|assumption].
    rewrite dropout_t_shape. exact Ssm.
  - rewrite C7. apply is_contiguous_strides.
Qed.

End Attention.

(** ** Views: size inference and index arithmetic *)

Section Views.

Lemma infer_size_known s n :
  infer_size (Z.of_nat <$> s) n
  = if n =? numel_of s then Ok s else Raise RuntimeError.
Proof.
  unfold infer_size.
  assert (F : Forall (fun d => (-1 <= d)%Z) (Z.of_nat <$> s)).
  { apply Forall_fmap, Forall_forall. intros x _. simpl. lia. }
  destruct (decide (Forall (fun d => (-1 <= d)%Z) (Z.of_nat <$> s))); [|contradiction].
  assert (K : filter (fun d => d ≠ (-1)%Z) (Z.of_nat <$> s) = Z.of_nat <$> s).
  { clear. induction s as [|a s IH]; [reflexivity|]. rewrite fmap_cons.
    rewrite filter_cons_True by lia. rewrite IH. reflexivity. }
  rewrite K, Nat.sub_diag.
  assert (I : Z.to_nat <$> (Z.of_nat <$> s) = s).
  { clear. induction s as [|a s IH]; [reflexivity|]. rewrite !fmap_cons, IH.
    rewrite Nat2Z.id. reflexivity. }
  rewrite I. reflexivity.
Qed.

Lemma infer_size_last s n :
  infer_size ((Z.of_nat <$> s) ++ [(-1)%Z]) n
  = if (0 <? numel_of s) && (n mod numel_of s =? 0)
    then Ok (s ++ [n / numel_of s]) else Raise RuntimeError.
Proof.
  unfold infer_size.
  assert (F : Forall (fun d => (-1 <= d)%Z) ((Z.of_nat <$> s) ++ [(-1)%Z])).
  { apply Forall_app. split.
    - apply Forall_fmap, Forall_forall. intros x _. simpl. lia.
    - constructor; [lia|constructor]. }
  destruct (decide (Forall (fun d => (-1 <= d)%Z) ((Z.of_nat <$> s) ++ [(-1)%Z])));
    [|contradiction].
  assert (K : filter (fun d => d ≠ (-1)%Z) ((Z.of_nat <$> s) ++ [(-1)%Z]) = Z.of_nat <$> s).
  { clear. induction s as [|a s IH]; [reflexivity|]. rewrite fmap_cons. simpl.
    rewrite filter_cons_True by lia. simpl in IH. rewrite IH. reflexivity. }
  rewrite K. rewrite length_app. simpl.
  replace (length (Z.of_nat <$> s) + 1 - length (Z.of_nat <$> s)) with 1 by lia.
  assert (I : Z.to_nat <$> (Z.of_nat <$> s) = s).
  { clear. induction s as [|a s IH]; [reflexivity|]. rewrite !fmap_cons, IH.
    rewrite Nat2Z.id. reflexivity. }
  rewrite I. destruct ((0 <? numel_of s) && (n mod numel_of s =? 0)); [|reflexivity].
  f_equal. rewrite fmap_app. f_equal.
  generalize (n / numel_of s). clear. intros m.
  induction s as [|a s IH]; [reflexivity|]. simpl.
  destruct (decide (Z.of_nat a = (-1)%Z)); [lia|]. rewrite Nat2Z.id. f_equal.
  exact IH.
Qed.

Lemma div_mod_pos a b m : b < m -> (a * m + b) / m = a /\ (a * m + b) mod m = b.
Proof.
  intros H. split.
  - symmetry. apply (Nat.div_unique _ _ _ b); [exact H | lia].
  - symmetry. apply (Nat.mod_unique _ _ a); [exact H | lia].
Qed.

(** Splitting the last axis into heads. *)
Lemma view_split_elem t B N H D b n h d :
  shape t = [B; N; H * D] -> n < N -> h < H -> d < D ->
  elem (view_v [B; N; H; D] t) [b; n; h; d] = elem t [b; n; h * D + d].
Proof.
  intros E Hn Hh Hd. unfold view_v. cbn [elem shape]. rewrite E. f_equal.
  cbn [ravel unravel numel_of fold_right].
  rewrite !Nat.mul_1_r, !Nat.add_0_r.
  assert (Hhd : h * D + d < H * D) by nia.
  replace (b * (N * (H * D)) + (n * (H * D) + (h * D + d)))
    with ((b * N + n) * (H * D) + (h * D + d)) by lia.
  destruct (div_mod_pos (b * N + n) (h * D + d) (H * D) Hhd) as [Q1 M1].
  replace ((b * N + n) * (H * D) + (h * D + d))
    with (b * (N * (H * D)) + (n * (H * D) + (h * D + d))) in * by lia.
  assert (Hn' : n * (H * D) + (h * D + d) < N * (H * D)) by nia.
  destruct (div_mod_pos b (n * (H * D) + (h * D + d)) (N * (H * D)) Hn') as [Q2 M2].
  rewrite Q2, M2.
  destruct (div_mod_pos n (h * D + d) (H * D) Hhd) as [Q3 M3].
  rewrite Q3, M3, Nat.div_1_r. reflexivity.
Qed.

(** Merging the last two axes. *)
Lemma view_merge_elem t B N H D b n c :
  shape t = [B; N; H; D] -> n < N -> c < H * D ->
  elem (view_v [B; N; H * D] t) [b; n; c] = elem t [b; n; c / D; c mod D].
Proof.
  intros E Hn Hc. unfold view_v. cbn [elem shape]. rewrite E. f_equal.
  cbn [ravel unravel numel_of fold_right].
  rewrite !Nat.mul_1_r, !Nat.add_0_r.
  assert (HD : D <> 0) by (intros ->; lia).
  assert (Hn' : n * (H * D) + c < N * (H * D)) by nia.
  destruct (div_mod_pos b (n * (H * D) + c) (N * (H * D)) Hn') as [Q2 M2].
  rewrite Q2, M2.
  destruct (div_mod_pos n c (H * D) Hc) as [Q3 M3].
  rewrite Q3, M3, Nat.div_1_r. reflexivity.
Qed.

End Views.

(** ** Multi-head attention *)

Section MultiHead.

Import Torch.

Variable sd : StateDict.
Variables n_heads d_model d_k d_v : nat.
Variables dropout attn_dropout : Q.
Variable mode : bool.

Local Abbreviation w_qs := (Built.w_qs sd n_heads d_model d_k).
Local Abbreviation w_ks := (Built.w_ks sd n_heads d_model d_k).
Local Abbreviation w_vs := (Built.w_vs sd n_heads d_model d_v).
Local Abbreviation fc := (Built.fc sd n_heads d_model d_v).
Local Abbreviation layer_norm := (Built.mha_norm sd d_model).
Local Abbreviation temperature := (Built.temperature d_k).
Local Abbreviation mha_module :=
  (Built.mha_module sd n_heads d_model d_k d_v dropout attn_dropout mode).
Local Abbreviation heads := (Built.heads n_heads).
Local Abbreviation merged := (Built.merged n_heads d_v).

Lemma MultiHeadAttention_init_train self :
  MultiHeadAttention_init sd n_heads d_model d_k d_v dropout attn_dropout = Ok self ->
  Module_train mode self = mha_module.
Proof. intros H. apply MultiHeadAttention_init_inv in H. subst self. reflexivity. Qed.

Lemma SDPA_call_eq self q k v m :
  is_instance self "ScaledDotProductAttention" = true ->
  ScaledDotProductAttention_call self [OTensor q; OTensor k; OTensor v; of_opt_tensor m] []
  = ScaledDotProductAttention_forward self q k v m.
Proof.
  intros E. unfold ScaledDotProductAttention_call. rewrite E.
  destruct m; reflexivity.
Qed.

Lemma wp_MHA_forward q k v attn_mask vq vk vv vmask st B N
      (Q : handle * handle -> State -> Prop) :
  read st q = Some vq -> read st k = Some vk -> read st v = Some vv ->
  shape vq = [B; N; d_model] -> shape vk = [B; N; d_model] ->
  shape vv = [B; N; d_model] ->
  0 < B -> 0 < N ->
  read_opt st attn_mask = Some vmask ->
  match vmask with Some m => 1 <= rank m | None => True end ->
  mask_fits [B; n_heads; N; N] (unsqueeze_v 1 <$> vmask) ->
  (forall ho hw st' sm keep1 keep2 vattn,
      ext st st' ->
      read st' q = Some vq ->
      read st' hw = Some (dropout_t (mkDropout attn_dropout mode) keep1 sm) ->
      shape sm = [B; n_heads; N; N] ->
      (forall b h i j, b < B -> h < n_heads -> i < N -> j < N ->
         elem sm [b; h; i; j]
         = Spec.attention temperature
             (heads B N d_k (linear_t w_qs vq)) (heads B N d_k (linear_t w_ks vk))
             (unsqueeze_v 1 <$> vmask) N b h i j) ->
      shape vattn = [B; n_heads; N; d_v] ->
      (forall b h i e, b < B -> h < n_heads -> i < N -> e < d_v ->
         elem vattn [b; h; i; e]
         = sumR N (fun j =>
             (elem (dropout_t (mkDropout attn_dropout mode) keep1 sm) [b; h; i; j]
              * elem (heads B N d_v (linear_t w_vs vv)) [b; h; j; e])%R)) ->
      read st' ho
      = Some (layer_norm_t layer_norm
                (iadd_t (dropout_t (mkDropout dropout mode) keep2
                           (linear_t fc (merged B N vattn)))
                        vq)) ->
      Q (ho, hw) st') ->
  wp (MultiHeadAttention_forward mha_module q k v attn_mask) st Q.
Proof.
  intros Rq Rk Rv Sq Sk Sv HB HN Rm Km Fm HQ.
  unfold MultiHeadAttention_forward, Built.mha_module, Built.sdpa_module.
  apply wp_bind. eapply wp_size; [exact Rq | rewrite Sq; reflexivity |].
  apply wp_bind. eapply wp_size; [exact Rq | rewrite Sq; reflexivity |].
  (* projections and heads *)
  wp_attr.
  apply wp_bind. eapply wp_Linear; [exact Rq | apply (linear_v_ok w_qs vq [B; N] Sq) |].
  intros h1 s1 (E1 & R1 & _ & _ & C1).
  wp_attr. wp_attr.
  apply wp_bind.
  eapply (wp_view _ _ _ [B; N; n_heads; d_k]); [exact R1 | | |].
  { change [Z.of_nat B; Z.of_nat N; Z.of_nat n_heads; Z.of_nat d_k]
      with (Z.of_nat <$> [B; N; n_heads; d_k]).
    rewrite infer_size_known. unfold numel. cbn [shape linear_t]. rewrite Sq.
    cbn [removelast app numel_of fold_right out_features w_qs nn_Linear].
    replace (B * (N * (n_heads * d_k * 1)) =? B * (N * (n_heads * (d_k * 1))))
      with true by (symmetry; apply Nat.eqb_eq; lia).
    reflexivity. }
  { rewrite C1. apply is_contiguous_strides. }
  intros q1 Rq1 _ _.
  wp_attr.
  apply wp_bind.
  eapply wp_Linear;
    [exact (read_ext _ _ _ _ E1 Rk) | apply (linear_v_ok w_ks vk [B; N] Sk) |].
  intros h2 s2 (E2 & R2 & _ & _ & C2).
  pose proof (ext_trans _ _ _ E1 E2) as X2.
  wp_attr. wp_attr.
  apply wp_bind.
  eapply (wp_view _ _ _ [B; N; n_heads; d_k]); [exact R2 | | |].
  { change [Z.of_nat B; Z.of_nat N; Z.of_nat n_heads; Z.of_nat d_k]
      with (Z.of_nat <$> [B; N; n_heads; d_k]).
    rewrite infer_size_known. unfold numel. cbn [shape linear_t]. rewrite Sk.
    cbn [removelast app numel_of fold_right out_features w_ks nn_Linear].
    replace (B * (N * (n_heads * d_k * 1)) =? B * (N * (n_heads * (d_k * 1))))
      with true by (symmetry; apply Nat.eqb_eq; lia).
    reflexivity. }
  { rewrite C2. apply is_contiguous_strides. }
  intros k1 Rk1 _ _.
  wp_attr.
  apply wp_bind.
  eapply wp_Linear;
    [exact (read_ext _ _ _ _ X2 Rv) | apply (linear_v_ok w_vs vv [B; N] Sv) |].
  intros h3 s3 (E3 & R3 & _ & _ & C3).
  pose proof (ext_trans _ _ _ X2 E3) as X3.
  wp_attr. wp_attr.
  apply wp_bind.
  eapply (wp_view _ _ _ [B; N; n_heads; d_v]); [exact R3 | | |].
  { change [Z.of_nat B; Z.of_nat N; Z.of_nat n_heads; Z.of_nat d_v]
      with (Z.of_nat <$> [B; N; n_heads; d_v]).
    rewrite infer_size_known. unfold numel. cbn [shape linear_t]. rewrite Sv.
    cbn [removelast app numel_of fold_right out_features w_vs nn_Linear].
    replace (B * (N * (n_heads * d_v * 1)) =? B * (N * (n_heads * (d_v * 1))))
      with true by (symmetry; apply Nat.eqb_eq; lia).
    reflexivity. }
  { rewrite C3. apply is_contiguous_strides. }
  intros v1 Rv1 _ _.
  (* transposes *)
  apply wp_bind.
  eapply wp_transpose;
    [exact (read_ext _ _ _ _ (ext_trans _ _ _ E2 E3) Rq1) | | |];
    try (unfold rank; simpl; lia).
  intros q2 Rq2 _ _.
  apply wp_bind.
  eapply wp_transpose; [exact (read_ext _ _ _ _ E3 Rk1) | | |];
    try (unfold rank; simpl; lia).
  intros k2 Rk2 _ _.
  apply wp_bind.
  eapply wp_transpose; [exact Rv1 | | |]; try (unfold rank; simpl; lia).
  intros v2 Rv2 _ _.
  (* the mask, broadcast on the head axis *)
  apply wp_bind.
  apply (wp_mono _ _ (fun m' s' => s' = s3 /\ read_opt s3 m' = Some (unsqueeze_v 1 <$> vmask))).
  { pose proof (read_opt_ext _ _ _ _ X3 Rm) as Rm3.
    destruct attn_mask as [m|]; simpl in Rm3.
    - destruct (read s3 m) as [vm|] eqn:Rm'; simpl in Rm3; [|discriminate].
      injection Rm3 as <-. simpl in Km.
      apply wp_bind. eapply wp_unsqueeze; [exact Rm' | exact Km |].
      intros m' Rm1 _ _. apply wp_ret. split; [reflexivity|]. simpl.
      rewrite Rm1. reflexivity.
    - injection Rm3 as <-. apply wp_ret. split; reflexivity. }
  intros mask' s' [-> Rm'].
  wp_attr.
  apply wp_bind. rewrite SDPA_call_eq by reflexivity.
  eapply (wp_SDPA_forward _ _ _ _ _ _ _ _ _ _ _ _ B n_heads N N d_k d_v);
    [exact Rq2 | exact Rk2 | exact Rv2 | reflexivity | reflexivity | reflexivity
    | exact Rm' | exact Fm |].
  intros ho hw s4 sm keep1 vattn E4 Rw Ro Ssm Vsm Sat Vat Cat.
  pose proof (ext_trans _ _ _ X3 E4) as X4.
  (* merge the heads *)
  apply wp_bind.
  eapply wp_transpose; [exact Ro | | |]; try (unfold rank; rewrite Sat; simpl; lia).
  intros o1 Ro1 _ _.
  apply wp_bind. eapply wp_contiguous; [exact Ro1|].
  intros o2 s5 E5 Ro2 Co2.
  pose proof (ext_trans _ _ _ X4 E5) as X5.
  apply wp_bind.
  eapply (wp_view _ _ _ [B; N; n_heads * d_v]); [exact Ro2 | | exact Co2 |].
  { change [Z.of_nat B; Z.of_nat N; (-1)%Z] with ((Z.of_nat <$> [B; N]) ++ [(-1)%Z]).
    rewrite infer_size_last. unfold numel. cbn [shape transpose_v]. rewrite Sat.
    change (swap_at 1 2 [B; n_heads; N; d_v]) with [B; N; n_heads; d_v].
    cbn [numel_of fold_right]. rewrite !Nat.mul_1_r.
    replace (B * (N * (n_heads * d_v))) with (n_heads * d_v * (B * N)) by lia.
    rewrite Nat.Div0.mod_mul, Nat.div_mul by lia.
    replace (0 <? B * N) with true by (symmetry; apply Nat.ltb_lt; nia).
    reflexivity. }
  intros o3 Ro3 _ Co3.
  wp_attr.
  apply wp_bind.
  eapply wp_Linear; [exact Ro3 | apply (linear_v_ok fc _ [B; N]); reflexivity |].
  intros o4 s6 (E6 & Ro4 & F6 & P6 & _).
  pose proof (ext_trans _ _ _ X5 E6) as X6.
  assert (O4 : owned st o4) by (split; [destruct X5; lia | exact P6]).
  wp_attr.
  apply wp_bind. eapply wp_Dropout; [exact Ro4|].
  intros o5 s7 keep2 E7 Ro5 O5.
  pose proof (ext_trans _ _ _ X6 E7) as X7.
  assert (O5' : owned s5 o5) by (apply O5; [exact E6 | split; [exact F6 | exact P6]]).
  specialize (O5 st X6 O4).
  apply wp_bind.
  eapply wp_iadd;
    [exact Ro5 | exact (read_ext _ _ _ _ X7 Rq) | apply iadd_v_same | apply O5 |].
  { rewrite dropout_t_shape. rewrite Sq. reflexivity. }
  intros o6 s8 Ro6 S6 P6' K6 X8.
  specialize (X8 st X7 (proj1 O5)).
  wp_attr.
  apply wp_bind.
  eapply wp_LayerNorm; [exact Ro6 | apply (layer_norm_v_ok layer_norm _ [B; N]) |].
  { cbn [shape iadd_t]. rewrite dropout_t_shape. reflexivity. }
  intros o7 s9 (E9 & Ro7 & _).
  pose proof (ext_trans _ _ _ X8 E9) as X9.
  apply wp_ret.
  eapply (HQ o7 hw s9 sm keep1 keep2 vattn);
    [exact X9 | exact (read_ext _ _ _ _ X9 Rq) | | exact Ssm | exact Vsm | exact Sat
    | exact Vat | exact Ro7].
  assert (stor hw <> stor o5).
  { pose proof (read_valid _ _ _ Rw). destruct O5' as [L5' _].
    destruct E5 as [L5 _]. lia. }
  eapply read_ext; [exact E9|]. apply K6; [assumption|].
  exact (read_ext _ _ _ _ (ext_trans _ _ _ E5 (ext_trans _ _ _ E6 E7)) Rw).
Qed.


End MultiHead.

(** ** Feed-forward block and encoder layer *)

Section Layers.

Import Torch.

Lemma PositionWiseFeedForward_init_train sd d_in d_hid dropout mode self :
  PositionWiseFeedForward_init sd d_in d_hid dropout = Ok self ->
  Module_train mode self = pwff_module sd d_in d_hid dropout mode.
Proof.
  intros H. apply PositionWiseFeedForward_init_inv in H. subst self. reflexivity.
Qed.

Lemma EncoderLayer_init_train sd d_model d_inner n_head d_k d_v dropout attn_dropout
      mode self :
  EncoderLayer_init sd d_model d_inner n_head d_k d_v dropout attn_dropout = Ok self ->
  Module_train mode self
  = encoder_layer_module sd d_model d_inner n_head d_k d_v dropout attn_dropout mode.
Proof.
  intros H. apply EncoderLayer_init_inv in H as (a & b & Ha & Hb & ->).
  apply (MultiHeadAttention_init_train _ _ _ _ _ _ _ mode) in Ha.
  apply (PositionWiseFeedForward_init_train _ _ _ _ mode) in Hb.
  unfold encoder_layer_module. rewrite <- Ha, <- Hb. reflexivity.
Qed.

Lemma pwff_value_shape sd d_in d_hid dropout mode keep x s :
  shape x = s ++ [d_in] ->
  shape (pwff_value sd d_in d_hid dropout mode keep x) = shape x.
Proof.
  intros E. unfold pwff_value. cbn [shape layer_norm_t iadd_t].
  rewrite dropout_t_shape. cbn [shape linear_t relu_v].
  rewrite E, !removelast_last. reflexivity.
Qed.

Lemma wp_PWFF_forward sd d_in d_hid dropout mode x vx s st
      (Q : handle -> State -> Prop) :
  read st x = Some vx -> shape vx = s ++ [d_in] ->
  (forall h st' keep,
      ext st st' ->
      read st' h = Some (pwff_value sd d_in d_hid dropout mode keep vx) ->
      read st' x = Some vx ->
      Q h st') ->
  wp (PositionWiseFeedForward_forward (pwff_module sd d_in d_hid dropout mode) x) st Q.
Proof.
  intros Hx Hs HQ.
  unfold PositionWiseFeedForward_forward, pwff_module.
  wp_attr.
  apply wp_bind.
  eapply wp_Linear; [exact Hx | apply (linear_v_ok (linear_1 sd d_in d_hid) vx s Hs) |].
  intros h1 s1 (E1 & R1 & F1 & P1 & C1).
  apply wp_bind. eapply wp_relu; [exact R1|].
  intros h2 s2 (E2 & R2 & F2 & P2 & C2).
  pose proof (ext_trans _ _ _ E1 E2) as X2.
  wp_attr.
  apply wp_bind.
  eapply wp_Linear; [exact R2 | apply (linear_v_ok (linear_2 sd d_in d_hid) _ s) |].
  { cbn [shape relu_v linear_t]. rewrite Hs, removelast_last. reflexivity. }
  intros h3 s3 (E3 & R3 & F3 & P3 & C3).
  pose proof (ext_trans _ _ _ X2 E3) as X3.
  assert (O3 : owned st h3) by (split; [destruct X2; lia | exact P3]).
  wp_attr.
  apply wp_bind. eapply wp_Dropout; [exact R3|].
  intros h4 s4 keep E4 R4 O4.
  pose proof (ext_trans _ _ _ X3 E4) as X4.
  specialize (O4 st X3 O3).
  apply wp_bind.
  eapply wp_iadd;
    [exact R4 | exact (read_ext _ _ _ _ X4 Hx) | apply iadd_v_same | apply O4 |].
  { rewrite dropout_t_shape. cbn [shape relu_v linear_t].
    rewrite Hs, !removelast_last. reflexivity. }
  intros h5 s5 R5 S5 P5 K5 X5.
  specialize (X5 st X4 (proj1 O4)).
  wp_attr.
  apply wp_bind.
  eapply wp_LayerNorm; [exact R5 | apply (layer_norm_v_ok (pwff_norm sd d_in) _ s) |].
  { cbn [shape iadd_t]. rewrite dropout_t_shape. cbn [shape relu_v linear_t].
    rewrite Hs, !removelast_last. reflexivity. }
  intros h6 s6 (E6 & R6 & F6 & P6 & C6).
  pose proof (ext_trans _ _ _ X5 E6) as X6.
  wp_step. apply (HQ h6 s6 keep); [exact X6 | exact R6 | exact (read_ext _ _ _ _ X6 Hx)].
Qed.

Lemma PWFF_call_eq self x :
  is_instance self "PositionWiseFeedForward" = true ->
  PositionWiseFeedForward_call self [OTensor x] []
  = PositionWiseFeedForward_forward self x.
Proof. intros E. unfold PositionWiseFeedForward_call. rewrite E. reflexivity. Qed.

Lemma MHA_call_kw_eq self q k v m :
  is_instance self "MultiHeadAttention" = true ->
  MultiHeadAttention_call self [OTensor q; OTensor k; OTensor v]
    [("attn_mask", of_opt_tensor m)]
  = MultiHeadAttention_forward self q k v m.
Proof.
  intros E. unfold MultiHeadAttention_call. rewrite E. destruct m; reflexivity.
Qed.

Lemma EncoderLayer_call_eq self x m :
  is_instance self "EncoderLayer" = true ->
  EncoderLayer_call self [OTensor x; of_opt_tensor m] []
  = EncoderLayer_forward self x m.
Proof.
  intros E. unfold EncoderLayer_call. rewrite E. destruct m; reflexivity.
Qed.

Lemma wp_EncoderLayer_forward sd d_model d_inner n_head d_k d_v dropout attn_dropout mode
      x src_mask vx vmask st B N (Q : handle * handle -> State -> Prop) :
  read st x = Some vx -> shape vx = [B; N; d_model] -> 0 < B -> 0 < N ->
  read_opt st src_mask = Some vmask ->
  match vmask with Some m => 1 <= rank m | None => True end ->
  mask_fits [B; n_head; N; N] (unsqueeze_v 1 <$> vmask) ->
  (forall ho hw st' vo vw,
      ext st st' -> read st' ho = Some vo -> shape vo = [B; N; d_model] ->
      read st' hw = Some vw -> shape vw = [B; n_head; N; N] ->
      Q (ho, hw) st') ->
  wp (EncoderLayer_forward
        (encoder_layer_module sd d_model d_inner n_head d_k d_v dropout attn_dropout mode)
        x src_mask) st Q.
Proof.
  intros Rx Sx HB HN Rm Km Fm HQ.
  unfold EncoderLayer_forward, encoder_layer_module.
  wp_attr.
  apply wp_bind. rewrite MHA_call_kw_eq by reflexivity.
  eapply (wp_MHA_forward _ _ _ _ _ _ _ _ _ _ _ _ _ _ _ vmask _ B N);
    [exact Rx | exact Rx | exact Rx | exact Sx | exact Sx | exact Sx | exact HB | exact HN
    | exact Rm | exact Km | exact Fm |].
  intros ho hw s1 sm keep1 keep2 vattn E1 Rx1 Rw Ssm _ _ _ Ro.
  wp_attr.
  apply wp_bind. rewrite PWFF_call_eq by reflexivity.
  eapply (wp_PWFF_forward _ _ _ _ _ _ _ [B; N]); [exact Ro | |].
  { cbn [shape layer_norm_t iadd_t]. rewrite dropout_t_shape. cbn [shape linear_t].
    reflexivity. }
  intros h2 s2 keep3 E2 R2 _.
  apply wp_ret.
  eapply (HQ h2 hw s2);
    [exact (ext_trans _ _ _ E1 E2) | exact R2 | | exact (read_ext _ _ _ _ E2 Rw) | ].
  - rewrite (pwff_value_shape _ _ _ _ _ _ _ [B; N]);
      cbn [shape layer_norm_t iadd_t]; rewrite dropout_t_shape; reflexivity.
  - rewrite dropout_t_shape. exact Ssm.
Qed.

End Layers.

(** ** Positional encoding *)

Section Positional.

Import Torch.

Lemma nth_fmap_seq {A} (f : nat -> A) n i d : i < n -> nth i (f <$> seq 0 n) d = f i.
Proof.
  intros H. rewrite (nth_indep _ d (f 0)) by (rewrite length_fmap, length_seq; exact H).
  change (f <$> seq 0 n) with (List.map f (seq 0 n)).
  rewrite map_nth. rewrite seq_nth by exact H. reflexivity.
Qed.

Lemma even_mod2 i : (i mod 2 =? 0) = Nat.even i.
Proof.
  destruct (Nat.even i) eqn:E.
  - apply Nat.even_spec in E. destruct E as [k ->]. apply Nat.eqb_eq.
    rewrite Nat.mul_comm. apply Nat.Div0.mod_mul.
  - apply Nat.eqb_neq. intros H.
    assert (Nat.even i = true); [|congruence].
    apply Nat.even_spec. exists (i / 2).
    pose proof (Nat.div_mod_eq i 2). lia.
Qed.

Lemma odd_column i : ((1 <=? i) && ((i - 1) mod 2 =? 0)) = negb (Nat.even i).
Proof.
  destruct i as [|i]; [reflexivity|].
  replace (S i - 1) with i by lia. simpl (1 <=? S i). cbn [andb].
  rewrite even_mod2, Nat.even_succ, <- Nat.negb_even, negb_involutive. reflexivity.
Qed.

Lemma table_entry d_hid n_position pos i :
  pos < n_position -> i < d_hid ->
  nth i (nth pos (get_position_angle_vec d_hid <$> seq 0 n_position) []) 0%R
  = Spec.angle d_hid pos i.
Proof.
  intros Hp Hi. rewrite nth_fmap_seq by exact Hp.
  unfold get_position_angle_vec. rewrite nth_fmap_seq by exact Hi.
  unfold Spec.angle, Numpy.power. rewrite mult_INR. reflexivity.
Qed.

Lemma wp_get_sinusoid_encoding_table n_position d_hid st
      (Q : handle -> State -> Prop) :
  0 < n_position ->
  (forall h st' vt,
      ext st st' -> read st' h = Some vt -> shape vt = [1; n_position; d_hid] ->
      (forall pos i, pos < n_position -> i < d_hid ->
         elem vt [0; pos; i] = Spec.sinusoid d_hid pos i) ->
      requires_grad h = false ->
      Q h st') ->
  wp (_get_sinusoid_encoding_table n_position d_hid) st Q.
Proof.
  intros Hn HQ. unfold _get_sinusoid_encoding_table.
  set (rows := get_position_angle_vec d_hid <$> seq 0 n_position).
  assert (Sa : shape (Numpy.array rows) = [n_position; d_hid]).
  { unfold rows. destruct n_position as [|n]; [lia|].
    change (seq 0 (S n)) with (0 :: seq 1 n). rewrite fmap_cons. cbn [Numpy.array shape].
    cbn [length]. unfold get_position_angle_vec.
    rewrite !length_fmap, !length_seq. reflexivity. }
  assert (Ea : forall pos i, pos < n_position -> i < d_hid ->
            elem (Numpy.array rows) [pos; i] = Spec.angle d_hid pos i).
  { intros pos i Hp Hi. rewrite <- (table_entry d_hid n_position pos i Hp Hi).
    fold rows. unfold Numpy.array. destruct rows eqn:Er; [|reflexivity].
    unfold rows in Er. destruct n_position; [lia|discriminate]. }
  apply wp_bind. eapply wp_lift.
  { unfold Numpy.update_columns. rewrite Sa. reflexivity. }
  apply wp_bind. eapply wp_lift.
  { unfold Numpy.update_columns. cbn [shape]. reflexivity. }
  apply wp_bind. apply wp_fresh. intros h1 s1 (E1 & R1 & _) G1.
  eapply wp_unsqueeze; [exact R1 | unfold rank; cbn [shape]; lia |].
  intros h2 R2 _ G2.
  eapply (HQ h2 s1); [exact E1 | exact R2 | | | congruence].
  - cbn [shape unsqueeze_v]. reflexivity.
  - intros pos i Hp Hi. cbn [elem unsqueeze_v take drop app nth].
    rewrite odd_column, (Ea pos i Hp Hi). cbn [Nat.leb andb].
    rewrite Nat.sub_0_r, even_mod2. unfold Spec.sinusoid.
    destruct (Nat.even i); reflexivity.
Qed.

Lemma broadcast_shapes_batch B N D :
  broadcast_shapes [B; N; D] [1; N; D] = Some [B; N; D].
Proof.
  unfold broadcast_shapes. simpl. rewrite !Nat.eqb_refl. simpl.
  destruct (B =? 1) eqn:E; simpl; [apply Nat.eqb_eq in E; subst; reflexivity|].
  destruct B as [|[|B]]; try reflexivity; discriminate.
Qed.

Lemma wp_PositionalEncoding_forward tbl x vx vt st B N Dm n_position
      (Q : handle -> State -> Prop) :
  read st tbl = Some vt -> shape vt = [1; n_position; Dm] ->
  read st x = Some vx -> shape vx = [B; N; Dm] -> N <= n_position ->
  (forall h st' vo,
      ext st st' -> read st' h = Some vo -> shape vo = [B; N; Dm] ->
      (forall b s j, b < B -> s < N -> j < Dm ->
         elem vo [b; s; j] = (elem vx [b; s; j] + elem vt [0%nat; s; j])%R) ->
      requires_grad h = requires_grad x ->
      Q h st') ->
  wp (PositionalEncoding_forward
        (OModule "PositionalEncoding" [("pos_table", OTensor tbl)]) x) st Q.
Proof.
  intros Rt St Rx Sx HN HQ. unfold PositionalEncoding_forward.
  wp_attr.
  apply wp_bind. eapply wp_size; [exact Rx | rewrite Sx; reflexivity |].
  apply wp_bind. eapply wp_narrow1; [exact Rt | unfold rank; rewrite St; simpl; lia |].
  intros h1 R1 _ _.
  apply wp_bind. eapply wp_clone; [exact R1|]. intros h2 s2 (E2 & R2 & _) _.
  apply wp_bind. eapply wp_detach; [exact R2|]. intros h3 R3 G3 _.
  assert (Sn : shape (narrow1_v N vt) = [1; N; Dm]).
  { cbn [shape narrow1_v]. rewrite St. rewrite Nat.min_l by exact HN. reflexivity. }
  eapply wp_add; [exact (read_ext _ _ _ _ E2 Rx) | exact R3 | |].
  { unfold add_v. rewrite Sx, Sn, broadcast_shapes_batch. reflexivity. }
  intros h4 s4 (E4 & R4 & _) G4.
  eapply (HQ h4 s4); [exact (ext_trans _ _ _ E2 E4) | exact R4 | reflexivity | |].
  - intros b s j Hb Hs Hj. cbn [elem add_t]. rewrite Sx, Sn.
    rewrite bidx_rank3 by assumption.
    unfold bidx. cbn [length Nat.sub drop zip_with Nat.eqb].
    rewrite !bsel by assumption. reflexivity.
  - rewrite G4, G3. apply orb_false_r.
Qed.

End Positional.

(** ** Encoder *)

Section EncoderFacts.

Import Torch.

Variable sd : StateDict.
Variables n_layers n_steps n_features d_model d_inner n_heads d_k d_v : nat.
Variables dropout attn_dropout : Q.
Variable mode : bool.

Local Abbreviation layer_module i :=
  (encoder_layer_module (layer_dict sd "enc_layer_stack" i)
     d_model d_inner n_heads d_k d_v dropout attn_dropout mode).

Lemma rmapM_EncoderLayer_train l stack :
  rmapM (fun i =>
           EncoderLayer_init (layer_dict sd "enc_layer_stack" i)
             d_model d_inner n_heads d_k d_v dropout attn_dropout) l = Ok stack ->
  List.map (Module_train mode) stack = List.map (fun i => layer_module i) l.
Proof.
  revert stack. induction l as [|i l IH]; intros stack H; simpl in H.
  - injection H as <-. reflexivity.
  - apply rbind_inv in H as (a & Ha & H). apply rbind_inv in H as (bs & Hb & [= <-]).
    simpl. rewrite (IH bs Hb).
    rewrite (EncoderLayer_init_train _ _ _ _ _ _ _ _ mode _ Ha). reflexivity.
Qed.

Lemma PositionalEncoding_init_ok d n st0 pe st1 :
  run (PositionalEncoding_init d n) st0 = (Ok pe, st1) ->
  0 < n /\ exists tbl vt,
    pe = OModule "PositionalEncoding" [("pos_table", OTensor tbl)]
    /\ ext st0 st1 /\ read st1 tbl = Some vt /\ shape vt = [1; n; d]
    /\ (forall pos i, pos < n -> i < d -> elem vt [0; pos; i] = Spec.sinusoid d pos i)
    /\ requires_grad tbl = false.
Proof.
  intros H. destruct n as [|n]; [discriminate|]. split; [lia|].
  assert (W : wp (PositionalEncoding_init d (S n)) st0
               (fun pe' st' => exists tbl vt,
                  pe' = OModule "PositionalEncoding" [("pos_table", OTensor tbl)]
                  /\ ext st0 st' /\ read st' tbl = Some vt /\ shape vt = [1; S n; d]
                  /\ (forall pos i, pos < S n -> i < d ->
                        elem vt [0; pos; i] = Spec.sinusoid d pos i)
                  /\ requires_grad tbl = false)).
  { unfold PositionalEncoding_init. apply wp_bind.
    apply wp_get_sinusoid_encoding_table; [lia|].
    intros h st' vt E R S V G. apply wp_ret. eauto 10. }
  apply wp_run in W as (pe' & st' & Hrun & W). rewrite H in Hrun.
  injection Hrun as <- <-. exact W.
Qed.

Lemma PositionalEncoding_call_eq self x :
  is_instance self "PositionalEncoding" = true ->
  PositionalEncoding_call self [OTensor x] [] = PositionalEncoding_forward self x.
Proof. intros E. unfold PositionalEncoding_call. rewrite E. reflexivity. Qed.

Lemma Encoder_loop_chain src_mask vmask B N :
  0 < B -> 0 < N ->
  match vmask with Some m => 1 <= rank m | None => True end ->
  mask_fits [B; n_heads; N; N] (unsqueeze_v 1 <$> vmask) ->
  forall l x vx collector st,
    read st x = Some vx -> shape vx = [B; N; d_model] ->
    read_opt st src_mask = Some vmask ->
    exists xn ws st' vn,
      run (Encoder_loop (List.map (fun i => layer_module i) l) src_mask x collector) st
      = (Ok (xn, collector ++ ws), st')
      /\ encoder_chain src_mask (List.map (fun i => layer_module i) l) x st ws xn st'
      /\ ext st st' /\ read st' xn = Some vn /\ shape vn = [B; N; d_model]
      /\ Forall (tensor_of_shape st' [B; n_heads; N; N]) ws.
Proof.
  intros HB HN Km Fm. induction l as [|i l IH]; intros x vx collector st Rx Sx Rm.
  - exists x, [], st, vx. simpl. rewrite app_nil_r.
    repeat split; auto using ext_refl. constructor.
  - cbn [List.map Encoder_loop].
    assert (W : wp (EncoderLayer_call (layer_module i) [OTensor x; of_opt_tensor src_mask] [])
                  st (fun r st1 =>
                        ext st st1 /\ tensor_of_shape st1 [B; N; d_model] (OTensor r.1)
                        /\ tensor_of_shape st1 [B; n_heads; N; N] (OTensor r.2))).
    { rewrite EncoderLayer_call_eq by reflexivity.
      eapply (wp_EncoderLayer_forward _ _ _ _ _ _ _ _ _ _ _ _ vmask _ B N); eauto.
      intros ho hw st1 vo vw E Ro So Rw Sw. simpl.
      split; [exact E|]. split; [exists ho, vo | exists hw, vw]; auto. }
    apply wp_run in W as ([x1 w1] & st1 & Hrun & E1 & (hx & v1 & [= <-] & R1 & S1)
                                   & (hw & vw & [= <-] & Rw & Sw)).
    simpl in R1, Rw.
    destruct (IH x1 v1 (collector ++ [OTensor w1]) st1 R1 S1
                (read_opt_ext _ _ _ _ E1 Rm))
      as (xn & ws & st' & vn & Hloop & Hchain & E' & Rn & Sn & Fw).
    exists xn, (OTensor w1 :: ws), st', vn.
    split.
    { unfold run, bind in *. rewrite Hrun. cbn beta iota. rewrite Hloop.
      rewrite <- app_assoc. reflexivity. }
    split; [econstructor; eauto|].
    split; [exact (ext_trans _ _ _ E1 E')|].
    split; [exact Rn|]. split; [exact Sn|].
    constructor; [|exact Fw].
    exists w1, vw. split; [reflexivity|]. split; [|exact Sw].
    exact (read_ext _ _ _ _ E' Rw).
Qed.

Lemma encoder_chain_length mask l x s ws xn sn :
  encoder_chain mask l x s ws xn sn -> length ws = length l.
Proof. induction 1; simpl; congruence. Qed.

Lemma Encoder_train self st0 st1 :
  run (Encoder_init sd n_layers n_steps n_features d_model d_inner n_heads d_k d_v
         dropout attn_dropout) st0 = (Ok self, st1) ->
  0 < n_steps /\ exists tbl vt,
    Module_train mode self
    = OModule "Encoder"
        [("embedding", OLinear (nn_Linear (sub_dict sd "embedding") n_features d_model true));
         ("dropout", ODropout (mkDropout dropout mode));
         ("position_enc", OModule "PositionalEncoding" [("pos_table", OTensor tbl)]);
         ("enc_layer_stack", OList (List.map (fun i => layer_module i) (seq 0 n_layers)))]
    /\ ext st0 st1 /\ read st1 tbl = Some vt /\ shape vt = [1; n_steps; d_model].
Proof.
  intros H. apply Encoder_init_inv in H as (pe & stack & Hpe & Hstack & ->).
  apply PositionalEncoding_init_ok in Hpe
    as (Hn & tbl & vt & -> & E & R & S & _).
  split; [exact Hn|]. exists tbl, vt. split; [|auto].
  cbn [Module_train List.map p]. rewrite (rmapM_EncoderLayer_train _ _ Hstack).
  reflexivity.
Qed.

Lemma Encoder_forward_run self st0 st1 st x vx src_mask vmask B N :
  run (Encoder_init sd n_layers n_steps n_features d_model d_inner n_heads d_k d_v
         dropout attn_dropout) st0 = (Ok self, st1) ->
  ext st1 st ->
  read st x = Some vx -> shape vx = [B; N; n_features] ->
  0 < B -> 0 < N -> N <= n_steps ->
  read_opt st src_mask = Some vmask ->
  match vmask with Some m => 1 <= rank m | None => True end ->
  mask_fits [B; n_heads; N; N] (unsqueeze_v 1 <$> vmask) ->
  exists xn ws st' x0 s0,
    (forall flag,
       run (Encoder_forward (Module_train mode self) x src_mask flag) st
       = (Ok (if flag then OTuple [OTensor xn; OList ws] else OTensor xn), st'))
    /\ length (layers_of (Module_train mode self)) = n_layers
    /\ length ws = n_layers
    /\ ext st s0
    /\ tensor_of_shape s0 [B; N; d_model] (OTensor x0)
    /\ encoder_chain src_mask (layers_of (Module_train mode self)) x0 s0 ws xn st'
    /\ Forall (tensor_of_shape st' [B; n_heads; N; N]) ws
    /\ tensor_of_shape st' [B; N; d_model] (OTensor xn)
    /\ ext st st'.
Proof.
  intros Hinit Est Rx Sx HB HN HNs Rm Km Fm.
  apply Encoder_train in Hinit as (_ & tbl & vt & -> & _ & Rt & St).
  set (emb := nn_Linear (sub_dict sd "embedding") n_features d_model true).
  (* the embedding *)
  assert (W1 : wp (Linear_forward emb x) st
                 (fun h s => ext st s /\ read s h = Some (linear_t emb vx))).
  { eapply wp_Linear; [exact Rx | apply (linear_v_ok emb vx [B; N] Sx) |].
    intros h s (E & R & _). auto. }
  apply wp_run in W1 as (h1 & s1 & Run1 & E1 & R1).
  (* the positional encoding *)
  assert (W2 : wp (PositionalEncoding_forward
                     (OModule "PositionalEncoding" [("pos_table", OTensor tbl)]) h1) s1
                 (fun h s => exists v, ext s1 s /\ read s h = Some v
                                       /\ shape v = [B; N; d_model])).
  { eapply (wp_PositionalEncoding_forward _ _ _ vt _ B N d_model n_steps);
      [exact (read_ext _ _ _ _ (ext_trans _ _ _ Est E1) Rt) | exact St | exact R1
      | cbn [shape linear_t]; rewrite Sx; reflexivity | exact HNs |].
    intros h s vo E R S _ _. eauto. }
  apply wp_run in W2 as (h2 & s2 & Run2 & v2 & E2 & R2 & S2).
  (* dropout *)
  assert (W3 : wp (Dropout_forward (mkDropout dropout mode) h2) s2
                 (fun h s => exists v, ext s2 s /\ read s h = Some v
                                       /\ shape v = [B; N; d_model])).
  { eapply wp_Dropout; [exact R2|]. intros h s keep E R _.
    exists (dropout_t (mkDropout dropout mode) keep v2).
    rewrite dropout_t_shape. auto. }
  apply wp_run in W3 as (h3 & s3 & Run3 & v3 & E3 & R3 & S3).
  pose proof (ext_trans _ _ _ E1 (ext_trans _ _ _ E2 E3)) as X3.
  (* the layers *)
  destruct (Encoder_loop_chain src_mask vmask B N HB HN Km Fm (seq 0 n_layers)
              h3 v3 [] s3 R3 S3 (read_opt_ext _ _ _ _ X3 Rm))
    as (xn & ws & st' & vn & Runl & Chain & El & Rn & Sn & Fw).
  exists xn, ws, st', h3, s3.
  split.
  { intros flag. unfold Encoder_forward, run, bind in *.
    cbn [getattr assoc String.eqb Ascii.eqb Bool.eqb ret call_Linear call_Dropout
         as_list]. rewrite Run1. cbn beta iota.
    rewrite PositionalEncoding_call_eq by reflexivity. rewrite Run2. cbn beta iota.
    rewrite Run3. cbn beta iota. rewrite Runl. cbn beta iota.
    destruct flag; reflexivity. }
  cbn [layers_of assoc String.eqb Ascii.eqb Bool.eqb].
  split; [rewrite length_map, length_seq; reflexivity|].
  split.
  { rewrite (encoder_chain_length _ _ _ _ _ _ _ Chain), length_map, length_seq.
    reflexivity. }
  split; [exact X3|]. split; [exists h3, v3; auto|].
  split; [exact Chain|]. split; [exact Fw|].
  split; [exists xn, vn; auto|].
  exact (ext_trans _ _ _ X3 El).
Qed.


End EncoderFacts.

(** ** Element-wise readings *)

Section Elementwise.

Lemma layer_norm_t_elem N t B n D b i j :
  shape t = [B; n; D] ->
  elem (layer_norm_t N t) [b; i; j]
  = Spec.layer_norm D (eps N)
      (fun c => elem (ln_weight N) [c]) (fun c => elem (ln_bias N) [c])
      (fun l => elem t [b; i; l]) j.
Proof.
  intros E. unfold layer_norm_t, Spec.layer_norm, row_var, row_mean,
    Spec.variance, Spec.mean.
  cbn [elem]. rewrite E. reflexivity.
Qed.

Lemma iadd_t_elem a r B n D b i j :
  shape r = [B; n; D] -> b < B -> i < n -> j < D ->
  elem (iadd_t a r) [b; i; j] = (elem a [b; i; j] + elem r [b; i; j])%R.
Proof.
  intros E Hb Hi Hj. unfold iadd_t. cbn [elem]. rewrite E.
  rewrite bidx_rank3 by assumption. reflexivity.
Qed.

Lemma heads_elem n_heads B N D t b h n d :
  shape t = [B; N; n_heads * D] -> n < N -> h < n_heads -> d < D ->
  elem (heads n_heads B N D t) [b; h; n; d] = elem t [b; n; h * D + d].
Proof.
  intros E Hn Hh Hd. unfold heads.
  change (elem (transpose_v 1 2 (view_v [B; N; n_heads; D] t)) [b; h; n; d])
    with (elem (view_v [B; N; n_heads; D] t) [b; n; h; d]).
  apply view_split_elem; assumption.
Qed.

Lemma merged_elem n_heads d_v B N t b n h e :
  shape t = [B; n_heads; N; d_v] -> n < N -> h < n_heads -> e < d_v ->
  elem (merged n_heads d_v B N t) [b; n; h * d_v + e] = elem t [b; h; n; e].
Proof.
  intros E Hn Hh He. unfold merged.
  rewrite (view_merge_elem _ B N n_heads d_v); [| |exact Hn|nia].
  2:{ cbn [shape transpose_v]. rewrite E. reflexivity. }
  destruct (div_mod_pos h e d_v He) as [-> ->]. reflexivity.
Qed.

Lemma sumR_scale n f c : (sumR n (fun l => f l / c) = sumR n f / c)%R.
Proof.
  induction n as [|n IH]; simpl; [lra|]. rewrite IH. lra.
Qed.



Lemma temperature_sqrt d_k : Built.temperature d_k = sqrt (INR d_k).
Proof.
  unfold Built.temperature, float_pow.
  destruct (Req_dec_T (INR d_k) 0) as [E|E].
  - rewrite E, sqrt_0. destruct (Req_dec_T 0.5 0); [lra|reflexivity].
  - replace 0.5%R with (/ 2)%R by lra. apply Rpower_sqrt.
    pose proof (pos_INR d_k). lra.
Qed.

End Elementwise.

(** ** What a successful run went through *)

Section Inversion.

Import Torch.

Lemma size_inv t d st n s' :
  size t d st = (Ok n, s') ->
  s' = st /\ exists v, read st t = Some v /\ shape v !! d = Some n.
Proof.
  unfold size, bind, value. destruct (read st t) as [v|]; [|discriminate].
  destruct (shape v !! d) as [m|] eqn:E; [|discriminate].
  intros [= <- <-]. eauto.
Qed.

Lemma linear_v_inv L v r :
  linear_v L v = Ok r ->
  r = linear_t L v /\ shape v <> [] /\ last_of (shape v) = in_features L.
Proof.
  unfold linear_v. destruct (shape v) as [|a s] eqn:E; [discriminate|].
  destruct (last_of (a :: s) =? in_features L) eqn:El; [|discriminate].
  intros [= <-]. apply Nat.eqb_eq in El. repeat split; auto; try discriminate.
Qed.

Lemma Linear_forward_inv L x st h s' :
  Linear_forward L x st = (Ok h, s') ->
  exists vx, read st x = Some vx /\ shape vx <> []
    /\ last_of (shape vx) = in_features L
    /\ s' = alloc st (linear_t L vx)
    /\ h = mkHandle (length (heap st)) []
             (contiguous_strides (shape (linear_t L vx))) true.
Proof.
  unfold Linear_forward, bind, value, lift.
  destruct (read st x) as [vx|]; [|discriminate].
  destruct (linear_v L vx) as [r|] eqn:E; [|discriminate].
  apply linear_v_inv in E as (-> & Hn & Hl).
  unfold fresh. intros [= <- <-]. exists vx. auto.
Qed.

Lemma view_inv t dims st h s' :
  view t dims st = (Ok h, s') ->
  s' = st /\ exists v s, read st t = Some v /\ infer_size dims (numel v) = Ok s.
Proof.
  unfold view, bind, value, lift. destruct (read st t) as [v|]; [|discriminate].
  destruct (infer_size dims (numel v)) as [s|] eqn:E; [|discriminate].
  destruct (is_contiguous (shape v) (strides t)); [|discriminate].
  intros [= <- <-]. eauto.
Qed.

Lemma infer_size_known_inv s n s' :
  infer_size (Z.of_nat <$> s) n = Ok s' -> n = numel_of s.
Proof.
  rewrite infer_size_known. destruct (n =? numel_of s) eqn:E; [|discriminate].
  intros _. apply Nat.eqb_eq. exact E.
Qed.

Lemma numel_linear_t L v :
  shape v <> [] ->
  numel (linear_t L v) = numel_of (removelast (shape v)) * out_features L.
Proof.
  intros _. unfold numel. cbn [shape linear_t]. rewrite numel_of_app. simpl. lia.
Qed.

End Inversion.

Section KeyValueSizes.

Import Torch.

Variable sd : StateDict.
Variables n_heads d_model d_k d_v : nat.
Variables dropout attn_dropout : Q.
Variable mode : bool.

Local Tactic Notation "step_in" hyp(H) ident(a) ident(s) ident(H1) :=
  apply bind_inv in H as (a & s & H1 & H).

Lemma MultiHeadAttention_run_sizes st q k v attn_mask vq vk vv r st' :
  read st q = Some vq -> read st k = Some vk -> read st v = Some vv ->
  run (MultiHeadAttention_forward
         (mha_module sd n_heads d_model d_k d_v dropout attn_dropout mode)
         q k v attn_mask) st = (Ok r, st') ->
  exists B N,
    shape vq !! 0 = Some B /\ shape vq !! 1 = Some N
    /\ numel_of (removelast (shape vk)) * (n_heads * d_k) = B * N * n_heads * d_k
    /\ numel_of (removelast (shape vv)) * (n_heads * d_v) = B * N * n_heads * d_v.
Proof.
  intros Rq Rk Rv H. unfold run, MultiHeadAttention_forward, mha_module in H.
  step_in H B s1 H1. apply size_inv in H1 as (-> & v0 & R0 & SB).
  rewrite Rq in R0. injection R0 as <-.
  step_in H N s1 H1. apply size_inv in H1 as (-> & v0 & R0 & SN).
  rewrite Rq in R0. injection R0 as <-.
  (* q *)
  step_in H a s1 H1. cbn in H1. injection H1 as <- <-.
  step_in H hq s1 H1. cbn [call_Linear] in H1.
  apply Linear_forward_inv in H1 as (vq' & Rq' & _ & _ & -> & ->).
  rewrite Rq in Rq'. injection Rq' as <-.
  step_in H a s1 H1. cbn in H1. injection H1 as <- <-.
  step_in H a s1 H1. cbn in H1. injection H1 as <- <-.
  step_in H q1 s1 H1. apply view_inv in H1 as (-> & _).
  (* k *)
  step_in H a s1 H1. cbn in H1. injection H1 as <- <-.
  step_in H hk s1 H1. cbn [call_Linear] in H1.
  apply Linear_forward_inv in H1 as (vk' & Rk' & Nk & _ & -> & ->).
  rewrite (read_ext _ _ _ _ (ext_alloc _ _) Rk) in Rk'. injection Rk' as <-.
  step_in H a s1 H1. cbn in H1. injection H1 as <- <-.
  step_in H a s1 H1. cbn in H1. injection H1 as <- <-.
  step_in H k1 s1 H1. apply view_inv in H1 as (-> & v1 & sk & R1 & I1).
  rewrite read_alloc_new in R1. injection R1 as <-.
  apply (infer_size_known_inv [B; N; n_heads; d_k]) in I1.
  rewrite numel_linear_t in I1 by exact Nk.
  (* v *)
  step_in H a s1 H1. cbn in H1. injection H1 as <- <-.
  step_in H hv s1 H1. cbn [call_Linear] in H1.
  apply Linear_forward_inv in H1 as (vv' & Rv' & Nv & _ & -> & ->).
  rewrite (read_ext _ _ _ _ (ext_trans _ _ _ (ext_alloc _ _) (ext_alloc _ _)) Rv) in Rv'.
  injection Rv' as <-.
  step_in H a s1 H1. cbn in H1. injection H1 as <- <-.
  step_in H a s1 H1. cbn in H1. injection H1 as <- <-.
  step_in H v1 s1 H1. apply view_inv in H1 as (-> & v2 & sv & R2 & I2).
  rewrite read_alloc_new in R2. injection R2 as <-.
  apply (infer_size_known_inv [B; N; n_heads; d_v]) in I2.
  rewrite numel_linear_t in I2 by exact Nv.
  exists B, N. split; [exact SB|]. split; [exact SN|].
  cbn [out_features w_ks w_vs nn_Linear numel_of fold_right] in I1, I2.
  split; lia.
Qed.

End KeyValueSizes.

(** ** Residual and normalisation, element by element *)

Lemma residual_norm_elem N a r B n D b i j :
  shape a = [B; n; D] -> shape r = [B; n; D] -> b < B -> i < n -> j < D ->
  elem (layer_norm_t N (iadd_t a r)) [b; i; j]
  = Spec.layer_norm D (eps N)
      (fun c => elem (ln_weight N) [c]) (fun c => elem (ln_bias N) [c])
      (fun l => (elem a [b; i; l] + elem r [b; i; l])%R) j.
Proof.
  intros Sa Sr Hb Hi Hj.
  rewrite (layer_norm_t_elem _ _ B n D) by exact Sa.
  assert (Y : forall l, l < D ->
            elem (iadd_t a r) [b; i; l] = (elem a [b; i; l] + elem r [b; i; l])%R).
  { intros l Hl. apply (iadd_t_elem _ _ B n D); assumption. }
  unfold Spec.layer_norm, Spec.variance, Spec.mean.
  rewrite (Y j Hj), (sumR_ext D _ _ Y).
  f_equal. f_equal. f_equal. f_equal. f_equal. f_equal.
  apply sumR_ext. intros l Hl. rewrite (Y l Hl). reflexivity.
Qed.

(** ** Rows of attention weights *)

Section AttentionRows.



Lemma sumR_const n c : sumR n (fun _ => c) = (INR n * c)%R.
Proof.
  induction n as [|n IH]; [simpl; lra|].
  cbn [sumR]. rewrite IH, S_INR. lra.
Qed.

Lemma softmax_row_const n row c j :
  0 < n -> (forall l, l < n -> row l = c) -> j < n ->
  Spec.softmax_row n row j = (1 / INR n)%R.
Proof.
  intros Hn Hc Hj. unfold Spec.softmax_row.
  rewrite (sumR_ext n _ (fun _ => exp c)) by (intros l Hl; rewrite Hc by exact Hl; reflexivity).
  rewrite sumR_const, (Hc j Hj).
  pose proof (exp_pos c). assert (0 < INR n)%R by (apply lt_0_INR; exact Hn).
  field. split; lra.
Qed.

Lemma dropout_t_eval pr keep t : dropout_t (mkDropout pr false) keep t = t.
Proof. reflexivity. Qed.

Lemma broadcast_shapes_heads B H N M :
  broadcast_shapes [B; H; N; M] [B; 1; N; M] = Some [B; H; N; M].
Proof.
  unfold broadcast_shapes. simpl. rewrite !Nat.eqb_refl. simpl.
  destruct (H =? 1) eqn:E; simpl; [apply Nat.eqb_eq in E; subst; reflexivity|].
  reflexivity.
Qed.


(** The similarity of a query step and a key step in one head, read on
    the projected inputs. *)
Lemma head_similarity sd n_heads d_model d_k vq vk B N b h i l :
  shape vq = [B; N; d_model] -> shape vk = [B; N; d_model] ->
  h < n_heads -> i < N -> l < N ->
  Spec.similarity (Built.temperature d_k)
    (heads n_heads B N d_k (linear_t (w_qs sd n_heads d_model d_k) vq))
    (heads n_heads B N d_k (linear_t (w_ks sd n_heads d_model d_k) vk)) b h i l
  = sumR d_k (fun d =>
      (elem (linear_t (w_qs sd n_heads d_model d_k) vq) [b; i; (h * d_k + d)%nat]
       / sqrt (INR d_k)
       * elem (linear_t (w_ks sd n_heads d_model d_k) vk) [b; l; (h * d_k + d)%nat])%R).
Proof.
  intros Sq Sk Hh Hi Hl. unfold Spec.similarity. cbn [shape heads transpose_v view_v].
  change (last_of (swap_at 1 2 [B; N; n_heads; d_k])) with d_k.
  apply sumR_ext. intros d Hd. rewrite temperature_sqrt.
  rewrite !heads_elem; try assumption; try reflexivity;
    cbn [shape linear_t]; [rewrite Sk | rewrite Sq]; reflexivity.
Qed.

End AttentionRows.

(** ** Runs that return went through every step *)

Section EmptyInput.

Import Torch.

Local Tactic Notation "skip_in" hyp(H) :=
  let a := fresh "a" in let s := fresh "s" in let H1 := fresh "H1" in
  apply bind_inv in H as (a & s & H1 & H); clear H1.

(** A run of the attention block that returns went through
    [view(batch_size, n_steps, -1)]: the sizes read from [q] are positive. *)
Lemma MultiHeadAttention_run_nonempty self q k v attn_mask st r st' :
  run (MultiHeadAttention_forward self q k v attn_mask) st = (Ok r, st') ->
  exists vq B N,
    read st q = Some vq /\ shape vq !! 0 = Some B /\ shape vq !! 1 = Some N
    /\ 0 < B /\ 0 < N.
Proof.
  intros H. unfold run, MultiHeadAttention_forward in H.
  apply bind_inv in H as (B & sa & H1 & H). apply size_inv in H1 as (-> & vq & Rq & SB).
  apply bind_inv in H as (N & sb & H1 & H). apply size_inv in H1 as (-> & vq' & Rq' & SN).
  rewrite Rq in Rq'. injection Rq' as <-.
  do 20 skip_in H.
  apply bind_inv in H as ([v' w'] & sc & H1 & H). clear H1.
  do 2 skip_in H.
  apply bind_inv in H as (o & sd & H1 & H). apply view_inv in H1 as (-> & vo & sz & _ & I).
  change [Z.of_nat B; Z.of_nat N; (-1)%Z] with ((Z.of_nat <$> [B; N]) ++ [(-1)%Z]) in I.
  rewrite infer_size_last in I.
  destruct (0 <? numel_of [B; N]) eqn:E; [|discriminate I].
  apply Nat.ltb_lt in E. cbn [numel_of fold_right] in E.
  exists vq, B, N. repeat split; try assumption; nia.
Qed.

End EmptyInput.

(** ** Argument binding *)

Section Binding.

Lemma fill_rest_missing rest kwargs x :
  In (x, None) rest -> assoc x kwargs = None ->
  fill_rest rest kwargs = Raise TypeError.
Proof.
  intros Hin Hx. induction rest as [|[y d] rest IH]; [destruct Hin|].
  simpl. destruct Hin as [[= -> ->]|Hin].
  - rewrite Hx. reflexivity.
  - specialize (IH Hin).
    destruct (assoc y kwargs) as [v|]; [|destruct d as [v|]];
      rewrite ?IH; reflexivity.
Qed.

Lemma bind_args_missing sig args kwargs x :
  In (x, None) (drop (length args) sig) -> assoc x kwargs = None ->
  bind_args sig args kwargs = Raise TypeError.
Proof.
  intros Hin Hx. unfold bind_args.
  destruct (length sig <? length args); [reflexivity|].
  destruct (_ && _); [|reflexivity].
  rewrite (fill_rest_missing _ _ x Hin Hx). reflexivity.
Qed.

End Binding.

(** ** Outcomes: a prefix that returns, then any end *)

Section Outcomes.

Lemma outcome_bind {A B} (m : M A) (k : A -> M B) st Q :
  wp m st (fun a s => outcome (k a) s Q) -> outcome (bind m k) st Q.
Proof.
  unfold wp, outcome, bind. destruct (m st) as [[a|e] s]; [auto|contradiction].
Qed.

Lemma outcome_run {A} (m : M A) st Q :
  outcome m st Q -> exists r st', run m st = (r, st') /\ Q r st'.
Proof. unfold outcome, run. destruct (m st) as [r s]. simpl. eauto. Qed.

End Outcomes.

(** ** The positional table at its bounds *)

Section PositionalEdges.

Import Torch.

Lemma PositionalEncoding_init_empty d_hid st :
  run (PositionalEncoding_init d_hid 0) st = (Raise IndexError, st).
Proof. reflexivity. Qed.

Lemma PositionalEncoding_init_returns d_hid n_position st :
  0 < n_position ->
  exists self st', run (PositionalEncoding_init d_hid n_position) st = (Ok self, st').
Proof.
  intros Hn.
  assert (W : wp (PositionalEncoding_init d_hid n_position) st (fun _ _ => True)).
  { unfold PositionalEncoding_init. apply wp_bind.
    apply wp_get_sinusoid_encoding_table; [exact Hn|]. intros. apply wp_ret. exact I. }
  apply wp_run in W as (self & st' & H & _). eauto.
Qed.

Lemma broadcast_shapes_steps_None B N D n D' :
  n < N -> 1 < n -> broadcast_shapes [B; N; D] [1; n; D'] = None.
Proof.
  intros Hlt Hne. unfold broadcast_shapes. cbn [rev app broadcast_rev].
  assert (E1 : (N =? n) = false) by (apply Nat.eqb_neq; lia).
  assert (E2 : (N =? 1) = false) by (apply Nat.eqb_neq; lia).
  assert (E3 : (n =? 1) = false) by (apply Nat.eqb_neq; lia).
  rewrite E1, E2, E3.
  destruct (D =? D'); [reflexivity|].
  destruct (D =? 1); [reflexivity|]. destruct (D' =? 1); reflexivity.
Qed.

(** A sequence longer than the table, against a table of sizes
    [1, n_position, Dm]. *)
Lemma PositionalEncoding_forward_long tbl x vx vt st B N D Dm n_position :
  read st tbl = Some vt -> shape vt = [1; n_position; Dm] ->
  read st x = Some vx -> shape vx = [B; N; D] ->
  n_position < N -> 1 < n_position ->
  exists st',
    run (PositionalEncoding_forward
           (OModule "PositionalEncoding" [("pos_table", OTensor tbl)]) x) st
    = (Raise RuntimeError, st') /\ ext st st'.
Proof.
  intros Rt St Rx Sx Hlt Hne.
  assert (O : outcome (PositionalEncoding_forward
                         (OModule "PositionalEncoding" [("pos_table", OTensor tbl)]) x) st
                (fun r st' => r = Raise RuntimeError /\ ext st st')).
  { unfold PositionalEncoding_forward.
    apply outcome_bind. apply wp_bind. eapply wp_getattr; [reflexivity|].
    cbn [as_tensor]. apply wp_ret.
    apply outcome_bind. eapply wp_size; [exact Rx | rewrite Sx; reflexivity |].
    apply outcome_bind. eapply wp_narrow1; [exact Rt | unfold rank; rewrite St; simpl; lia |].
    intros h1 R1 _ _.
    apply outcome_bind. eapply wp_clone; [exact R1|]. intros h2 s2 (E2 & R2 & _) _.
    apply outcome_bind. eapply wp_detach; [exact R2|]. intros h3 R3 _ _.
    unfold outcome, add, bind, value, lift.
    rewrite (read_ext _ _ _ _ E2 Rx), R3. unfold add_v.
    cbn [shape narrow1_v]. rewrite Sx, St.
    rewrite Nat.min_r by lia.
    rewrite broadcast_shapes_steps_None by assumption.
    simpl. split; [reflexivity | exact E2]. }
  apply outcome_run in O as (r & st' & Hrun & -> & E). eauto.
Qed.

End PositionalEdges.

Section SinusoidFacts.

Lemma angle_zero d i : Spec.angle d 0 i = 0%R.
Proof. unfold Spec.angle. simpl. unfold Rdiv. apply Rmult_0_l. Qed.

Lemma sinusoid_zero d i : Spec.sinusoid d 0 i = if Nat.even i then 0%R else 1%R.
Proof.
  unfold Spec.sinusoid. rewrite angle_zero. destruct (Nat.even i); [apply sin_0 | apply cos_0].
Qed.

Lemma sinusoid_range d pos i : (-1 <= Spec.sinusoid d pos i <= 1)%R.
Proof.
  unfold Spec.sinusoid. destruct (Nat.even i); [apply SIN_bound | apply COS_bound].
Qed.

Lemma sinusoid_pair d pos i :
  (Spec.sinusoid d pos (2 * i) * Spec.sinusoid d pos (2 * i)
   + Spec.sinusoid d pos (2 * i + 1) * Spec.sinusoid d pos (2 * i + 1) = 1)%R.
Proof.
  unfold Spec.sinusoid.
  rewrite Nat.even_mul. cbn [Nat.even orb].
  replace (2 * i + 1) with (S (2 * i)) by lia.
  rewrite Nat.even_succ, <- Nat.negb_even, Nat.even_mul. cbn [Nat.even orb negb].
  assert (E : Spec.angle d pos (S (2 * i)) = Spec.angle d pos (2 * i)).
  { unfold Spec.angle. do 4 f_equal.
    replace (S (2 * i)) with (1 + i * 2) by lia. rewrite Nat.div_add by lia.
    replace (2 * i) with (i * 2) by lia. rewrite Nat.div_mul by lia. reflexivity. }
  rewrite E. pose proof (sin2_cos2 (Spec.angle d pos (2 * i))) as H.
  unfold Rsqr in H. exact H.
Qed.

(** The first pair of features turns at the rate of the position itself. *)
Lemma sinusoid_first d pos :
  Spec.sinusoid d pos 0 = sin (INR pos) /\ Spec.sinusoid d pos 1 = cos (INR pos).
Proof.
  assert (E : forall i, i < 2 -> Spec.angle d pos i = INR pos).
  { intros i Hi. unfold Spec.angle. rewrite Nat.div_small by exact Hi. simpl INR.
    replace (2 * 0 / INR d)%R with 0%R by (unfold Rdiv; ring).
    rewrite Rpower_O by lra. unfold Rdiv. rewrite Rinv_1. ring. }
  unfold Spec.sinusoid. cbn [Nat.even]. rewrite !E by lia. split; reflexivity.
Qed.

End SinusoidFacts.

Section SingleRow.

Import Torch.

Lemma broadcast_shapes_row B N D :
  0 < N -> broadcast_shapes [B; N; D] [1; 1; D] = Some [B; N; D].
Proof.
  intros HN. unfold broadcast_shapes. cbn [rev app broadcast_rev].
  rewrite Nat.eqb_refl. cbn [Nat.eqb].
  destruct (N =? 1) eqn:EN; [apply Nat.eqb_eq in EN; subst N|];
    (destruct (B =? 1) eqn:EB; [apply Nat.eqb_eq in EB; subst B|]); reflexivity.
Qed.

Lemma PositionalEncoding_forward_row tbl x vx vt st B N Dm
      (Q : handle -> State -> Prop) :
  read st tbl = Some vt -> shape vt = [1; 1; Dm] ->
  read st x = Some vx -> shape vx = [B; N; Dm] -> 0 < N ->
  (forall h st' vo,
      ext st st' -> read st' h = Some vo -> shape vo = [B; N; Dm] ->
      (forall b s j, b < B -> s < N -> j < Dm ->
         elem vo [b; s; j] = (elem vx [b; s; j] + elem vt [0%nat; 0%nat; j])%R) ->
      Q h st') ->
  wp (PositionalEncoding_forward
        (OModule "PositionalEncoding" [("pos_table", OTensor tbl)]) x) st Q.
Proof.
  intros Rt St Rx Sx HN HQ. unfold PositionalEncoding_forward.
  wp_attr.
  apply wp_bind. eapply wp_size; [exact Rx | rewrite Sx; reflexivity |].
  apply wp_bind. eapply wp_narrow1; [exact Rt | unfold rank; rewrite St; simpl; lia |].
  intros h1 R1 _ _.
  apply wp_bind. eapply wp_clone; [exact R1|]. intros h2 s2 (E2 & R2 & _) _.
  apply wp_bind. eapply wp_detach; [exact R2|]. intros h3 R3 G3 _.
  assert (Sn : shape (narrow1_v N vt) = [1; 1; Dm]).
  { cbn [shape narrow1_v]. rewrite St. rewrite Nat.min_r by lia. reflexivity. }
  eapply wp_add; [exact (read_ext _ _ _ _ E2 Rx) | exact R3 | |].
  { unfold add_v. rewrite Sx, Sn, broadcast_shapes_row by exact HN. reflexivity. }
  intros h4 s4 (E4 & R4 & _) G4.
  eapply (HQ h4 s4); [exact (ext_trans _ _ _ E2 E4) | exact R4 | reflexivity |].
  intros b s j Hb Hs Hj. cbn [elem add_t]. rewrite Sx, Sn.
  rewrite bidx_rank3 by assumption.
  unfold bidx. cbn [length Nat.sub drop zip_with Nat.eqb].
  rewrite (bsel Dm j Hj). reflexivity.
Qed.

End SingleRow.

(** ** Constructors *)

Section Constructors.

Lemma probability_bool p :
  Qle_bool 0 p && Qle_bool p 1 = true <-> probability p.
Proof.
  unfold probability. rewrite andb_true_iff, !Qle_bool_iff. reflexivity.
Qed.

Lemma nn_Dropout_ok p : probability p -> nn_Dropout p = Ok (mkDropout p true).
Proof.
  intros H. unfold nn_Dropout. apply probability_bool in H. rewrite H. reflexivity.
Qed.

Lemma nn_Dropout_err p : ~ probability p -> nn_Dropout p = Raise ValueError.
Proof.
  intros H. unfold nn_Dropout.
  destruct (Qle_bool 0 p && Qle_bool p 1) eqn:E; [|reflexivity].
  exfalso. apply H, probability_bool, E.
Qed.

Lemma probability_dec p : {probability p} + {~ probability p}.
Proof.
  destruct (Qle_bool 0 p && Qle_bool p 1) eqn:E.
  - left. apply probability_bool, E.
  - right. intros H. apply probability_bool in H. congruence.
Qed.

Lemma MultiHeadAttention_init_ok sd n_heads d_model d_k d_v dropout attn_dropout :
  probability dropout -> probability attn_dropout ->
  MultiHeadAttention_init sd n_heads d_model d_k d_v dropout attn_dropout
  = Ok (mha_module sd n_heads d_model d_k d_v dropout attn_dropout true).
Proof.
  intros Hd Ha. unfold MultiHeadAttention_init, ScaledDotProductAttention_init.
  rewrite (nn_Dropout_ok _ Ha), (nn_Dropout_ok _ Hd). reflexivity.
Qed.

Lemma MultiHeadAttention_init_err sd n_heads d_model d_k d_v dropout attn_dropout :
  ~ (probability dropout /\ probability attn_dropout) ->
  MultiHeadAttention_init sd n_heads d_model d_k d_v dropout attn_dropout
  = Raise ValueError.
Proof.
  intros H. unfold MultiHeadAttention_init, ScaledDotProductAttention_init.
  destruct (probability_dec attn_dropout) as [Ha|Ha].
  - rewrite (nn_Dropout_ok _ Ha). cbn [rbind].
    rewrite nn_Dropout_err; [reflexivity|tauto].
  - rewrite (nn_Dropout_err _ Ha). reflexivity.
Qed.

Lemma PositionWiseFeedForward_init_ok sd d_in d_hid dropout :
  probability dropout ->
  PositionWiseFeedForward_init sd d_in d_hid dropout
  = Ok (pwff_module sd d_in d_hid dropout true).
Proof.
  intros Hd. unfold PositionWiseFeedForward_init. rewrite (nn_Dropout_ok _ Hd). reflexivity.
Qed.

Lemma EncoderLayer_init_ok sd d_model d_inner n_head d_k d_v dropout attn_dropout :
  probability dropout -> probability attn_dropout ->
  EncoderLayer_init sd d_model d_inner n_head d_k d_v dropout attn_dropout
  = Ok (encoder_layer_module sd d_model d_inner n_head d_k d_v dropout attn_dropout true).
Proof.
  intros Hd Ha. unfold EncoderLayer_init.
  rewrite (MultiHeadAttention_init_ok _ _ _ _ _ _ _ Hd Ha),
    (PositionWiseFeedForward_init_ok _ _ _ _ Hd). reflexivity.
Qed.

Lemma EncoderLayer_init_err sd d_model d_inner n_head d_k d_v dropout attn_dropout :
  ~ (probability dropout /\ probability attn_dropout) ->
  EncoderLayer_init sd d_model d_inner n_head d_k d_v dropout attn_dropout
  = Raise ValueError.
Proof.
  intros H. unfold EncoderLayer_init.
  rewrite (MultiHeadAttention_init_err _ _ _ _ _ _ _ H). reflexivity.
Qed.

Lemma DecoderLayer_init_ok sd d_model d_inner n_head d_k d_v dropout attn_dropout :
  probability dropout -> probability attn_dropout ->
  exists self,
    DecoderLayer_init sd d_model d_inner n_head d_k d_v dropout attn_dropout = Ok self.
Proof.
  intros Hd Ha. unfold DecoderLayer_init.
  rewrite !(MultiHeadAttention_init_ok _ _ _ _ _ _ _ Hd Ha),
    (PositionWiseFeedForward_init_ok _ _ _ _ Hd). cbn [rbind]. eauto.
Qed.

Lemma DecoderLayer_init_err sd d_model d_inner n_head d_k d_v dropout attn_dropout :
  ~ (probability dropout /\ probability attn_dropout) ->
  DecoderLayer_init sd d_model d_inner n_head d_k d_v dropout attn_dropout
  = Raise ValueError.
Proof.
  intros H. unfold DecoderLayer_init.
  rewrite (MultiHeadAttention_init_err _ _ _ _ _ _ _ H). reflexivity.
Qed.

Lemma rmapM_ok {A B} (f : A -> Result B) l :
  (forall a, exists b, f a = Ok b) ->
  exists bs, rmapM f l = Ok bs /\ length bs = length l.
Proof.
  intros H. induction l as [|a l (bs & IH & L)]; [exists []; auto|].
  destruct (H a) as (b & Hb). exists (b :: bs). simpl. rewrite Hb. cbn [rbind].
  rewrite IH. simpl. auto.
Qed.

Lemma rmapM_err {A B} (f : A -> Result B) l e :
  l <> [] -> (forall a, f a = Raise e) -> rmapM f l = Raise e.
Proof.
  intros Hl H. destruct l as [|a l]; [contradiction|]. simpl. rewrite H. reflexivity.
Qed.

Lemma rmapM_length {A B} (f : A -> Result B) l bs :
  rmapM f l = Ok bs -> length bs = length l.
Proof.
  revert bs. induction l as [|a l IH]; intros bs H; simpl in H.
  - injection H as <-. reflexivity.
  - apply rbind_inv in H as (b & _ & H). apply rbind_inv in H as (bs' & Hb & [= <-]).
    simpl. rewrite (IH bs' Hb). reflexivity.
Qed.

(** The outcome of a stack constructor: dropout is validated first, the
    positional table is built next, the layers last. *)
Lemma stack_init_outcome (cls stack : string) (emb : Linear)
      (layer_init : nat -> Result Obj) n_layers n_steps d_model dropout attn_dropout st :
  (probability dropout -> probability attn_dropout ->
   forall i, exists l, layer_init i = Ok l) ->
  (probability dropout -> ~ probability attn_dropout ->
   forall i, layer_init i = Raise ValueError) ->
  match run (drop <- lift (nn_Dropout dropout) ;;
             position_enc <- PositionalEncoding_init d_model n_steps ;;
             layer_stack <- lift (rmapM layer_init (seq 0 n_layers)) ;;
             ret (OModule cls
                    [("embedding", OLinear emb);
                     ("dropout", ODropout drop);
                     ("position_enc", position_enc);
                     (stack, OList layer_stack)])) st with
  | (Ok self, st') =>
      probability dropout /\ 0 < n_steps /\ (0 < n_layers -> probability attn_dropout)
      /\ ext st st'
      /\ exists position_enc layers,
           length layers = n_layers
           /\ self = OModule cls
                       [("embedding", OLinear emb);
                        ("dropout", ODropout (mkDropout dropout true));
                        ("position_enc", position_enc);
                        (stack, OList layers)]
  | (Raise e, st') =>
      (e = ValueError /\ ~ probability dropout /\ st' = st)
      \/ (e = IndexError /\ probability dropout /\ n_steps = 0 /\ st' = st)
      \/ (e = ValueError /\ probability dropout /\ 0 < n_steps /\ 0 < n_layers
          /\ ~ probability attn_dropout)
  end.
Proof.
  intros Hok Herr. unfold run, bind, lift.
  destruct (probability_dec dropout) as [Hd|Hd].
  2:{ rewrite (nn_Dropout_err _ Hd). auto. }
  rewrite (nn_Dropout_ok _ Hd).
  destruct n_steps as [|n].
  { pose proof (PositionalEncoding_init_empty d_model st) as E0. unfold run in E0.
    rewrite E0. right. left. auto. }
  destruct (run (PositionalEncoding_init d_model (S n)) st) as [[pe|e] s1] eqn:Hpe.
  2:{ destruct (PositionalEncoding_init_returns d_model (S n) st (Nat.lt_0_succ n))
        as (pe & s1' & H'). congruence. }
  unfold run in Hpe. rewrite Hpe.
  apply PositionalEncoding_init_ok in Hpe as (_ & tbl & vt & -> & E & _).
  destruct (rmapM layer_init (seq 0 n_layers)) as [layers|e] eqn:Hl.
  - split; [exact Hd|]. split; [lia|]. split.
    + intros Hn. destruct (probability_dec attn_dropout) as [Ha|Ha]; [exact Ha|].
      exfalso. rewrite (rmapM_err layer_init _ ValueError) in Hl; [discriminate| |auto].
      destruct n_layers; [lia|discriminate].
    + split; [exact E|]. eexists _, layers. split; [|reflexivity].
      rewrite (rmapM_length _ _ _ Hl). apply length_seq.
  - right. right.
    destruct (probability_dec attn_dropout) as [Ha|Ha].
    { destruct (rmapM_ok layer_init (seq 0 n_layers) (Hok Hd Ha)) as (bs & Hbs & _).
      congruence. }
    destruct n_layers as [|m]; [discriminate Hl|].
    rewrite (rmapM_err layer_init _ ValueError) in Hl; [|discriminate|auto].
    injection Hl as <-.
    split; [reflexivity|]. split; [exact Hd|]. split; [lia|]. split; [lia|exact Ha].
Qed.

End Constructors.

(** ** The stages of the encoder *)

Section EncoderInput.

Import Torch.

Lemma linear_v_err L v :
  shape v = [] \/ last_of (shape v) <> in_features L -> linear_v L v = Raise RuntimeError.
Proof.
  unfold linear_v. intros [H|H].
  - rewrite H. reflexivity.
  - destruct (shape v) as [|a s]; [reflexivity|].
    apply Nat.eqb_neq in H. rewrite H. reflexivity.
Qed.

End EncoderInput.

Section RowWise.

Lemma layer_norm_ext n e gamma beta y y' j :
  (forall l, l < n -> y l = y' l) -> j < n ->
  Spec.layer_norm n e gamma beta y j = Spec.layer_norm n e gamma beta y' j.
Proof.
  intros H Hj. unfold Spec.layer_norm.
  assert (M : Spec.mean n y = Spec.mean n y').
  { unfold Spec.mean. rewrite (sumR_ext n y y' H). reflexivity. }
  assert (V : Spec.variance n y = Spec.variance n y').
  { unfold Spec.variance. rewrite M. f_equal. apply sumR_ext.
    intros l Hl. rewrite (H l Hl). reflexivity. }
  rewrite M, V, (H j Hj). reflexivity.
Qed.

Lemma linear_t_elem3 L t b n j :
  elem (linear_t L t) [b; n; j]
  = (sumR (in_features L) (fun l => elem t [b; n; l] * elem (weight L) [j; l])
     + match bias L with Some c => elem c [j] | None => 0 end)%R.
Proof. reflexivity. Qed.

(** The feed-forward branch at one position reads the input at that
    position only. *)
Lemma pwff_branch_row L1 L2 x x' b n b' n' j :
  (forall l, l < in_features L1 -> elem x [b; n; l] = elem x' [b'; n'; l]) ->
  elem (linear_t L2 (relu_v (linear_t L1 x))) [b; n; j]
  = elem (linear_t L2 (relu_v (linear_t L1 x'))) [b'; n'; j].
Proof.
  intros H. rewrite !linear_t_elem3. f_equal. apply sumR_ext. intros m _.
  f_equal. cbn [elem relu_v]. f_equal. rewrite !linear_t_elem3. f_equal.
  apply sumR_ext. intros l Hl. rewrite (H l Hl). reflexivity.
Qed.

End RowWise.

Section EncoderStages.

Import Torch.

Variable sd : StateDict.
Variables n_layers n_steps n_features d_model d_inner n_heads d_k d_v : nat.
Variables dropout attn_dropout : Q.
Variable mode : bool.

Local Abbreviation embedding := (nn_Linear (sub_dict sd "embedding") n_features d_model true).

(** The stages of [Encoder.forward]: embedding, positional encoding,
    dropout, then the layers. *)
Lemma Encoder_forward_stages self st0 st1 st x vx src_mask vmask B N :
  run (Encoder_init sd n_layers n_steps n_features d_model d_inner n_heads d_k d_v
         dropout attn_dropout) st0 = (Ok self, st1) ->
  ext st1 st ->
  read st x = Some vx -> shape vx = [B; N; n_features] ->
  0 < B -> 0 < N -> N <= n_steps ->
  read_opt st src_mask = Some vmask ->
  match vmask with Some m => 1 <= rank m | None => True end ->
  mask_fits [B; n_heads; N; N] (unsqueeze_v 1 <$> vmask) ->
  exists xn ws st' x0 s0 keep pre,
    (forall flag,
       run (Encoder_forward (Module_train mode self) x src_mask flag) st
       = (Ok (if flag then OTuple [OTensor xn; OList ws] else OTensor xn), st'))
    /\ read s0 x0 = Some (dropout_t (mkDropout dropout mode) keep pre)
    /\ shape pre = [B; N; d_model]
    /\ (forall b s j, b < B -> s < N -> j < d_model ->
          elem pre [b; s; j]
          = (elem (linear_t embedding vx) [b; s; j] + Spec.sinusoid d_model s j)%R)
    /\ run (Encoder_loop (layers_of (Module_train mode self)) src_mask x0 []) s0
       = (Ok (xn, ws), st')
    /\ length (layers_of (Module_train mode self)) = n_layers.
Proof.
  intros Hinit Est Rx Sx HB HN HNs Rm Km Fm.
  pose proof Hinit as Htrain.
  apply (Encoder_train _ _ _ _ _ _ _ _ _ _ _ mode) in Htrain
    as (Hpos & tbl & vt & Htrain & _ & Rt & St).
  apply Encoder_init_inv in Hinit as (pe & stack & Hpe & _ & Hself).
  apply PositionalEncoding_init_ok in Hpe as (_ & tbl' & vt' & Epe & _ & Rt' & _ & Vt & _).
  assert (tbl' = tbl).
  { subst self pe. cbn [Module_train List.map] in Htrain. congruence. }
  subst tbl'. rewrite Rt in Rt'. injection Rt' as <-. clear Hself Epe pe stack.
  rewrite Htrain.
  (* the embedding *)
  assert (W1 : wp (Linear_forward embedding x) st
                 (fun h s => ext st s /\ read s h = Some (linear_t embedding vx))).
  { eapply wp_Linear; [exact Rx | apply (linear_v_ok embedding vx [B; N] Sx) |].
    intros h s (E & R & _). auto. }
  apply wp_run in W1 as (h1 & s1 & Run1 & E1 & R1).
  (* the positional encoding *)
  assert (W2 : wp (PositionalEncoding_forward
                     (OModule "PositionalEncoding" [("pos_table", OTensor tbl)]) h1) s1
                 (fun h s => exists v, ext s1 s /\ read s h = Some v
                     /\ shape v = [B; N; d_model]
                     /\ forall b s j, b < B -> s < N -> j < d_model ->
                          elem v [b; s; j]
                          = (elem (linear_t embedding vx) [b; s; j]
                             + Spec.sinusoid d_model s j)%R)).
  { eapply (wp_PositionalEncoding_forward _ _ _ vt _ B N d_model n_steps);
      [exact (read_ext _ _ _ _ (ext_trans _ _ _ Est E1) Rt) | exact St | exact R1
      | cbn [shape linear_t]; rewrite Sx; reflexivity | exact HNs |].
    intros h s vo E R S V _. exists vo. repeat (split; [assumption|]).
    intros b s' j Hb Hs Hj. rewrite (V b s' j Hb Hs Hj), Vt by lia. reflexivity. }
  apply wp_run in W2 as (h2 & s2 & Run2 & v2 & E2 & R2 & S2 & V2).
  (* dropout *)
  assert (W3 : wp (Dropout_forward (mkDropout dropout mode) h2) s2
                 (fun h s => exists keep, ext s2 s
                     /\ read s h = Some (dropout_t (mkDropout dropout mode) keep v2))).
  { eapply wp_Dropout; [exact R2|]. intros h s keep E R _. eauto. }
  apply wp_run in W3 as (h3 & s3 & Run3 & keep & E3 & R3).
  pose proof (ext_trans _ _ _ E1 (ext_trans _ _ _ E2 E3)) as X3.
  (* the layers *)
  destruct (Encoder_loop_chain sd d_model d_inner n_heads d_k d_v dropout attn_dropout mode
              src_mask vmask B N HB HN Km Fm (seq 0 n_layers)
              h3 _ [] s3 R3 (eq_trans (dropout_t_shape _ _ _) S2)
              (read_opt_ext _ _ _ _ X3 Rm))
    as (xn & ws & st' & vn & Runl & _).
  exists xn, ws, st', h3, s3, keep, v2.
  split.
  { intros flag. unfold Encoder_forward, run, bind in *.
    cbn [getattr assoc String.eqb Ascii.eqb Bool.eqb ret call_Linear call_Dropout
         as_list]. rewrite Run1. cbn beta iota.
    rewrite PositionalEncoding_call_eq by reflexivity. rewrite Run2. cbn beta iota.
    rewrite Run3. cbn beta iota. rewrite Runl. cbn beta iota.
    destruct flag; reflexivity. }
  split; [exact R3|]. split; [exact S2|]. split; [exact V2|].
  cbn [layers_of assoc String.eqb Ascii.eqb Bool.eqb].
  split; [exact Runl|]. rewrite length_map, length_seq. reflexivity.
Qed.

End EncoderStages.

(** ** Evaluation mode *)

Section Calm.

Import Torch.

Lemma calm_bind {A B} (m : M A) (k : A -> M B) (Q : A -> Prop) (Q' : B -> Prop) :
  calm m Q -> (forall a, Q a -> calm (k a) Q') -> calm (bind m k) Q'.
Proof.
  intros Hm Hk st. unfold bind. destruct (Hm st) as [T R].
  destruct (m st) as [[a|e] s1]; simpl in *; [|auto].
  destruct (Hk a R s1) as [T' R']. split; [congruence | exact R'].
Qed.

Lemma calm_ret {A} (a : A) (Q : A -> Prop) : Q a -> calm (ret a) Q.
Proof. intros H st. simpl. auto. Qed.

Lemma calm_raise {A} e (Q : A -> Prop) : calm (@raise A e) Q.
Proof. intros st. simpl. auto. Qed.

Lemma calm_true {A} (m : M A) (Q : A -> Prop) : calm m Q -> calm m (fun _ => True).
Proof. intros H st. destruct (H st) as [T _]. split; [exact T|]. destruct (m st).1; exact I. Qed.

Ltac calm_unfold :=
  intros st;
  unfold size, div, eq, add, iadd, matmul, masked_fill, transpose, unsqueeze, narrow1,
    contiguous, clone, detach, view, softmax, relu, Linear_forward, LayerNorm_forward,
    bind, value, lift, fresh, write, ret, raise;
  repeat (match goal with
          | |- context [match ?x with _ => _ end] =>
              lazymatch x with
              | context [match _ with _ => _ end] => fail
              | _ => destruct x
              end
          end; cbn [fst snd tick alloc]);
  auto.

Lemma calm_size x d : calm (size x d) (fun _ => True).
Proof. calm_unfold. Qed.
Lemma calm_div x c : calm (div x c) (fun _ => True).
Proof. calm_unfold. Qed.
Lemma calm_eq x c : calm (eq x c) (fun _ => True).
Proof. calm_unfold. Qed.
Lemma calm_add a b : calm (add a b) (fun _ => True).
Proof. calm_unfold. Qed.
Lemma calm_iadd a b : calm (iadd a b) (fun _ => True).
Proof. calm_unfold. Qed.
Lemma calm_matmul a b : calm (matmul a b) (fun _ => True).
Proof. calm_unfold. Qed.
Lemma calm_masked_fill t m c : calm (masked_fill t m c) (fun _ => True).
Proof. calm_unfold. Qed.
Lemma calm_transpose x d1 d2 : calm (transpose x d1 d2) (fun _ => True).
Proof. calm_unfold. Qed.
Lemma calm_unsqueeze x d : calm (unsqueeze x d) (fun _ => True).
Proof. calm_unfold. Qed.
Lemma calm_narrow1 x n : calm (narrow1 x n) (fun _ => True).
Proof. calm_unfold. Qed.
Lemma calm_contiguous x : calm (contiguous x) (fun _ => True).
Proof. calm_unfold. Qed.
Lemma calm_clone x : calm (clone x) (fun _ => True).
Proof. calm_unfold. Qed.
Lemma calm_detach x : calm (detach x) (fun _ => True).
Proof. calm_unfold. Qed.
Lemma calm_view x dims : calm (view x dims) (fun _ => True).
Proof. calm_unfold. Qed.
Lemma calm_softmax x : calm (softmax x) (fun _ => True).
Proof. calm_unfold. Qed.
Lemma calm_relu x : calm (relu x) (fun _ => True).
Proof. calm_unfold. Qed.
Lemma calm_lift {A} (r : Result A) : calm (lift r) (fun _ => True).
Proof. calm_unfold. Qed.

Lemma calm_as_tensor o : calm (as_tensor o) (fun _ => True).
Proof. destruct o; simpl; (apply calm_raise || (apply calm_ret; exact I)). Qed.
Lemma calm_as_opt_tensor o : calm (as_opt_tensor o) (fun _ => True).
Proof. destruct o; simpl; (apply calm_raise || (apply calm_ret; exact I)). Qed.
Lemma calm_as_int o : calm (as_int o) (fun _ => True).
Proof. destruct o; simpl; (apply calm_raise || (apply calm_ret; exact I)). Qed.
Lemma calm_as_float o : calm (as_float o) (fun _ => True).
Proof. destruct o; simpl; (apply calm_raise || (apply calm_ret; exact I)). Qed.

Lemma calm_call_Linear o x : calm (call_Linear o x) (fun _ => True).
Proof. destruct o; simpl; try apply calm_raise. calm_unfold. Qed.
Lemma calm_call_LayerNorm o x : calm (call_LayerNorm o x) (fun _ => True).
Proof. destruct o; simpl; try apply calm_raise. calm_unfold. Qed.

(** In evaluation mode a dropout module returns its input. *)
Lemma calm_call_Dropout o x : in_eval o -> calm (call_Dropout o x) (fun _ => True).
Proof.
  intros [o' ->]. destruct o'; simpl; try apply calm_raise.
  intros st. unfold Dropout_forward, bind, value. cbn [training negb orb].
  destruct (read st x); simpl; auto.
Qed.

Lemma assoc_train name attrs :
  assoc name (List.map (fun kv : string * Obj =>
                          match kv with (k, v) => (k, Module_train false v) end) attrs)
  = Module_train false <$> assoc name attrs.
Proof.
  induction attrs as [|[k v] attrs IH]; [reflexivity|]. simpl.
  destruct (String.eqb name k); [reflexivity | exact IH].
Qed.

(** The attributes of a module in evaluation mode are in evaluation mode. *)
Lemma calm_getattr o name : in_eval o -> calm (getattr o name) in_eval.
Proof.
  intros [o' ->]. destruct o'; simpl; try apply calm_raise.
  rewrite assoc_train. destruct (assoc name attrs) as [v|]; simpl;
    [apply calm_ret; exists v; reflexivity | apply calm_raise].
Qed.

Lemma calm_as_list o : in_eval o -> calm (as_list o) (Forall in_eval).
Proof.
  intros [o' ->]. destruct o'; simpl; try apply calm_raise.
  apply calm_ret. induction l as [|y l IH]; constructor; [exists y; reflexivity | exact IH].
Qed.

End Calm.

Ltac calm_prim :=
  lazymatch goal with
  | |- calm (raise _) _ => apply calm_raise
  | |- calm (ret _) _ => apply calm_ret; exact I
  | |- calm (lift _) _ => apply calm_lift
  | |- calm (call_Linear _ _) _ => apply calm_call_Linear
  | |- calm (call_LayerNorm _ _) _ => apply calm_call_LayerNorm
  | |- calm (call_Dropout _ _) _ => apply calm_call_Dropout; assumption
  | |- calm (Torch.relu _) _ => apply calm_relu
  | |- calm (Torch.softmax _) _ => apply calm_softmax
  | |- calm (Torch.div _ _) _ => apply calm_div
  | |- calm (Torch.eq _ _) _ => apply calm_eq
  | |- calm (Torch.clone _) _ => apply calm_clone
  | |- calm (Torch.matmul _ _) _ => apply calm_matmul
  | |- calm (Torch.add _ _) _ => apply calm_add
  | |- calm (Torch.iadd _ _) _ => apply calm_iadd
  | |- calm (Torch.masked_fill _ _ _) _ => apply calm_masked_fill
  | |- calm (Torch.size _ _) _ => apply calm_size
  | |- calm (Torch.transpose _ _ _) _ => apply calm_transpose
  | |- calm (Torch.unsqueeze _ _) _ => apply calm_unsqueeze
  | |- calm (Torch.narrow1 _ _) _ => apply calm_narrow1
  | |- calm (Torch.view _ _) _ => apply calm_view
  | |- calm (Torch.detach _) _ => apply calm_detach
  | |- calm (Torch.contiguous _) _ => apply calm_contiguous
  | |- calm (getattr _ _) _ => apply calm_getattr; assumption
  | |- calm (as_tensor _) _ => apply calm_as_tensor
  | |- calm (as_opt_tensor _) _ => apply calm_as_opt_tensor
  | |- calm (as_int _) _ => apply calm_as_int
  | |- calm (as_float _) _ => apply calm_as_float
  | |- calm (as_list _) _ => apply calm_as_list; assumption
  | |- calm (bind (getattr _ _) _) _ =>
      eapply calm_bind; [apply calm_getattr; assumption | intros ? ?; calm_prim]
  end.

Ltac calm_go :=
  repeat (lazymatch goal with |- calm (bind _ _) _ => idtac end;
          eapply calm_bind;
          [calm_prim | let H := fresh "H" in intros ? H]).

Section CalmForward.

Lemma calm_SDPA_forward self q k v attn_mask :
  in_eval self ->
  calm (ScaledDotProductAttention_forward self q k v attn_mask) (fun _ => True).
Proof.
  intros He. unfold ScaledDotProductAttention_forward. calm_go.
  eapply (calm_bind _ _ (fun _ => True)).
  { destruct attn_mask as [m|]; [|apply calm_ret; exact I]. calm_go. calm_prim. }
  intros ? _. calm_go. calm_prim.
Qed.

Lemma calm_SDPA_call self args kwargs :
  in_eval self ->
  calm (ScaledDotProductAttention_call self args kwargs) (fun _ => True).
Proof.
  intros He. unfold ScaledDotProductAttention_call.
  destruct (is_instance self "ScaledDotProductAttention"); [|apply calm_raise].
  calm_go. apply calm_SDPA_forward. exact He.
Qed.

Lemma calm_MHA_forward self q k v attn_mask :
  in_eval self ->
  calm (MultiHeadAttention_forward self q k v attn_mask) (fun _ => True).
Proof.
  intros He. unfold MultiHeadAttention_forward. calm_go.
  eapply (calm_bind _ _ (fun _ => True)).
  { destruct attn_mask as [m|]; [|apply calm_ret; exact I]. calm_go. calm_prim. }
  intros mask' _. calm_go.
  eapply calm_bind; [apply calm_SDPA_call; assumption|]. intros [v' w] _. calm_go.
  calm_prim.
Qed.

Lemma calm_MHA_call self args kwargs :
  in_eval self ->
  calm (MultiHeadAttention_call self args kwargs) (fun _ => True).
Proof.
  intros He. unfold MultiHeadAttention_call.
  destruct (is_instance self "MultiHeadAttention"); [|apply calm_raise].
  calm_go. apply calm_MHA_forward. exact He.
Qed.

Lemma calm_PWFF_forward self x :
  in_eval self -> calm (PositionWiseFeedForward_forward self x) (fun _ => True).
Proof.
  intros He. unfold PositionWiseFeedForward_forward. calm_go. calm_prim.
Qed.

Lemma calm_PWFF_call self args kwargs :
  in_eval self -> calm (PositionWiseFeedForward_call self args kwargs) (fun _ => True).
Proof.
  intros He. unfold PositionWiseFeedForward_call.
  destruct (is_instance self "PositionWiseFeedForward"); [|apply calm_raise].
  calm_go. apply calm_PWFF_forward. exact He.
Qed.

Lemma calm_EncoderLayer_forward self enc_input src_mask :
  in_eval self -> calm (EncoderLayer_forward self enc_input src_mask) (fun _ => True).
Proof.
  intros He. unfold EncoderLayer_forward. calm_go.
  eapply calm_bind; [apply calm_MHA_call; assumption|]. intros [o w] _. calm_go.
  eapply calm_bind; [apply calm_PWFF_call; assumption|]. intros o' _.
  apply calm_ret. exact I.
Qed.

Lemma calm_EncoderLayer_call self args kwargs :
  in_eval self -> calm (EncoderLayer_call self args kwargs) (fun _ => True).
Proof.
  intros He. unfold EncoderLayer_call.
  destruct (is_instance self "EncoderLayer"); [|apply calm_raise].
  calm_go. apply calm_EncoderLayer_forward. exact He.
Qed.

Lemma calm_DecoderLayer_forward self dec_input enc_output m1 m2 :
  in_eval self ->
  calm (DecoderLayer_forward self dec_input enc_output m1 m2) (fun _ => True).
Proof.
  intros He. unfold DecoderLayer_forward. calm_go.
  eapply calm_bind; [apply calm_MHA_call; assumption|]. intros [o w] _. calm_go.
  eapply calm_bind; [apply calm_MHA_call; assumption|]. intros [o1 w1] _. calm_go.
  eapply calm_bind; [apply calm_PWFF_call; assumption|]. intros o' _.
  apply calm_ret. exact I.
Qed.

Lemma calm_DecoderLayer_call self args kwargs :
  in_eval self -> calm (DecoderLayer_call self args kwargs) (fun _ => True).
Proof.
  intros He. unfold DecoderLayer_call.
  destruct (is_instance self "DecoderLayer"); [|apply calm_raise].
  calm_go. apply calm_DecoderLayer_forward. exact He.
Qed.

Lemma calm_PositionalEncoding_forward self x :
  in_eval self -> calm (PositionalEncoding_forward self x) (fun _ => True).
Proof.
  intros He. unfold PositionalEncoding_forward.
  eapply (calm_bind _ _ (fun _ => True)); [eapply calm_true; calm_prim|].
  intros t _. calm_go. calm_prim.
Qed.

Lemma calm_PositionalEncoding_call self args kwargs :
  in_eval self -> calm (PositionalEncoding_call self args kwargs) (fun _ => True).
Proof.
  intros He. unfold PositionalEncoding_call.
  destruct (is_instance self "PositionalEncoding"); [|apply calm_raise].
  calm_go. apply calm_PositionalEncoding_forward. exact He.
Qed.

Lemma calm_Encoder_loop layers src_mask enc_output collector :
  Forall in_eval layers ->
  calm (Encoder_loop layers src_mask enc_output collector) (fun _ => True).
Proof.
  intros Hl. revert enc_output collector.
  induction Hl as [|layer rest He _ IH]; intros; simpl.
  - apply calm_ret. exact I.
  - eapply calm_bind; [apply calm_EncoderLayer_call; exact He|]. intros [o w] _. apply IH.
Qed.

Lemma calm_Encoder_forward self x src_mask flag :
  in_eval self -> calm (Encoder_forward self x src_mask flag) (fun _ => True).
Proof.
  intros He. unfold Encoder_forward. calm_go.
  eapply calm_bind; [apply calm_PositionalEncoding_call; assumption|]. intros x' _.
  calm_go.
  eapply calm_bind; [apply calm_Encoder_loop; assumption|]. intros [o c] _.
  destruct flag; apply calm_ret; exact I.
Qed.

Lemma calm_Decoder_loop layers enc_output m1 m2 dec_output c1 c2 :
  Forall in_eval layers ->
  calm (Decoder_loop layers enc_output m1 m2 dec_output c1 c2) (fun _ => True).
Proof.
  intros Hl. revert dec_output c1 c2.
  induction Hl as [|layer rest He _ IH]; intros; simpl.
  - apply calm_ret. exact I.
  - eapply calm_bind; [apply calm_DecoderLayer_call; exact He|].
    intros [[o w1] w2] _. apply IH.
Qed.

Lemma calm_Decoder_forward self trg enc_output m1 m2 flag :
  in_eval self -> calm (Decoder_forward self trg enc_output m1 m2 flag) (fun _ => True).
Proof.
  intros He. unfold Decoder_forward. calm_go.
  eapply calm_bind; [apply calm_PositionalEncoding_call; assumption|]. intros x' _.
  calm_go.
  eapply calm_bind; [apply calm_Decoder_loop; assumption|]. intros [[o c1] c2] _.
  destruct flag; apply calm_ret; exact I.
Qed.

End CalmForward.

(** ** Dropout of probability 0 *)

Section SameRun.

Import Torch.

Lemma same_refl {A} (m : M A) : same_run m m.
Proof. intros st. reflexivity. Qed.

Lemma same_bind {A B} (m m' : M A) (k k' : A -> M B) :
  same_run m m' -> (forall a, same_run (k a) (k' a)) ->
  same_run (bind m k) (bind m' k').
Proof.
  intros Hm Hk st. unfold bind. rewrite Hm.
  destruct (m' st) as [[a|e] s]; [apply Hk | reflexivity].
Qed.

Lemma same_getattr {B} c c' attrs attrs' name v v' (k k' : Obj -> M B) :
  assoc name attrs = Some v -> assoc name attrs' = Some v' ->
  same_run (k v) (k' v') ->
  same_run (bind (getattr (OModule c attrs) name) k)
           (bind (getattr (OModule c' attrs') name) k').
Proof.
  intros E E' H st. unfold bind, getattr. rewrite E, E'. apply H.
Qed.

Lemma same_getattr_then {A B} c c' attrs attrs' name v v'
      (f f' : Obj -> M A) (k k' : A -> M B) :
  assoc name attrs = Some v -> assoc name attrs' = Some v' ->
  same_run (bind (f v) k) (bind (f' v') k') ->
  same_run (bind (bind (getattr (OModule c attrs) name) f) k)
           (bind (bind (getattr (OModule c' attrs') name) f') k').
Proof.
  intros E E' H st. specialize (H st). unfold bind, getattr in *. rewrite E, E'. exact H.
Qed.

Lemma same_ret {A B} (v v' : A) (k k' : A -> M B) :
  same_run (k v) (k' v') -> same_run (bind (ret v) k) (bind (ret v') k').
Proof. intros H st. apply H. Qed.

(** A dropout module of probability 0 returns its input in both modes. *)
Lemma same_Dropout_zero pr x :
  Qeq_bool pr 0 = true ->
  same_run (Dropout_forward (mkDropout pr true) x) (Dropout_forward (mkDropout pr false) x).
Proof.
  intros H st. unfold Dropout_forward, bind, value. cbn [p training negb orb].
  destruct (read st x); [|reflexivity]. rewrite H. reflexivity.
Qed.

End SameRun.

Ltac same_step :=
  first
    [ apply same_bind; [solve [intros ?; reflexivity] | intros ?]
    | apply same_bind; [apply same_Dropout_zero; assumption | intros ?]
    | eapply same_getattr; [reflexivity | reflexivity |];
      cbn [call_Dropout] ].

Section ZeroDropout.

Variable sd : StateDict.
Variables n_layers n_steps n_features d_model d_inner n_heads d_k d_v : nat.
Variables dropout attn_dropout : Q.
Hypothesis dropout_zero : Qeq_bool dropout 0 = true.
Hypothesis attn_dropout_zero : Qeq_bool attn_dropout 0 = true.

Lemma same_SDPA_forward temperature q k v attn_mask :
  same_run
    (ScaledDotProductAttention_forward (sdpa_module temperature attn_dropout true)
       q k v attn_mask)
    (ScaledDotProductAttention_forward (sdpa_module temperature attn_dropout false)
       q k v attn_mask).
Proof.
  unfold ScaledDotProductAttention_forward, sdpa_module.
  repeat same_step. apply same_refl.
Qed.

Lemma same_MHA_forward q k v attn_mask :
  same_run
    (MultiHeadAttention_forward
       (mha_module sd n_heads d_model d_k d_v dropout attn_dropout true) q k v attn_mask)
    (MultiHeadAttention_forward
       (mha_module sd n_heads d_model d_k d_v dropout attn_dropout false) q k v attn_mask).
Proof.
  unfold MultiHeadAttention_forward, mha_module.
  do 21 same_step.
  eapply same_getattr; [reflexivity | reflexivity |].
  apply same_bind.
  { rewrite !SDPA_call_eq by reflexivity. apply same_SDPA_forward. }
  intros [v' w]. repeat same_step. apply same_refl.
Qed.

Lemma same_PWFF_forward sd' d_in d_hid x :
  same_run
    (PositionWiseFeedForward_forward (pwff_module sd' d_in d_hid dropout true) x)
    (PositionWiseFeedForward_forward (pwff_module sd' d_in d_hid dropout false) x).
Proof.
  unfold PositionWiseFeedForward_forward, pwff_module.
  repeat same_step. apply same_refl.
Qed.

End ZeroDropout.

Section ZeroDropoutLayers.

Variables n_layers n_steps n_features d_model d_inner n_heads d_k d_v : nat.
Variables dropout attn_dropout : Q.
Hypothesis dropout_zero : Qeq_bool dropout 0 = true.
Hypothesis attn_dropout_zero : Qeq_bool attn_dropout 0 = true.

Lemma same_EncoderLayer_forward sd x src_mask :
  same_run
    (EncoderLayer_forward
       (encoder_layer_module sd d_model d_inner n_heads d_k d_v dropout attn_dropout true)
       x src_mask)
    (EncoderLayer_forward
       (encoder_layer_module sd d_model d_inner n_heads d_k d_v dropout attn_dropout false)
       x src_mask).
Proof.
  unfold EncoderLayer_forward, encoder_layer_module.
  eapply same_getattr; [reflexivity | reflexivity |].
  apply same_bind.
  { rewrite !MHA_call_kw_eq by reflexivity.
    apply same_MHA_forward; assumption. }
  intros [o w].
  eapply same_getattr; [reflexivity | reflexivity |].
  apply same_bind.
  { rewrite !PWFF_call_eq by reflexivity. apply same_PWFF_forward; assumption. }
  intros o'. apply same_refl.
Qed.

Lemma same_Encoder_loop sd src_mask l :
  forall x collector,
    same_run
      (Encoder_loop
         (List.map (fun i => encoder_layer_module (layer_dict sd "enc_layer_stack" i)
                               d_model d_inner n_heads d_k d_v dropout attn_dropout true) l)
         src_mask x collector)
      (Encoder_loop
         (List.map (fun i => encoder_layer_module (layer_dict sd "enc_layer_stack" i)
                               d_model d_inner n_heads d_k d_v dropout attn_dropout false) l)
         src_mask x collector).
Proof.
  induction l as [|i l IH]; intros x collector; [apply same_refl|].
  cbn [List.map Encoder_loop]. apply same_bind.
  { rewrite !EncoderLayer_call_eq by reflexivity. apply same_EncoderLayer_forward. }
  intros [o w]. apply IH.
Qed.

End ZeroDropoutLayers.

Section ZeroDropoutEncoder.

Variable sd : StateDict.
Variables n_layers n_steps n_features d_model d_inner n_heads d_k d_v : nat.
Variables dropout attn_dropout : Q.

(** The module an encoder is, in either mode. *)
Lemma Encoder_train_modes self st0 st1 :
  run (Encoder_init sd n_layers n_steps n_features d_model d_inner n_heads d_k d_v
         dropout attn_dropout) st0 = (Ok self, st1) ->
  exists tbl, forall mode,
    Module_train mode self
    = OModule "Encoder"
        [("embedding", OLinear (nn_Linear (sub_dict sd "embedding") n_features d_model true));
         ("dropout", ODropout (mkDropout dropout mode));
         ("position_enc", OModule "PositionalEncoding" [("pos_table", OTensor tbl)]);
         ("enc_layer_stack",
          OList (List.map (fun i => encoder_layer_module (layer_dict sd "enc_layer_stack" i)
                                      d_model d_inner n_heads d_k d_v dropout attn_dropout mode)
                   (seq 0 n_layers)))].
Proof.
  intros H. apply Encoder_init_inv in H as (pe & stack & Hpe & Hstack & ->).
  apply PositionalEncoding_init_ok in Hpe as (_ & tbl & vt & -> & _).
  exists tbl. intros mode.
  cbn [Module_train List.map p].
  rewrite (rmapM_EncoderLayer_train _ _ _ _ _ _ _ _ mode _ _ Hstack). reflexivity.
Qed.

End ZeroDropoutEncoder.

(** * The claims *)

(** C8. [PositionWiseFeedForward.forward] on an input [x] of sizes
    [batch, steps, d_in] returns
    [LayerNorm(dropout(linear_2(relu(linear_1(x)))) + x)]: the residual
    term is the value of the input object [x], which the call leaves
    unchanged; the normalisation runs over the last axis with epsilon 1e-6
    and the learned scale and bias; the output has the sizes of the input. *)
Theorem PositionWiseFeedForward_forward_spec
  sd d_in d_hid dropout self mode st x vx B N :
  PositionWiseFeedForward_init sd d_in d_hid dropout = Ok self ->
  Torch.read st x = Some vx ->
  shape vx = [B; N; d_in] ->
  exists out st' keep vo,
    run (PositionWiseFeedForward_forward (Module_train mode self) x) st = (Ok out, st')
    /\ Torch.read st' out = Some vo
    /\ vo = layer_norm_t (pwff_norm sd d_in)
              (iadd_t (dropout_t (mkDropout dropout mode) keep
                         (linear_t (linear_2 sd d_in d_hid)
                            (relu_v (linear_t (linear_1 sd d_in d_hid) vx))))
                      vx)
    /\ shape vo = shape vx
    /\ (forall b n j, b < B -> n < N -> j < d_in ->
          elem vo [b; n; j]
          = Spec.layer_norm d_in 1e-6
              (fun c => elem (ln_weight (pwff_norm sd d_in)) [c])
              (fun c => elem (ln_bias (pwff_norm sd d_in)) [c])
              (fun l =>
                 (elem (dropout_t (mkDropout dropout mode) keep
                          (linear_t (linear_2 sd d_in d_hid)
                             (relu_v (linear_t (linear_1 sd d_in d_hid) vx))))
                       [b; n; l]
                  + elem vx [b; n; l])%R) j)
    /\ Torch.read st' x = Some vx
    /\ ext st st'.
Proof.
  intros Hinit Rx Sx.
  rewrite (PositionWiseFeedForward_init_train _ _ _ _ mode _ Hinit).
  assert (W : wp (PositionWiseFeedForward_forward (pwff_module sd d_in d_hid dropout mode) x)
                st (fun h st' => exists keep,
                      Torch.read st' h = Some (pwff_value sd d_in d_hid dropout mode keep vx)
                      /\ Torch.read st' x = Some vx /\ ext st st')).
  { eapply (wp_PWFF_forward _ _ _ _ _ _ _ [B; N]); [exact Rx | exact Sx |].
    intros h st' keep E R Rx'. eauto. }
  apply wp_run in W as (out & st' & Hrun & keep & Ro & Rx' & E).
  exists out, st', keep, (pwff_value sd d_in d_hid dropout mode keep vx).
  split; [exact Hrun|]. split; [exact Ro|]. split; [reflexivity|].
  split; [apply (pwff_value_shape _ _ _ _ _ _ _ [B; N]); exact Sx|].
  split; [|auto].
  intros b n j Hb Hn Hj. unfold pwff_value.
  apply (residual_norm_elem (pwff_norm sd d_in) _ _ B N d_in); try assumption.
  rewrite dropout_t_shape. cbn [shape linear_t relu_v]. rewrite Sx. reflexivity.
Qed.

Lemma PositionWiseFeedForward_forward_spec_witness :
  let x := Sample.obj 0 [1; 1; 2] in
  let st := Sample.state_of [Sample.zeros [1; 1; 2]] in
  PositionWiseFeedForward_init Sample.sd0 2 3 0 = Ok (pwff_module Sample.sd0 2 3 0 true)
  /\ Torch.read st x = Some (Sample.zeros [1; 1; 2])
  /\ exists out st',
       run (PositionWiseFeedForward_forward
              (Module_train false (pwff_module Sample.sd0 2 3 0 true)) x) st
       = (Ok out, st').
Proof.
  intros x st. split; [reflexivity|]. split; [reflexivity|].
  destruct (PositionWiseFeedForward_forward_spec Sample.sd0 2 3 0
              (pwff_module Sample.sd0 2 3 0 true) false st x (Sample.zeros [1; 1; 2]) 1 1
              eq_refl eq_refl eq_refl) as (out & st' & _ & _ & H & _).
  exists out, st'. exact H.
Defined.

Lemma ScaledDotProductAttention_init_train temperature attn_dropout mode self :
  ScaledDotProductAttention_init temperature attn_dropout = Ok self ->
  Module_train mode self = sdpa_module temperature attn_dropout mode.
Proof.
  intros H. apply ScaledDotProductAttention_init_inv in H. subst self. reflexivity.
Qed.

(** What a run of the attention on heads of sizes [B, H, Sq, D] (queries),
    [B, H, Sk, D] (keys) and [B, H, Sk, Dv] (values) returns. *)
Lemma ScaledDotProductAttention_forward_run
  temperature attn_dropout mode st q k v attn_mask vq vk vv vmask B H Sq Sk D Dv :
  Torch.read st q = Some vq -> Torch.read st k = Some vk -> Torch.read st v = Some vv ->
  shape vq = [B; H; Sq; D] -> shape vk = [B; H; Sk; D] -> shape vv = [B; H; Sk; Dv] ->
  read_opt st attn_mask = Some vmask -> mask_fits [B; H; Sq; Sk] vmask ->
  exists output attn st' scores keep vo,
    run (ScaledDotProductAttention_forward
           (sdpa_module temperature attn_dropout mode) q k v attn_mask) st
    = (Ok (output, attn), st')
    /\ Torch.read st' attn = Some (dropout_t (mkDropout attn_dropout mode) keep scores)
    /\ shape scores = [B; H; Sq; Sk]
    /\ (forall b h i j, b < B -> h < H -> i < Sq -> j < Sk ->
          elem scores [b; h; i; j] = Spec.attention temperature vq vk vmask Sk b h i j)
    /\ Torch.read st' output = Some vo
    /\ shape vo = [B; H; Sq; Dv]
    /\ (forall b h i e, b < B -> h < H -> i < Sq -> e < Dv ->
          elem vo [b; h; i; e]
          = sumR Sk (fun j =>
              (elem (dropout_t (mkDropout attn_dropout mode) keep scores) [b; h; i; j]
               * elem vv [b; h; j; e])%R)).
Proof.
  intros Rq Rk Rv Sq' Sk' Sv' Rm Fm.
  assert (W : wp (ScaledDotProductAttention_forward
                    (sdpa_module temperature attn_dropout mode) q k v attn_mask) st
                (fun r st' => exists scores keep vo,
                   Torch.read st' r.2
                   = Some (dropout_t (mkDropout attn_dropout mode) keep scores)
                   /\ shape scores = [B; H; Sq; Sk]
                   /\ (forall b h i j, b < B -> h < H -> i < Sq -> j < Sk ->
                         elem scores [b; h; i; j]
                         = Spec.attention temperature vq vk vmask Sk b h i j)
                   /\ Torch.read st' r.1 = Some vo
                   /\ shape vo = [B; H; Sq; Dv]
                   /\ (forall b h i e, b < B -> h < H -> i < Sq -> e < Dv ->
                         elem vo [b; h; i; e]
                         = sumR Sk (fun j =>
                             (elem (dropout_t (mkDropout attn_dropout mode) keep scores)
                                   [b; h; i; j]
                              * elem vv [b; h; j; e])%R)))).
  { eapply (wp_SDPA_forward _ _ _ _ _ _ _ vq vk vv vmask _ B H Sq Sk D Dv); eauto.
    intros ho hw st' sm keep vo E Rw Ro Ssm Vsm Svo Vvo _.
    exists sm, keep, vo. simpl. auto 10. }
  apply wp_run in W as ([output attn] & st' & Hrun & scores & keep & vo & W).
  exists output, attn, st', scores, keep, vo. split; [exact Hrun | exact W].
Qed.

(** C3. [ScaledDotProductAttention.forward] on queries, keys and values of
    sizes [batch, heads, steps, dim] and an optional mask: the similarity
    is the product of [q / temperature] with the transposed keys over the
    last two axes; where the mask is 1 it is overwritten by -1e9 before the
    softmax over the last axis; dropout is applied to the softmax result;
    the call returns the product of the weights with [v] and the weights
    after dropout.  The temperature [MultiHeadAttention] constructs it
    with is the square root of [d_k]. *)
Theorem ScaledDotProductAttention_forward_spec
  temperature attn_dropout self mode st q k v attn_mask vq vk vv vmask B H Sq Sk D Dv :
  ScaledDotProductAttention_init temperature attn_dropout = Ok self ->
  Torch.read st q = Some vq -> Torch.read st k = Some vk -> Torch.read st v = Some vv ->
  shape vq = [B; H; Sq; D] -> shape vk = [B; H; Sk; D] -> shape vv = [B; H; Sk; Dv] ->
  read_opt st attn_mask = Some vmask -> mask_fits [B; H; Sq; Sk] vmask ->
  (exists output attn st' scores keep vo,
     run (ScaledDotProductAttention_forward (Module_train mode self) q k v attn_mask) st
     = (Ok (output, attn), st')
     /\ Torch.read st' attn = Some (dropout_t (mkDropout attn_dropout mode) keep scores)
     /\ shape scores = [B; H; Sq; Sk]
     /\ (forall b h i j, b < B -> h < H -> i < Sq -> j < Sk ->
           elem scores [b; h; i; j]
           = Spec.softmax_row Sk
               (fun l =>
                  Spec.masked vmask
                    (sumR D (fun d =>
                       (elem vq [b; h; i; d] / temperature * elem vk [b; h; l; d])%R))
                    b h i l) j)
     /\ Torch.read st' output = Some vo
     /\ shape vo = [B; H; Sq; Dv]
     /\ (forall b h i e, b < B -> h < H -> i < Sq -> e < Dv ->
           elem vo [b; h; i; e]
           = sumR Sk (fun j =>
               (elem (dropout_t (mkDropout attn_dropout mode) keep scores) [b; h; i; j]
                * elem vv [b; h; j; e])%R)))
  /\ (forall sd n_heads d_model d_k d_v dropout attn_dropout' mha,
        MultiHeadAttention_init sd n_heads d_model d_k d_v dropout attn_dropout' = Ok mha ->
        run (attention <- getattr mha "attention" ;;
             t <- getattr attention "temperature" ;;
             as_float t) st
        = (Ok (sqrt (INR d_k)), st)).
Proof.
  intros Hinit Rq Rk Rv Sq' Sk' Sv' Rm Fm. split.
  - rewrite (ScaledDotProductAttention_init_train _ _ mode _ Hinit).
    destruct (ScaledDotProductAttention_forward_run temperature attn_dropout mode
                st q k v attn_mask vq vk vv vmask B H Sq Sk D Dv
                Rq Rk Rv Sq' Sk' Sv' Rm Fm)
      as (output & attn & st' & scores & keep & vo & Hrun & Ra & Ss & Vs & Ro & So & Vo).
    exists output, attn, st', scores, keep, vo.
    repeat (split; [assumption|]). split; [|auto].
    intros b h i j Hb Hh Hi Hj. rewrite (Vs b h i j Hb Hh Hi Hj).
    unfold Spec.attention, Spec.score, Spec.similarity. rewrite Sq'. reflexivity.
  - intros sd n_heads d_model d_k d_v dropout attn_dropout' mha Hm.
    apply MultiHeadAttention_init_inv in Hm. subst mha.
    unfold run, bind. cbn. rewrite <- temperature_sqrt. reflexivity.
Qed.

Lemma ScaledDotProductAttention_forward_spec_witness :
  let t := Sample.zeros [1; 1; 1; 1] in
  let st := Sample.state_of [t] in
  let x := Sample.obj 0 [1; 1; 1; 1] in
  ScaledDotProductAttention_init 1 0 = Ok (sdpa_module 1 0 true)
  /\ Torch.read st x = Some t
  /\ read_opt st (Some x) = Some (Some t)
  /\ mask_fits [1; 1; 1; 1] (Some t)
  /\ exists r st',
       run (ScaledDotProductAttention_forward
              (Module_train true (sdpa_module 1 0 true)) x x x (Some x)) st
       = (Ok r, st').
Proof.
  intros t st x.
  split; [reflexivity|]. split; [reflexivity|]. split; [reflexivity|].
  split; [reflexivity|].
  destruct (ScaledDotProductAttention_forward_spec 1 0 (sdpa_module 1 0 true) true
              st x x x (Some x) t t t (Some t) 1 1 1 1 1 1
              eq_refl eq_refl eq_refl eq_refl eq_refl eq_refl eq_refl eq_refl eq_refl)
    as [(output & attn & st' & _ & _ & _ & H & _) _].
  exists (output, attn), st'. exact H.
Defined.



(** C4. [MultiHeadAttention.forward] on [q], [k], [v] of sizes
    [batch, steps, d_model] returns the hidden state
    [LayerNorm(dropout(fc(merged_heads)) + q)]: the residual term is the
    value of the object passed as [q], read before any projection and left
    unchanged by the call; the merged heads hold, head after head, the
    attention output, the product of the attention weights with the head's
    slice of the projected values; the weights are the dropout of the
    softmax, over the key steps, of the masked products of the head's
    slices of the projected queries, divided by the square root of [d_k],
    with those of the projected keys; the normalisation runs over the last
    axis with epsilon 1e-6. *)
Theorem MultiHeadAttention_forward_residual_norm
  sd n_heads d_model d_k d_v dropout attn_dropout self mode
  st q k v attn_mask vq vk vv vmask B N :
  MultiHeadAttention_init sd n_heads d_model d_k d_v dropout attn_dropout = Ok self ->
  Torch.read st q = Some vq -> Torch.read st k = Some vk -> Torch.read st v = Some vv ->
  shape vq = [B; N; d_model] -> shape vk = [B; N; d_model] ->
  shape vv = [B; N; d_model] ->
  0 < B -> 0 < N ->
  read_opt st attn_mask = Some vmask ->
  match vmask with Some m => 1 <= rank m | None => True end ->
  mask_fits [B; n_heads; N; N] (unsqueeze_v 1 <$> vmask) ->
  exists out attn st' weights heads_out keep vo scores keep_attn,
    run (MultiHeadAttention_forward (Module_train mode self) q k v attn_mask) st
    = (Ok (out, attn), st')
    /\ Torch.read st' attn = Some weights
    /\ shape weights = [B; n_heads; N; N]
    /\ shape heads_out = [B; n_heads; N; d_v]
    /\ (forall b h i e, b < B -> h < n_heads -> i < N -> e < d_v ->
          elem heads_out [b; h; i; e]
          = sumR N (fun j =>
              (elem weights [b; h; i; j]
               * elem (linear_t (w_vs sd n_heads d_model d_v) vv) [b; j; (h * d_v + e)%nat])%R))
    /\ shape (merged n_heads d_v B N heads_out) = [B; N; n_heads * d_v]
    /\ (forall b n h e, b < B -> n < N -> h < n_heads -> e < d_v ->
          elem (merged n_heads d_v B N heads_out) [b; n; h * d_v + e]
          = elem heads_out [b; h; n; e])
    /\ Torch.read st' out = Some vo
    /\ vo = layer_norm_t (mha_norm sd d_model)
              (iadd_t (dropout_t (mkDropout dropout mode) keep
                         (linear_t (fc sd n_heads d_model d_v)
                            (merged n_heads d_v B N heads_out)))
                      vq)
    /\ shape vo = [B; N; d_model]
    /\ (forall b n j, b < B -> n < N -> j < d_model ->
          elem vo [b; n; j]
          = Spec.layer_norm d_model 1e-6
              (fun c => elem (ln_weight (mha_norm sd d_model)) [c])
              (fun c => elem (ln_bias (mha_norm sd d_model)) [c])
              (fun l =>
                 (elem (dropout_t (mkDropout dropout mode) keep
                          (linear_t (fc sd n_heads d_model d_v)
                             (merged n_heads d_v B N heads_out)))
                       [b; n; l]
                  + elem vq [b; n; l])%R) j)
    /\ Torch.read st' q = Some vq
    /\ weights = dropout_t (mkDropout attn_dropout mode) keep_attn scores
    /\ shape scores = [B; n_heads; N; N]
    /\ (forall b h i j, b < B -> h < n_heads -> i < N -> j < N ->
          elem scores [b; h; i; j]
          = Spec.softmax_row N
              (fun l =>
                 Spec.masked (unsqueeze_v 1 <$> vmask)
                   (sumR d_k (fun d =>
                      (elem (linear_t (w_qs sd n_heads d_model d_k) vq)
                            [b; i; (h * d_k + d)%nat]
                       / sqrt (INR d_k)
                       * elem (linear_t (w_ks sd n_heads d_model d_k) vk)
                              [b; l; (h * d_k + d)%nat])%R))
                   b h i l) j).
Proof.
  intros Hinit Rq Rk Rv Sq Sk Sv HB HN Rm Km Fm.
  rewrite (MultiHeadAttention_init_train _ _ _ _ _ _ _ mode _ Hinit).
  assert (W : wp (MultiHeadAttention_forward
                    (mha_module sd n_heads d_model d_k d_v dropout attn_dropout mode)
                    q k v attn_mask) st
                (fun r st' => exists scores keep_attn heads_out keep,
                   Torch.read st' r.2
                   = Some (dropout_t (mkDropout attn_dropout mode) keep_attn scores)
                   /\ shape scores = [B; n_heads; N; N]
                   /\ (forall b h i j, b < B -> h < n_heads -> i < N -> j < N ->
                         elem scores [b; h; i; j]
                         = Spec.attention (Built.temperature d_k)
                             (heads n_heads B N d_k
                                (linear_t (w_qs sd n_heads d_model d_k) vq))
                             (heads n_heads B N d_k
                                (linear_t (w_ks sd n_heads d_model d_k) vk))
                             (unsqueeze_v 1 <$> vmask) N b h i j)
                   /\ shape heads_out = [B; n_heads; N; d_v]
                   /\ (forall b h i e, b < B -> h < n_heads -> i < N -> e < d_v ->
                         elem heads_out [b; h; i; e]
                         = sumR N (fun j =>
                             (elem (dropout_t (mkDropout attn_dropout mode) keep_attn scores)
                                   [b; h; i; j]
                              * elem (linear_t (w_vs sd n_heads d_model d_v) vv)
                                     [b; j; (h * d_v + e)%nat])%R))
                   /\ Torch.read st' r.1
                      = Some (layer_norm_t (mha_norm sd d_model)
                                (iadd_t (dropout_t (mkDropout dropout mode) keep
                                           (linear_t (fc sd n_heads d_model d_v)
                                              (merged n_heads d_v B N heads_out)))
                                        vq))
                   /\ Torch.read st' q = Some vq)).
  { eapply (wp_MHA_forward _ _ _ _ _ _ _ _ _ _ _ _ vq vk vv vmask _ B N);
      [exact Rq | exact Rk | exact Rv | exact Sq | exact Sk | exact Sv | exact HB | exact HN
      | exact Rm | exact Km | exact Fm |].
    intros ho hw st' sm keep1 keep2 vattn E Rq' Rw Ssm Vsm Sat Vat Ro.
    exists sm, keep1, vattn, keep2. cbn [fst snd].
    split; [exact Rw|]. split; [exact Ssm|]. split; [exact Vsm|].
    split; [exact Sat|]. split; [|split; [exact Ro | exact Rq']].
    intros b h i e Hb Hh Hi He. rewrite (Vat b h i e Hb Hh Hi He).
    apply sumR_ext. intros j Hj. f_equal.
    apply heads_elem; try assumption.
    cbn [shape linear_t]. rewrite Sv. reflexivity. }
  apply wp_run in W
    as ([out attn] & st' & Hrun & scores & keep_attn & heads_out & keep
        & Rw & Ss & Vs & Sh & Vh & Ro & Rq').
  cbn [fst snd] in Rw, Ro.
  exists out, attn, st', (dropout_t (mkDropout attn_dropout mode) keep_attn scores),
    heads_out, keep,
    (layer_norm_t (mha_norm sd d_model)
       (iadd_t (dropout_t (mkDropout dropout mode) keep
                  (linear_t (fc sd n_heads d_model d_v)
                     (merged n_heads d_v B N heads_out))) vq)),
    scores, keep_attn.
  assert (Sd : shape (dropout_t (mkDropout dropout mode) keep
                        (linear_t (fc sd n_heads d_model d_v)
                           (merged n_heads d_v B N heads_out))) = [B; N; d_model]).
  { rewrite dropout_t_shape. reflexivity. }
  split; [exact Hrun|]. split; [exact Rw|].
  split; [rewrite dropout_t_shape; exact Ss|]. split; [exact Sh|].
  split; [exact Vh|]. split; [reflexivity|].
  split; [intros; apply merged_elem; assumption|].
  split; [exact Ro|]. split; [reflexivity|]. split; [exact Sd|].
  split.
  { intros b n j Hb Hn Hj.
    apply (residual_norm_elem (mha_norm sd d_model) _ _ B N d_model); assumption. }
  split; [exact Rq'|]. split; [reflexivity|]. split; [exact Ss|].
  intros b h i j Hb Hh Hi Hj. rewrite (Vs b h i j Hb Hh Hi Hj).
  unfold Spec.attention, Spec.softmax_row.
  assert (E : forall l, l < N ->
            Spec.score (Built.temperature d_k)
              (heads n_heads B N d_k (linear_t (w_qs sd n_heads d_model d_k) vq))
              (heads n_heads B N d_k (linear_t (w_ks sd n_heads d_model d_k) vk))
              (unsqueeze_v 1 <$> vmask) b h i l
            = Spec.masked (unsqueeze_v 1 <$> vmask)
                (sumR d_k (fun d =>
                   (elem (linear_t (w_qs sd n_heads d_model d_k) vq)
                         [b; i; (h * d_k + d)%nat]
                    / sqrt (INR d_k)
                    * elem (linear_t (w_ks sd n_heads d_model d_k) vk)
                           [b; l; (h * d_k + d)%nat])%R))
                b h i l).
  { intros l Hl. unfold Spec.score.
    rewrite (head_similarity sd n_heads d_model d_k vq vk B N b h i l Sq Sk Hh Hi Hl).
    reflexivity. }
  rewrite (E j Hj). f_equal. apply sumR_ext. intros l Hl. rewrite (E l Hl). reflexivity.
Qed.

Lemma MultiHeadAttention_forward_residual_norm_witness :
  let t := Sample.zeros [1; 2; 4] in
  let st := Sample.state_of [t] in
  let x := Sample.obj 0 [1; 2; 4] in
  MultiHeadAttention_init Sample.sd0 2 4 3 5 0 0
  = Ok (mha_module Sample.sd0 2 4 3 5 0 0 true)
  /\ Torch.read st x = Some t
  /\ exists r st',
       run (MultiHeadAttention_forward
              (Module_train false (mha_module Sample.sd0 2 4 3 5 0 0 true)) x x x None) st
       = (Ok r, st').
Proof.
  intros t st x. split; [reflexivity|]. split; [reflexivity|].
  destruct (MultiHeadAttention_forward_residual_norm Sample.sd0 2 4 3 5 0 0
              (mha_module Sample.sd0 2 4 3 5 0 0 true) false st x x x None t t t None 1 2
              eq_refl eq_refl eq_refl eq_refl eq_refl eq_refl eq_refl
              (Nat.lt_0_succ 0) (Nat.lt_0_succ 1) eq_refl I I)
    as (out & attn & st' & _ & _ & _ & _ & _ & _ & H & _).
  exists (out, attn), st'. exact H.
Defined.

(** C6. [PositionalEncoding(d_model, n_position)] holds a table of sizes
    [1, n_position, d_model]; its entry at position [pos] and feature [i]
    is the sine (even [i]) or the cosine (odd [i]) of
    [pos / 10000^(2*floor(i/2)/d_model)]; the table does not require
    gradients.  [forward] on [x] with [steps <= n_position] returns [x]
    plus the first [steps] rows of the table, mutates no storage (the table
    reads the same afterwards), and the result requires gradients exactly
    when [x] does. *)
Theorem PositionalEncoding_spec d_model n_position st0 :
  0 < n_position ->
  exists self table st1 vt,
    run (PositionalEncoding_init d_model n_position) st0 = (Ok self, st1)
    /\ self = OModule "PositionalEncoding" [("pos_table", OTensor table)]
    /\ Torch.read st1 table = Some vt
    /\ shape vt = [1; n_position; d_model]
    /\ (forall pos i, pos < n_position -> i < d_model ->
          elem vt [0; pos; i]
          = if Nat.even i
            then sin (INR pos / Rpower 10000 (2 * INR (i / 2) / INR d_model))
            else cos (INR pos / Rpower 10000 (2 * INR (i / 2) / INR d_model)))
    /\ requires_grad table = false
    /\ forall mode st x vx B N,
         ext st1 st -> Torch.read st x = Some vx -> shape vx = [B; N; d_model] ->
         N <= n_position ->
         exists out st' vo,
           run (PositionalEncoding_forward (Module_train mode self) x) st = (Ok out, st')
           /\ Torch.read st' out = Some vo
           /\ shape vo = [B; N; d_model]
           /\ (forall b s j, b < B -> s < N -> j < d_model ->
                 elem vo [b; s; j] = (elem vx [b; s; j] + elem vt [0%nat; s; j])%R)
           /\ ext st st'
           /\ Torch.read st' table = Some vt
           /\ requires_grad out = requires_grad x.
Proof.
  intros Hn.
  destruct (run (PositionalEncoding_init d_model n_position) st0) as [[self|e] st1] eqn:Hrun.
  2:{ exfalso. revert Hrun. unfold run, PositionalEncoding_init.
      assert (W : wp (_get_sinusoid_encoding_table n_position d_model) st0
                    (fun _ _ => True))
        by (apply wp_get_sinusoid_encoding_table; auto).
      unfold wp in W. unfold bind.
      destruct (_get_sinusoid_encoding_table n_position d_model st0) as [[h|e'] s];
        [discriminate | contradiction]. }
  destruct (PositionalEncoding_init_ok _ _ _ _ _ Hrun)
    as (_ & table & vt & -> & E & Rt & St & Vt & Gt).
  exists (OModule "PositionalEncoding" [("pos_table", OTensor table)]), table, st1, vt.
  split; [reflexivity|]. split; [reflexivity|]. split; [exact Rt|]. split; [exact St|].
  split; [exact Vt|]. split; [exact Gt|].
  intros mode st x vx B N Est Rx Sx HN.
  cbn [Module_train List.map].
  assert (W : wp (PositionalEncoding_forward
                    (OModule "PositionalEncoding" [("pos_table", OTensor table)]) x) st
                (fun h st' => exists vo,
                   Torch.read st' h = Some vo /\ shape vo = [B; N; d_model]
                   /\ (forall b s j, b < B -> s < N -> j < d_model ->
                         elem vo [b; s; j]
                         = (elem vx [b; s; j] + elem vt [0%nat; s; j])%R)
                   /\ ext st st' /\ requires_grad h = requires_grad x)).
  { eapply (wp_PositionalEncoding_forward _ _ _ vt _ B N d_model n_position);
      [exact (read_ext _ _ _ _ Est Rt) | exact St | exact Rx | exact Sx | exact HN |].
    intros h st' vo E' R S V G. eauto 10. }
  apply wp_run in W as (out & st' & Hrun' & vo & Ro & So & Vo & E' & G).
  exists out, st', vo. repeat (split; [assumption|]).
  split; [|exact G].
  exact (read_ext _ _ _ _ (ext_trans _ _ _ Est E') Rt).
Qed.

Lemma PositionalEncoding_spec_witness :
  exists self st1,
    run (PositionalEncoding_init 4 2) (Sample.state_of []) = (Ok self, st1).
Proof.
  destruct (PositionalEncoding_spec 4 2 (Sample.state_of []) (Nat.lt_0_succ 1))
    as (self & table & st1 & vt & H & _).
  exists self, st1. exact H.
Defined.

(** C7. [Encoder.forward] returns the final hidden state alone when
    [return_attn_weights] is false, and the pair of the final hidden state
    and the list of attention weights when it is true: the list has one
    tensor per constructed layer, [n_layers] in all, in the order in which
    the layers are applied to the running hidden state. *)
Theorem Encoder_forward_returns
  sd n_layers n_steps n_features d_model d_inner n_heads d_k d_v dropout attn_dropout
  mode self st0 st1 st x vx src_mask vmask B N :
  run (Encoder_init sd n_layers n_steps n_features d_model d_inner n_heads d_k d_v
         dropout attn_dropout) st0 = (Ok self, st1) ->
  ext st1 st ->
  Torch.read st x = Some vx -> shape vx = [B; N; n_features] ->
  0 < B -> 0 < N -> N <= n_steps ->
  read_opt st src_mask = Some vmask ->
  match vmask with Some m => 1 <= rank m | None => True end ->
  mask_fits [B; n_heads; N; N] (unsqueeze_v 1 <$> vmask) ->
  exists enc_output attn_weights st' x0 s0,
    run (Encoder_forward (Module_train mode self) x src_mask false) st
    = (Ok (OTensor enc_output), st')
    /\ run (Encoder_forward (Module_train mode self) x src_mask true) st
       = (Ok (OTuple [OTensor enc_output; OList attn_weights]), st')
    /\ length (layers_of (Module_train mode self)) = n_layers
    /\ length attn_weights = n_layers
    /\ ext st s0
    /\ tensor_of_shape s0 [B; N; d_model] (OTensor x0)
    /\ encoder_chain src_mask (layers_of (Module_train mode self))
         x0 s0 attn_weights enc_output st'
    /\ Forall (tensor_of_shape st' [B; n_heads; N; N]) attn_weights
    /\ tensor_of_shape st' [B; N; d_model] (OTensor enc_output).
Proof.
  intros Hinit Est Rx Sx HB HN HNs Rm Km Fm.
  destruct (Encoder_forward_run sd n_layers n_steps n_features d_model d_inner n_heads
              d_k d_v dropout attn_dropout mode self st0 st1 st x vx src_mask vmask B N
              Hinit Est Rx Sx HB HN HNs Rm Km Fm)
    as (xn & ws & st' & x0 & s0 & Hrun & Ll & Lw & E0 & T0 & Chain & Fw & Tn & _).
  exists xn, ws, st', x0, s0.
  split; [exact (Hrun false)|]. split; [exact (Hrun true)|]. auto 10.
Qed.

(** C9. A decoder forward call leaves the encoder output unchanged: after
    [DecoderLayer.forward], after [Decoder.forward] and after the
    cross-attention call of [MultiHeadAttention.forward] with the encoder
    output as key and value, whatever their outcome, every storage that
    existed before the call holds the same contents, and the encoder
    output reads the same value. *)
Theorem decoder_forward_preserves_encoder_output st enc_output v :
  Torch.read st enc_output = Some v ->
  (forall self dec_input slf_attn_mask dec_enc_attn_mask,
     let st' := (run (DecoderLayer_forward self dec_input enc_output
                        slf_attn_mask dec_enc_attn_mask) st).2 in
     ext st st' /\ Torch.read st' enc_output = Some v)
  /\ (forall self trg_seq trg_mask src_mask return_attn_weights,
        let st' := (run (Decoder_forward self trg_seq enc_output
                           trg_mask src_mask return_attn_weights) st).2 in
        ext st st' /\ Torch.read st' enc_output = Some v)
  /\ (forall self q attn_mask,
        let st' := (run (MultiHeadAttention_forward self q enc_output enc_output
                           attn_mask) st).2 in
        ext st st' /\ Torch.read st' enc_output = Some v).
Proof.
  intros Hr.
  assert (G : forall {A} (m : M A),
            safe st m (fun _ => True) ->
            ext st (run m st).2 /\ Torch.read (run m st).2 enc_output = Some v).
  { intros A m Hs. destruct (Hs st (ext_refl st)) as [E _].
    split; [exact E|]. exact (read_ext _ _ _ _ E Hr). }
  split; [|split]; intros; apply G.
  - apply safe_DecoderLayer_forward.
  - apply safe_Decoder_forward.
  - apply safe_MHA_forward.
Qed.

Lemma decoder_forward_preserves_encoder_output_witness :
  let t := Sample.zeros [1; 2; 4] in
  let st := Sample.state_of [t] in
  let enc := Sample.obj 0 [1; 2; 4] in
  Torch.read st enc = Some t
  /\ Torch.read
       (run (MultiHeadAttention_forward (mha_module Sample.sd0 2 4 3 5 0 0 true)
               enc enc enc None) st).2 enc
     = Some t.
Proof.
  intros t st enc. split; [reflexivity|].
  destruct (decoder_forward_preserves_encoder_output st enc t eq_refl) as (_ & _ & H).
  exact (proj2 (H (mha_module Sample.sd0 2 4 3 5 0 0 true) enc None)).
Defined.

(** C2 (the code departs from it). [DecoderLayer.forward] passes the masks
    to its attention blocks under the keyword [mask], which
    [MultiHeadAttention.forward] does not have (its parameter is
    [attn_mask]): the first attention call raises TypeError, so no
    self-attention, cross-attention or feed-forward result is returned,
    whatever the inputs.  The state is left as it was. *)
Theorem DecoderLayer_forward_raises
  sd d_model d_inner n_head d_k d_v dropout attn_dropout self mode
  dec_input enc_output slf_attn_mask dec_enc_attn_mask st :
  DecoderLayer_init sd d_model d_inner n_head d_k d_v dropout attn_dropout = Ok self ->
  run (DecoderLayer_forward (Module_train mode self)
         dec_input enc_output slf_attn_mask dec_enc_attn_mask) st
  = (Raise TypeError, st).
Proof.
  intros H. apply DecoderLayer_init_inv in H as (a & b & c & Ha & Hb & Hc & ->).
  apply MultiHeadAttention_init_inv in Ha. subst a.
  reflexivity.
Qed.

(** C1 (the code departs from it). [Decoder.forward] iterates
    [self.layer_stack], an attribute [Decoder.__init__] never assigns (the
    layers are stored as [dec_layer_stack]): on a constructed decoder
    every call raises, and none of the constructed layers is applied. *)
Theorem Decoder_forward_raises
  sd n_layers n_steps n_features d_model d_inner n_heads d_k d_v dropout attn_dropout
  st0 self st1 mode trg_seq enc_output trg_mask src_mask return_attn_weights :
  run (Decoder_init sd n_layers n_steps n_features d_model d_inner n_heads d_k d_v
         dropout attn_dropout) st0 = (Ok self, st1) ->
  always_raises (Decoder_forward (Module_train mode self)
                   trg_seq enc_output trg_mask src_mask return_attn_weights)
  /\ always_raises (layer_stack <- getattr (Module_train mode self) "layer_stack" ;;
                    as_list layer_stack)
  /\ exists layers,
       length layers = n_layers
       /\ forall st, run (getattr (Module_train mode self) "dec_layer_stack") st
                     = (Ok (OList layers), st).
Proof.
  intros H. apply Decoder_init_inv in H as (pe & stack & Hpe & Hstack & ->).
  split; [|split].
  - unfold Decoder_forward. cbn [Module_train List.map].
    do 6 (apply raises_bind_r; intros ?).
    apply raises_bind_l. apply raises_bind_l. cbn. apply raises_raise.
  - apply raises_bind_l. cbn. apply raises_raise.
  - exists (List.map (Module_train mode) stack). split; [|intros; reflexivity].
    rewrite length_map. clear - Hstack.
    assert (G : forall l stk, rmapM (fun i =>
                  DecoderLayer_init (layer_dict sd "dec_layer_stack" i)
                    d_model d_inner n_heads d_k d_v dropout attn_dropout) l = Ok stk ->
                length stk = length l).
    { clear. induction l as [|i l IH]; intros stk H; simpl in H.
      - injection H as <-. reflexivity.
      - apply rbind_inv in H as (a & Ha & H).
        apply rbind_inv in H as (bs & Hb & [= <-]). simpl. rewrite (IH bs Hb).
        reflexivity. }
    rewrite (G _ _ Hstack). apply length_seq.
Qed.

Lemma Encoder_forward_returns_witness :
  let st0 := Sample.state_of [] in
  exists self st1 r st',
    run (Encoder_init Sample.sd0 2 5 3 4 8 2 3 5 0 0) st0 = (Ok self, st1)
    /\ run (Encoder_forward (Module_train false self)
              (Sample.obj (length (heap st1)) [1; 5; 3]) None true)
           (Torch.alloc st1 (Sample.zeros [1; 5; 3]))
       = (Ok r, st').
Proof.
  intros st0.
  destruct (run (Encoder_init Sample.sd0 2 5 3 4 8 2 3 5 0 0) st0)
    as [[self|e] st1] eqn:E.
  2:{ assert (K : is_ok (run (Encoder_init Sample.sd0 2 5 3 4 8 2 3 5 0 0) st0).1 = true)
        by (vm_compute; reflexivity).
      rewrite E in K. discriminate K. }
  destruct (Encoder_forward_returns Sample.sd0 2 5 3 4 8 2 3 5 0 0 false self st0 st1
              (Torch.alloc st1 (Sample.zeros [1; 5; 3]))
              (Sample.obj (length (heap st1)) [1; 5; 3]) (Sample.zeros [1; 5; 3])
              None None 1 5 E (ext_alloc _ _) (read_alloc_new _ _ _ _) eq_refl
              (Nat.lt_0_succ 0) (Nat.lt_0_succ 4) (Nat.le_refl 5) eq_refl I I)
    as (xn & ws & st' & _ & _ & _ & H & _).
  exists self, st1, (OTuple [OTensor xn; OList ws]), st'. split; [reflexivity | exact H].
Defined.

Lemma DecoderLayer_forward_raises_witness :
  let st := Sample.state_of [Sample.zeros [1; 5; 4]] in
  let x := Sample.obj 0 [1; 5; 4] in
  exists self,
    DecoderLayer_init Sample.sd0 4 8 2 3 5 0 0 = Ok self
    /\ run (DecoderLayer_forward (Module_train true self) x x None None) st
       = (Raise TypeError, st).
Proof.
  intros st x.
  destruct (DecoderLayer_init Sample.sd0 4 8 2 3 5 0 0) as [self|e] eqn:E;
    [|vm_compute in E; discriminate E].
  exists self. split; [reflexivity|].
  exact (DecoderLayer_forward_raises Sample.sd0 4 8 2 3 5 0 0 self true x x None None st E).
Defined.

Lemma Decoder_forward_raises_witness :
  let st0 := Sample.state_of [] in
  exists self st1,
    run (Decoder_init Sample.sd0 2 5 3 4 8 2 3 5 0 0) st0 = (Ok self, st1)
    /\ always_raises
         (Decoder_forward (Module_train true self)
            (Sample.obj 1 [1; 5; 3]) (Sample.obj 2 [1; 5; 4]) None None false).
Proof.
  intros st0.
  destruct (run (Decoder_init Sample.sd0 2 5 3 4 8 2 3 5 0 0) st0)
    as [[self|e] st1] eqn:E.
  2:{ assert (K : is_ok (run (Decoder_init Sample.sd0 2 5 3 4 8 2 3 5 0 0) st0).1 = true)
        by (vm_compute; reflexivity).
      rewrite E in K. discriminate K. }
  exists self, st1. split; [reflexivity|].
  exact (proj1 (Decoder_forward_raises Sample.sd0 2 5 3 4 8 2 3 5 0 0 st0 self st1 true
                  (Sample.obj 1 [1; 5; 3]) (Sample.obj 2 [1; 5; 4]) None None false E)).
Defined.

(** The failing call of C1, evaluated: a decoder of two layers on a target
    of sizes [1, 5, 3] and an encoder output of sizes [1, 5, 4] raises
    AttributeError on [layer_stack]. *)
Example Decoder_forward_attribute_error :
  match run (Decoder_init Sample.sd0 2 5 3 4 8 2 3 5 0 0) (Sample.state_of []) with
  | (Ok decoder, st1) =>
      (run (Decoder_forward decoder (Sample.obj 1 [1; 5; 3]) (Sample.obj 2 [1; 5; 4])
              None None false)
           (Torch.alloc (Torch.alloc st1 (Sample.zeros [1; 5; 3]))
                        (Sample.zeros [1; 5; 4]))).1
  | (Raise e, _) => Raise e
  end = Raise (AttributeError "layer_stack").
Proof. vm_compute. reflexivity. Qed.

(** The failing call of C2, evaluated: a decoder layer on a decoder input
    and an encoder output of sizes [1, 5, 4] raises TypeError. *)
Example DecoderLayer_forward_type_error :
  match DecoderLayer_init Sample.sd0 4 8 2 3 5 0 0 with
  | Ok layer =>
      (run (DecoderLayer_forward layer (Sample.obj 0 [1; 5; 4]) (Sample.obj 1 [1; 5; 4])
              None None)
           (Sample.state_of [Sample.zeros [1; 5; 4]; Sample.zeros [1; 5; 4]])).1
  | Raise e => Raise e
  end = Raise TypeError.
Proof. vm_compute. reflexivity. Qed.

(** The sibling call of [EncoderLayer.forward] binds its mask under the
    right keyword and returns. *)
Example EncoderLayer_forward_returns :
  match EncoderLayer_init Sample.sd0 4 8 2 3 5 0 0 with
  | Ok layer =>
      is_ok (run (EncoderLayer_forward layer (Sample.obj 0 [1; 5; 4]) None)
               (Sample.state_of [Sample.zeros [1; 5; 4]])).1
  | Raise e => false
  end = true.
Proof. vm_compute. reflexivity. Qed.

(** C10, as the code has it.  [MultiHeadAttention.forward] reshapes the
    projected [k] and [v] with the batch size and the step count of [q]:
    a call that returns requires the projected [k] (resp. [v]) to hold
    exactly [batch * steps * n_heads * d_k] (resp. [d_v]) elements, that
    is, the product of the leading sizes of [k] (of [v]) to equal
    [batch * steps]; the sizes themselves need not agree.  With the batch
    size of [q], a key sequence whose length differs from the query's is
    an error. *)
Theorem MultiHeadAttention_kv_element_count
  sd n_heads d_model d_k d_v dropout attn_dropout self mode
  st q k v attn_mask vq vk vv :
  MultiHeadAttention_init sd n_heads d_model d_k d_v dropout attn_dropout = Ok self ->
  Torch.read st q = Some vq -> Torch.read st k = Some vk -> Torch.read st v = Some vv ->
  (forall r st',
     run (MultiHeadAttention_forward (Module_train mode self) q k v attn_mask) st
     = (Ok r, st') ->
     exists batch_size n_steps,
       shape vq !! 0 = Some batch_size /\ shape vq !! 1 = Some n_steps
       /\ numel_of (removelast (shape vk)) * (n_heads * d_k)
          = batch_size * n_steps * n_heads * d_k
       /\ numel_of (removelast (shape vv)) * (n_heads * d_v)
          = batch_size * n_steps * n_heads * d_v)
  /\ (forall B N Nk D D',
        shape vq = [B; N; D] -> shape vk = [B; Nk; D'] -> Nk <> N ->
        0 < B -> 0 < n_heads * d_k ->
        exists e st',
          run (MultiHeadAttention_forward (Module_train mode self) q k v attn_mask) st
          = (Raise e, st')).
Proof.
  intros Hinit Rq Rk Rv.
  rewrite (MultiHeadAttention_init_train _ _ _ _ _ _ _ mode _ Hinit).
  split.
  - intros r st' H.
    exact (MultiHeadAttention_run_sizes sd n_heads d_model d_k d_v dropout attn_dropout
             mode st q k v attn_mask vq vk vv r st' Rq Rk Rv H).
  - intros B N Nk D D' Sq Sk Hne HB HH.
    destruct (run (MultiHeadAttention_forward
                     (mha_module sd n_heads d_model d_k d_v dropout attn_dropout mode)
                     q k v attn_mask) st) as [[r|e] st'] eqn:H; [|eauto].
    exfalso.
    destruct (MultiHeadAttention_run_sizes sd n_heads d_model d_k d_v dropout attn_dropout
                mode st q k v attn_mask vq vk vv r st' Rq Rk Rv H)
      as (B' & N' & SB & SN & Ek & _).
    rewrite Sq in SB, SN. injection SB as <-. injection SN as <-.
    rewrite Sk in Ek. cbn [removelast numel_of fold_right] in Ek.
    rewrite Nat.mul_1_r in Ek.
    replace (B * N * n_heads * d_k) with (B * N * (n_heads * d_k)) in Ek by ring.
    apply Nat.mul_cancel_r in Ek; [|lia]. apply Nat.mul_cancel_l in Ek; [|lia].
    contradiction.
Qed.

Lemma MultiHeadAttention_kv_element_count_witness :
  let st := Sample.state_of [Sample.zeros [1; 2; 4]; Sample.zeros [1; 3; 4]] in
  let q := Sample.obj 0 [1; 2; 4] in
  let kv := Sample.obj 1 [1; 3; 4] in
  MultiHeadAttention_init Sample.sd0 2 4 3 5 0 0
  = Ok (mha_module Sample.sd0 2 4 3 5 0 0 true)
  /\ Torch.read st q = Some (Sample.zeros [1; 2; 4])
  /\ Torch.read st kv = Some (Sample.zeros [1; 3; 4])
  /\ exists e st',
       run (MultiHeadAttention_forward
              (Module_train false (mha_module Sample.sd0 2 4 3 5 0 0 true)) q kv kv None) st
       = (Raise e, st').
Proof.
  intros st q kv. split; [reflexivity|]. split; [reflexivity|]. split; [reflexivity|].
  destruct (MultiHeadAttention_kv_element_count Sample.sd0 2 4 3 5 0 0
              (mha_module Sample.sd0 2 4 3 5 0 0 true) false st q kv kv None
              (Sample.zeros [1; 2; 4]) (Sample.zeros [1; 3; 4]) (Sample.zeros [1; 3; 4])
              eq_refl eq_refl eq_refl eq_refl) as [_ H].
  apply (H 1 2 3 4 4); [reflexivity | reflexivity | lia | lia | lia].
Defined.

(** C10, as stated, fails: with [q] of sizes [2, 3, 4] and [k], [v] of
    sizes [3, 2, 4] (another batch size, another number of steps, the same
    number of elements) the call returns. *)
Lemma MultiHeadAttention_accepts_regrouped_kv :
  let st := Sample.state_of [Sample.zeros [2; 3; 4]; Sample.zeros [3; 2; 4]] in
  let q := Sample.obj 0 [2; 3; 4] in
  let kv := Sample.obj 1 [3; 2; 4] in
  MultiHeadAttention_init Sample.sd0 2 4 3 5 0 0
  = Ok (mha_module Sample.sd0 2 4 3 5 0 0 true)
  /\ shape <$> Torch.read st q = Some [2; 3; 4]
  /\ shape <$> Torch.read st kv = Some [3; 2; 4]
  /\ is_ok (run (MultiHeadAttention_forward (mha_module Sample.sd0 2 4 3 5 0 0 true)
                   q kv kv None) st).1 = true.
Proof.
  intros st q kv. split; [reflexivity|]. split; [reflexivity|]. split; [reflexivity|].
  vm_compute. reflexivity.
Qed.

(** * Further properties *)

(** ** Scaled dot-product attention *)



(** X2. A query row all of whose key positions are masked gets uniform
    weights [1 / steps] (the masked scores are the finite -1e9, not minus
    infinity), and its output is the mean of the value rows. *)
Theorem fully_masked_row_is_uniform
  temperature attn_dropout self st q k v m vq vk vv vm B H Sq Sk D Dv b h i :
  ScaledDotProductAttention_init temperature attn_dropout = Ok self ->
  Torch.read st q = Some vq -> Torch.read st k = Some vk -> Torch.read st v = Some vv ->
  shape vq = [B; H; Sq; D] -> shape vk = [B; H; Sk; D] -> shape vv = [B; H; Sk; Dv] ->
  Torch.read st m = Some vm -> broadcast_shapes [B; H; Sq; Sk] (shape vm) = Some [B; H; Sq; Sk] ->
  b < B -> h < H -> i < Sq ->
  (forall j, j < Sk -> elem vm (bidx (shape vm) [b; h; i; j]) = 1%R) ->
  exists output attn st' weights vo,
    run (ScaledDotProductAttention_forward (Module_train false self) q k v (Some m)) st
    = (Ok (output, attn), st')
    /\ Torch.read st' attn = Some weights
    /\ Torch.read st' output = Some vo
    /\ (forall j, j < Sk -> elem weights [b; h; i; j] = (1 / INR Sk)%R)
    /\ (forall e, e < Dv ->
          elem vo [b; h; i; e] = (sumR Sk (fun j => elem vv [b; h; j; e]) / INR Sk)%R).
Proof.
  intros Hinit Rq Rk Rv Sq' Sk' Sv' Rm Fm Hb Hh Hi Hall.
  rewrite (ScaledDotProductAttention_init_train _ _ false _ Hinit).
  assert (Rm' : read_opt st (Some m) = Some (Some vm)) by (simpl; rewrite Rm; reflexivity).
  destruct (ScaledDotProductAttention_forward_run temperature attn_dropout false
              st q k v (Some m) vq vk vv (Some vm) B H Sq Sk D Dv
              Rq Rk Rv Sq' Sk' Sv' Rm' Fm)
    as (output & attn & st' & scores & keep & vo & Hrun & Ra & Ss & Vs & Ro & So & Vo).
  rewrite dropout_t_eval in Ra, Vo.
  assert (W : forall j, j < Sk -> elem scores [b; h; i; j] = (1 / INR Sk)%R).
  { intros j Hj. rewrite (Vs b h i j Hb Hh Hi Hj). unfold Spec.attention.
    apply (softmax_row_const _ _ (-1e9)%R); [lia| |exact Hj].
    intros l Hl. unfold Spec.score, Spec.masked.
    destruct (Req_dec_T (elem vm (bidx (shape vm) [b; h; i; l])) 1) as [_|n];
      [reflexivity|]. exfalso. apply n, Hall, Hl. }
  exists output, attn, st', scores, vo.
  split; [exact Hrun|]. split; [exact Ra|]. split; [exact Ro|]. split; [exact W|].
  intros e He. rewrite (Vo b h i e Hb Hh Hi He).
  rewrite (sumR_ext Sk _ (fun j => (elem vv [b; h; j; e] / INR Sk)%R)).
  - apply sumR_scale.
  - intros j Hj. rewrite (W j Hj). unfold Rdiv. ring.
Qed.

Lemma fully_masked_row_is_uniform_witness :
  let t := Sample.zeros [1; 1; 1; 1] in
  let m := Sample.ones [1; 1; 1; 1] in
  let st := Sample.state_of [t; m] in
  let x := Sample.obj 0 [1; 1; 1; 1] in
  let hm := Sample.obj 1 [1; 1; 1; 1] in
  ScaledDotProductAttention_init 1 0 = Ok (sdpa_module 1 0 true)
  /\ Torch.read st x = Some t /\ Torch.read st hm = Some m
  /\ (forall j, j < 1 -> elem m (bidx (shape m) [0; 0; 0; j]) = 1%R)
  /\ exists r st' weights,
       run (ScaledDotProductAttention_forward
              (Module_train false (sdpa_module 1 0 true)) x x x (Some hm)) st
       = (Ok r, st')
       /\ Torch.read st' r.2 = Some weights
       /\ elem weights [0; 0; 0; 0] = (1 / INR 1)%R.
Proof.
  intros t m st x hm.
  assert (A : forall j, j < 1 -> elem m (bidx (shape m) [0; 0; 0; j]) = 1%R)
    by (intros j _; reflexivity).
  split; [reflexivity|]. split; [reflexivity|]. split; [reflexivity|]. split; [exact A|].
  destruct (fully_masked_row_is_uniform 1 0 (sdpa_module 1 0 true)
              st x x x hm t t t m 1 1 1 1 1 1 0 0 0
              eq_refl eq_refl eq_refl eq_refl eq_refl eq_refl eq_refl eq_refl eq_refl
              (Nat.lt_0_succ 0) (Nat.lt_0_succ 0) (Nat.lt_0_succ 0) A)
    as (output & attn & st' & weights & vo & H & Rw & _ & V & _).
  exists (output, attn), st', weights.
  split; [exact H|]. split; [exact Rw|]. apply V. lia.
Defined.

(** X3. Only mask entries equal to 1 mask: with a mask none of whose
    entries is 1, the weights and the output are those of the call without
    a mask. *)
Theorem mask_without_ones_is_no_mask
  temperature attn_dropout self st q k v m vq vk vv vm B H Sq Sk D Dv :
  ScaledDotProductAttention_init temperature attn_dropout = Ok self ->
  Torch.read st q = Some vq -> Torch.read st k = Some vk -> Torch.read st v = Some vv ->
  shape vq = [B; H; Sq; D] -> shape vk = [B; H; Sk; D] -> shape vv = [B; H; Sk; Dv] ->
  Torch.read st m = Some vm -> broadcast_shapes [B; H; Sq; Sk] (shape vm) = Some [B; H; Sq; Sk] ->
  (forall b h i j, b < B -> h < H -> i < Sq -> j < Sk ->
     elem vm (bidx (shape vm) [b; h; i; j]) <> 1%R) ->
  exists o1 a1 s1 o2 a2 s2 w1 w2 v1 v2,
    run (ScaledDotProductAttention_forward (Module_train false self) q k v (Some m)) st
    = (Ok (o1, a1), s1)
    /\ run (ScaledDotProductAttention_forward (Module_train false self) q k v None) st
       = (Ok (o2, a2), s2)
    /\ Torch.read s1 a1 = Some w1 /\ Torch.read s2 a2 = Some w2
    /\ Torch.read s1 o1 = Some v1 /\ Torch.read s2 o2 = Some v2
    /\ shape w1 = shape w2 /\ shape v1 = shape v2
    /\ (forall b h i j, b < B -> h < H -> i < Sq -> j < Sk ->
          elem w1 [b; h; i; j] = elem w2 [b; h; i; j])
    /\ (forall b h i e, b < B -> h < H -> i < Sq -> e < Dv ->
          elem v1 [b; h; i; e] = elem v2 [b; h; i; e]).
Proof.
  intros Hinit Rq Rk Rv Sq' Sk' Sv' Rm Fm Hno.
  rewrite (ScaledDotProductAttention_init_train _ _ false _ Hinit).
  assert (Rm' : read_opt st (Some m) = Some (Some vm)) by (simpl; rewrite Rm; reflexivity).
  destruct (ScaledDotProductAttention_forward_run temperature attn_dropout false
              st q k v (Some m) vq vk vv (Some vm) B H Sq Sk D Dv
              Rq Rk Rv Sq' Sk' Sv' Rm' Fm)
    as (o1 & a1 & s1 & sc1 & keep1 & v1 & Run1 & Ra1 & Ss1 & Vs1 & Ro1 & So1 & Vo1).
  destruct (ScaledDotProductAttention_forward_run temperature attn_dropout false
              st q k v None vq vk vv None B H Sq Sk D Dv
              Rq Rk Rv Sq' Sk' Sv' eq_refl I)
    as (o2 & a2 & s2 & sc2 & keep2 & v2 & Run2 & Ra2 & Ss2 & Vs2 & Ro2 & So2 & Vo2).
  rewrite dropout_t_eval in Ra1, Vo1, Ra2, Vo2.
  assert (W : forall b h i j, b < B -> h < H -> i < Sq -> j < Sk ->
            elem sc1 [b; h; i; j] = elem sc2 [b; h; i; j]).
  { intros b h i j Hb Hh Hi Hj.
    rewrite (Vs1 b h i j Hb Hh Hi Hj), (Vs2 b h i j Hb Hh Hi Hj).
    unfold Spec.attention, Spec.softmax_row.
    assert (E : forall l, l < Sk ->
                Spec.score temperature vq vk (Some vm) b h i l
                = Spec.score temperature vq vk None b h i l).
    { intros l Hl. unfold Spec.score, Spec.masked.
      destruct (Req_dec_T (elem vm (bidx (shape vm) [b; h; i; l])) 1) as [e|_];
        [exfalso; exact (Hno b h i l Hb Hh Hi Hl e) | reflexivity]. }
    rewrite (E j Hj). f_equal. apply sumR_ext. intros l Hl. rewrite (E l Hl).
    reflexivity. }
  exists o1, a1, s1, o2, a2, s2, sc1, sc2, v1, v2.
  repeat (split; [assumption|]).
  split; [congruence|]. split; [congruence|]. split; [exact W|].
  intros b h i e Hb Hh Hi He.
  rewrite (Vo1 b h i e Hb Hh Hi He), (Vo2 b h i e Hb Hh Hi He).
  apply sumR_ext. intros j Hj. rewrite (W b h i j Hb Hh Hi Hj). reflexivity.
Qed.

Lemma mask_without_ones_is_no_mask_witness :
  let t := Sample.zeros [1; 1; 1; 1] in
  let st := Sample.state_of [t] in
  let x := Sample.obj 0 [1; 1; 1; 1] in
  ScaledDotProductAttention_init 1 0 = Ok (sdpa_module 1 0 true)
  /\ Torch.read st x = Some t
  /\ exists r1 s1 r2 s2,
       run (ScaledDotProductAttention_forward
              (Module_train false (sdpa_module 1 0 true)) x x x (Some x)) st
       = (Ok r1, s1)
       /\ run (ScaledDotProductAttention_forward
                 (Module_train false (sdpa_module 1 0 true)) x x x None) st
          = (Ok r2, s2).
Proof.
  intros t st x. split; [reflexivity|]. split; [reflexivity|].
  assert (A : forall b h i j, b < 1 -> h < 1 -> i < 1 -> j < 1 ->
            elem t (bidx (shape t) [b; h; i; j]) <> 1%R)
    by (intros; simpl; lra).
  destruct (mask_without_ones_is_no_mask 1 0 (sdpa_module 1 0 true)
              st x x x x t t t t 1 1 1 1 1 1
              eq_refl eq_refl eq_refl eq_refl eq_refl eq_refl eq_refl eq_refl eq_refl A)
    as (o1 & a1 & s1 & o2 & a2 & s2 & _ & _ & _ & _ & H1 & H2 & _).
  exists (o1, a1), s1, (o2, a2), s2. split; [exact H1 | exact H2].
Defined.



(** ** Multi-head attention *)

(** X5. The attention weights of [MultiHeadAttention.forward], in
    evaluation mode: head [h] scores query step [i] against key step [l]
    by the product of its slice [h * d_k .. h * d_k + d_k - 1] of the
    projected query, divided by the square root of [d_k], with the same
    slice of the projected key; a mask of sizes [batch, steps, steps] is
    read at [b, i, l] for every head; the weights are the softmax of the
    scores over the key steps. *)
Theorem MultiHeadAttention_weights_per_head
  sd n_heads d_model d_k d_v dropout attn_dropout self
  st q k v attn_mask vq vk vv vmask B N :
  MultiHeadAttention_init sd n_heads d_model d_k d_v dropout attn_dropout = Ok self ->
  Torch.read st q = Some vq -> Torch.read st k = Some vk -> Torch.read st v = Some vv ->
  shape vq = [B; N; d_model] -> shape vk = [B; N; d_model] ->
  shape vv = [B; N; d_model] ->
  0 < B -> 0 < N ->
  read_opt st attn_mask = Some vmask ->
  match vmask with Some m => shape m = [B; N; N] | None => True end ->
  exists out attn st' weights,
    run (MultiHeadAttention_forward (Module_train false self) q k v attn_mask) st
    = (Ok (out, attn), st')
    /\ Torch.read st' attn = Some weights
    /\ shape weights = [B; n_heads; N; N]
    /\ forall b h i j, b < B -> h < n_heads -> i < N -> j < N ->
         elem weights [b; h; i; j]
         = Spec.softmax_row N
             (fun l =>
                let s := sumR d_k (fun d =>
                           (elem (linear_t (w_qs sd n_heads d_model d_k) vq) [b; i; (h * d_k + d)%nat]
                            / sqrt (INR d_k)
                            * elem (linear_t (w_ks sd n_heads d_model d_k) vk) [b; l; (h * d_k + d)%nat])%R) in
                match vmask with
                | Some m => if Req_dec_T (elem m [b; i; l]) 1 then (-1e9)%R else s
                | None => s
                end) j.
Proof.
  intros Hinit Rq Rk Rv Sq Sk Sv HB HN Rm Sm.
  rewrite (MultiHeadAttention_init_train _ _ _ _ _ _ _ false _ Hinit).
  assert (Km : match vmask with Some m => 1 <= rank m | None => True end).
  { destruct vmask as [m|]; [|exact I]. unfold rank. rewrite Sm. simpl. lia. }
  assert (Fm : mask_fits [B; n_heads; N; N] (unsqueeze_v 1 <$> vmask)).
  { destruct vmask as [m|]; [|exact I]. simpl. rewrite Sm. simpl.
    apply broadcast_shapes_heads. }
  assert (W : wp (MultiHeadAttention_forward
                    (mha_module sd n_heads d_model d_k d_v dropout attn_dropout false)
                    q k v attn_mask) st
                (fun r st' => exists sm,
                   Torch.read st' r.2 = Some sm
                   /\ shape sm = [B; n_heads; N; N]
                   /\ (forall b h i j, b < B -> h < n_heads -> i < N -> j < N ->
                         elem sm [b; h; i; j]
                         = Spec.attention (Built.temperature d_k)
                             (heads n_heads B N d_k (linear_t (w_qs sd n_heads d_model d_k) vq))
                             (heads n_heads B N d_k (linear_t (w_ks sd n_heads d_model d_k) vk))
                             (unsqueeze_v 1 <$> vmask) N b h i j))).
  { eapply (wp_MHA_forward _ _ _ _ _ _ _ _ _ _ _ _ vq vk vv vmask _ B N);
      [exact Rq | exact Rk | exact Rv | exact Sq | exact Sk | exact Sv | exact HB | exact HN
      | exact Rm | exact Km | exact Fm |].
    intros ho hw st' sm keep1 keep2 vattn E Rq' Rw Ssm Vsm _ _ _.
    exists sm. simpl. rewrite dropout_t_eval in Rw. auto. }
  apply wp_run in W as ([out attn] & st' & Hrun & sm & Rw & Sw & Vw). simpl in Rw.
  exists out, attn, st', sm.
  split; [exact Hrun|]. split; [exact Rw|]. split; [exact Sw|].
  intros b h i j Hb Hh Hi Hj. rewrite (Vw b h i j Hb Hh Hi Hj).
  unfold Spec.attention, Spec.softmax_row.
  assert (E : forall l, l < N ->
            Spec.score (Built.temperature d_k)
              (heads n_heads B N d_k (linear_t (w_qs sd n_heads d_model d_k) vq))
              (heads n_heads B N d_k (linear_t (w_ks sd n_heads d_model d_k) vk))
              (unsqueeze_v 1 <$> vmask) b h i l
            = let s := sumR d_k (fun d =>
                           (elem (linear_t (w_qs sd n_heads d_model d_k) vq) [b; i; (h * d_k + d)%nat]
                            / sqrt (INR d_k)
                            * elem (linear_t (w_ks sd n_heads d_model d_k) vk) [b; l; (h * d_k + d)%nat])%R) in
              match vmask with
              | Some m => if Req_dec_T (elem m [b; i; l]) 1 then (-1e9)%R else s
              | None => s
              end).
  { intros l Hl. unfold Spec.score.
    assert (S : Spec.similarity (Built.temperature d_k)
                  (heads n_heads B N d_k (linear_t (w_qs sd n_heads d_model d_k) vq))
                  (heads n_heads B N d_k (linear_t (w_ks sd n_heads d_model d_k) vk))
                  b h i l
                = sumR d_k (fun d =>
                           (elem (linear_t (w_qs sd n_heads d_model d_k) vq) [b; i; (h * d_k + d)%nat]
                            / sqrt (INR d_k)
                            * elem (linear_t (w_ks sd n_heads d_model d_k) vk) [b; l; (h * d_k + d)%nat])%R)).
    { unfold Spec.similarity. cbn [shape heads transpose_v view_v].
      change (last_of (swap_at 1 2 [B; N; n_heads; d_k])) with d_k.
      apply sumR_ext. intros d Hd. rewrite temperature_sqrt.
      rewrite !heads_elem; try assumption; try reflexivity;
        cbn [shape linear_t]; [rewrite Sk | rewrite Sq]; reflexivity. }
    rewrite S. cbv zeta. destruct vmask as [m|]; [|reflexivity].
    simpl. rewrite Sm. cbn [take drop app length].
    unfold bidx. cbn [length Nat.sub drop zip_with].
    rewrite (bsel B b Hb), (bsel N i Hi), (bsel N l Hl). cbn [Nat.eqb].
    reflexivity. }
  rewrite (E j Hj). f_equal. apply sumR_ext. intros l Hl. rewrite (E l Hl). reflexivity.
Qed.

Lemma MultiHeadAttention_weights_per_head_witness :
  let t := Sample.zeros [1; 2; 4] in
  let st := Sample.state_of [t] in
  let x := Sample.obj 0 [1; 2; 4] in
  MultiHeadAttention_init Sample.sd0 2 4 3 5 0 0
  = Ok (mha_module Sample.sd0 2 4 3 5 0 0 true)
  /\ Torch.read st x = Some t
  /\ exists r st' weights,
       run (MultiHeadAttention_forward
              (Module_train false (mha_module Sample.sd0 2 4 3 5 0 0 true)) x x x None) st
       = (Ok r, st')
       /\ Torch.read st' r.2 = Some weights
       /\ shape weights = [1; 2; 2; 2].
Proof.
  intros t st x. split; [reflexivity|]. split; [reflexivity|].
  destruct (MultiHeadAttention_weights_per_head Sample.sd0 2 4 3 5 0 0
              (mha_module Sample.sd0 2 4 3 5 0 0 true) st x x x None t t t None 1 2
              eq_refl eq_refl eq_refl eq_refl eq_refl eq_refl eq_refl
              (Nat.lt_0_succ 0) (Nat.lt_0_succ 1) eq_refl I)
    as (out & attn & st' & weights & H & Rw & Sw & _).
  exists (out, attn), st', weights. auto.
Defined.

(** X6. [MultiHeadAttention.forward] raises on an empty batch and on an
    empty sequence, whatever the module and the other arguments: the last
    [view(batch_size, n_steps, -1)] cannot infer a size from no element. *)
Theorem MultiHeadAttention_forward_rejects_empty_input
  self q k v attn_mask st vq :
  Torch.read st q = Some vq ->
  shape vq !! 0 = Some 0 \/ shape vq !! 1 = Some 0 ->
  exists e st', run (MultiHeadAttention_forward self q k v attn_mask) st = (Raise e, st').
Proof.
  intros Rq H0.
  destruct (run (MultiHeadAttention_forward self q k v attn_mask) st) as [[r|e] st'] eqn:H;
    [|eauto].
  exfalso. apply MultiHeadAttention_run_nonempty in H
    as (vq' & B & N & Rq' & SB & SN & HB & HN).
  rewrite Rq in Rq'. injection Rq' as <-.
  destruct H0 as [H0|H0]; [rewrite SB in H0 | rewrite SN in H0]; injection H0; lia.
Qed.

Lemma MultiHeadAttention_forward_rejects_empty_input_witness :
  let st := Sample.state_of [Sample.zeros [0; 2; 4]] in
  let x := Sample.obj 0 [0; 2; 4] in
  Torch.read st x = Some (Sample.zeros [0; 2; 4])
  /\ exists e st',
       run (MultiHeadAttention_forward (mha_module Sample.sd0 2 4 3 5 0 0 false) x x x None) st
       = (Raise e, st').
Proof.
  intros st x. split; [reflexivity|].
  apply (MultiHeadAttention_forward_rejects_empty_input _ x x x None st
           (Sample.zeros [0; 2; 4]) eq_refl).
  left. reflexivity.
Defined.

(** The empty batch of X6, evaluated: the error is the RuntimeError of the
    last [view]. *)
Example MultiHeadAttention_empty_batch_runtime_error :
  (run (MultiHeadAttention_forward (mha_module Sample.sd0 2 4 3 5 0 0 false)
          (Sample.obj 0 [0; 2; 4]) (Sample.obj 0 [0; 2; 4]) (Sample.obj 0 [0; 2; 4]) None)
       (Sample.state_of [Sample.zeros [0; 2; 4]])).1
  = Raise RuntimeError.
Proof. vm_compute. reflexivity. Qed.

(** X7. [attn_mask] is a required parameter of
    [MultiHeadAttention.forward]: a call with at most three positional
    arguments and no keyword [attn_mask] raises TypeError and leaves the
    state as it was, whatever other keywords it passes. *)
Theorem MultiHeadAttention_call_requires_attn_mask self args kwargs st :
  length args <= 3 -> assoc "attn_mask" kwargs = None ->
  run (MultiHeadAttention_call self args kwargs) st = (Raise TypeError, st).
Proof.
  intros Hl Hk. unfold run, MultiHeadAttention_call.
  destruct (is_instance self "MultiHeadAttention"); [|reflexivity].
  unfold bind, lift.
  rewrite (bind_args_missing _ _ _ "attn_mask"); [reflexivity| |exact Hk].
  unfold MultiHeadAttention_signature.
  destruct args as [|a0 [|a1 [|a2 [|a3 args]]]]; simpl in *; auto 6; lia.
Qed.

Lemma MultiHeadAttention_call_requires_attn_mask_witness :
  let st := Sample.state_of [Sample.zeros [1; 2; 4]] in
  let x := OTensor (Sample.obj 0 [1; 2; 4]) in
  run (MultiHeadAttention_call (mha_module Sample.sd0 2 4 3 5 0 0 false) [x; x; x] []) st
  = (Raise TypeError, st).
Proof.
  intros st x.
  apply (MultiHeadAttention_call_requires_attn_mask _ [x; x; x] [] st); [simpl; lia|reflexivity].
Defined.

(** ** Positional encoding *)

(** X8. [PositionalEncoding(d_hid, n_position)] is built exactly when
    there is a position: with [n_position = 0] the constructor raises
    IndexError (the empty table is one-dimensional and cannot be sliced by
    columns) and leaves the state as it was. *)
Theorem PositionalEncoding_init_outcome d_hid n_position st :
  match run (PositionalEncoding_init d_hid n_position) st with
  | (Ok _, _) => 0 < n_position
  | (Raise e, st') => n_position = 0 /\ e = IndexError /\ st' = st
  end.
Proof.
  destruct n_position as [|n].
  - rewrite PositionalEncoding_init_empty. auto.
  - destruct (PositionalEncoding_init_returns d_hid (S n) st (Nat.lt_0_succ n))
      as (self & st' & ->). lia.
Qed.

(** X9. [PositionalEncoding.forward] raises RuntimeError on a sequence
    longer than its table, unless the table has a single row: the slice
    stops at the end of the table and cannot be broadcast to the input.
    No storage that existed before the call is changed. *)
Theorem PositionalEncoding_forward_rejects_long_input
  d_model n_position st0 self st1 mode st x vx B N D :
  run (PositionalEncoding_init d_model n_position) st0 = (Ok self, st1) ->
  ext st1 st -> Torch.read st x = Some vx -> shape vx = [B; N; D] ->
  n_position < N -> n_position <> 1 ->
  exists st',
    run (PositionalEncoding_forward (Module_train mode self) x) st
    = (Raise RuntimeError, st') /\ ext st st'.
Proof.
  intros Hinit Est Rx Sx Hlt Hne.
  apply PositionalEncoding_init_ok in Hinit as (Hpos & tbl & vt & -> & _ & Rt & St & _).
  cbn [Module_train List.map].
  apply (PositionalEncoding_forward_long tbl x vx vt st B N D d_model n_position
           (read_ext _ _ _ _ Est Rt) St Rx Sx Hlt). lia.
Qed.

Lemma PositionalEncoding_forward_rejects_long_input_witness :
  exists self st1 st',
    run (PositionalEncoding_init 4 2) (Sample.state_of []) = (Ok self, st1)
    /\ run (PositionalEncoding_forward (Module_train false self)
              (Sample.obj (length (heap st1)) [1; 3; 4]))
           (Torch.alloc st1 (Sample.zeros [1; 3; 4]))
       = (Raise RuntimeError, st').
Proof.
  destruct (run (PositionalEncoding_init 4 2) (Sample.state_of []))
    as [[self|e] st1] eqn:E.
  2:{ assert (K : is_ok (run (PositionalEncoding_init 4 2) (Sample.state_of [])).1 = true)
        by (vm_compute; reflexivity).
      rewrite E in K. discriminate K. }
  destruct (PositionalEncoding_forward_rejects_long_input 4 2 (Sample.state_of []) self st1
              false (Torch.alloc st1 (Sample.zeros [1; 3; 4]))
              (Sample.obj (length (heap st1)) [1; 3; 4]) (Sample.zeros [1; 3; 4]) 1 3 4
              E (ext_alloc _ _) (read_alloc_new _ _ _ _) eq_refl
              (Nat.lt_succ_diag_r 2) (Nat.neq_succ_diag_l 1))
    as (st' & H & _).
  exists self, st1, st'. split; [reflexivity | exact H].
Defined.

(** X10. A table with a single row is broadcast along the sequence: the
    module then accepts a sequence of any length and adds the encoding of
    position 0 (0 on the even, 1 on the odd features) to every step. *)
Theorem PositionalEncoding_single_row_broadcasts
  d_model st0 self st1 mode st x vx B N :
  run (PositionalEncoding_init d_model 1) st0 = (Ok self, st1) ->
  ext st1 st -> Torch.read st x = Some vx -> shape vx = [B; N; d_model] ->
  0 < N ->
  exists out st' vo,
    run (PositionalEncoding_forward (Module_train mode self) x) st = (Ok out, st')
    /\ Torch.read st' out = Some vo
    /\ shape vo = [B; N; d_model]
    /\ forall b s j, b < B -> s < N -> j < d_model ->
         elem vo [b; s; j]
         = (elem vx [b; s; j] + (if Nat.even j then 0 else 1))%R.
Proof.
  intros Hinit Est Rx Sx HN.
  apply PositionalEncoding_init_ok in Hinit as (Hpos & tbl & vt & -> & _ & Rt & St & Vt & _).
  cbn [Module_train List.map].
  assert (W : wp (PositionalEncoding_forward
                    (OModule "PositionalEncoding" [("pos_table", OTensor tbl)]) x) st
                (fun h st' => exists vo,
                   Torch.read st' h = Some vo /\ shape vo = [B; N; d_model]
                   /\ forall b s j, b < B -> s < N -> j < d_model ->
                        elem vo [b; s; j]
                        = (elem vx [b; s; j] + (if Nat.even j then 0 else 1))%R)).
  { eapply (PositionalEncoding_forward_row _ _ _ vt _ B N d_model);
      [exact (read_ext _ _ _ _ Est Rt) | exact St | exact Rx | exact Sx | exact HN |].
    intros h st' vo E R S V. exists vo. split; [exact R|]. split; [exact S|].
    intros b s j Hb Hs Hj. rewrite (V b s j Hb Hs Hj), (Vt 0 j Hpos Hj), sinusoid_zero.
    destruct (Nat.even j); reflexivity. }
  apply wp_run in W as (out & st' & Hrun & vo & W). exists out, st', vo.
  split; [exact Hrun | exact W].
Qed.

Lemma PositionalEncoding_single_row_broadcasts_witness :
  exists self st1 out st',
    run (PositionalEncoding_init 4 1) (Sample.state_of []) = (Ok self, st1)
    /\ run (PositionalEncoding_forward (Module_train false self)
              (Sample.obj (length (heap st1)) [1; 3; 4]))
           (Torch.alloc st1 (Sample.zeros [1; 3; 4]))
       = (Ok out, st').
Proof.
  destruct (run (PositionalEncoding_init 4 1) (Sample.state_of []))
    as [[self|e] st1] eqn:E.
  2:{ assert (K : is_ok (run (PositionalEncoding_init 4 1) (Sample.state_of [])).1 = true)
        by (vm_compute; reflexivity).
      rewrite E in K. discriminate K. }
  destruct (PositionalEncoding_single_row_broadcasts 4 (Sample.state_of []) self st1
              false (Torch.alloc st1 (Sample.zeros [1; 3; 4]))
              (Sample.obj (length (heap st1)) [1; 3; 4]) (Sample.zeros [1; 3; 4]) 1 3
              E (ext_alloc _ _) (read_alloc_new _ _ _ _) eq_refl (Nat.lt_0_succ 2))
    as (out & st' & vo & H & _).
  exists self, st1, out, st'. split; [reflexivity | exact H].
Defined.

(** X11. The sinusoid table: every entry lies in [-1, 1]; the features
    [2i] and [2i+1] of a position are the sine and the cosine of one angle,
    so their squares add up to 1; position 0 is encoded as 0 on the even
    and 1 on the odd features; the first two features of position [pos]
    are [sin(pos)] and [cos(pos)]. *)
Theorem sinusoid_table_unit_circle d_model n_position st0 self st1 :
  run (PositionalEncoding_init d_model n_position) st0 = (Ok self, st1) ->
  exists table vt,
    self = OModule "PositionalEncoding" [("pos_table", OTensor table)]
    /\ Torch.read st1 table = Some vt
    /\ (forall pos i, pos < n_position -> i < d_model ->
          (-1 <= elem vt [0%nat; pos; i] <= 1)%R)
    /\ (forall pos i, pos < n_position -> 2 * i + 1 < d_model ->
          (elem vt [0%nat; pos; (2 * i)%nat] * elem vt [0%nat; pos; (2 * i)%nat]
           + elem vt [0%nat; pos; (2 * i + 1)%nat] * elem vt [0%nat; pos; (2 * i + 1)%nat]
           = 1)%R)
    /\ (forall i, i < d_model ->
          elem vt [0; 0; i] = if Nat.even i then 0%R else 1%R)
    /\ (forall pos, pos < n_position ->
          (0 < d_model -> elem vt [0; pos; 0] = sin (INR pos))
          /\ (1 < d_model -> elem vt [0; pos; 1] = cos (INR pos))).
Proof.
  intros Hinit.
  apply PositionalEncoding_init_ok in Hinit as (Hn & tbl & vt & -> & _ & Rt & St & Vt & _).
  exists tbl, vt. split; [reflexivity|]. split; [exact Rt|].
  split; [|split; [|split]].
  - intros pos i Hp Hi. rewrite (Vt pos i Hp Hi). apply sinusoid_range.
  - intros pos i Hp Hi. rewrite (Vt pos (2 * i)), (Vt pos (2 * i + 1)) by lia.
    apply sinusoid_pair.
  - intros i Hi. rewrite (Vt 0 i Hn Hi). apply sinusoid_zero.
  - intros pos Hp. destruct (sinusoid_first d_model pos) as [E0 E1].
    split; intros Hd; rewrite Vt by assumption; assumption.
Qed.

Lemma sinusoid_table_unit_circle_witness :
  exists self st1 table vt,
    run (PositionalEncoding_init 4 2) (Sample.state_of []) = (Ok self, st1)
    /\ Torch.read st1 table = Some vt
    /\ (elem vt [0%nat; 1%nat; 0%nat] * elem vt [0%nat; 1%nat; 0%nat]
        + elem vt [0%nat; 1%nat; 1%nat] * elem vt [0%nat; 1%nat; 1%nat] = 1)%R.
Proof.
  destruct (run (PositionalEncoding_init 4 2) (Sample.state_of []))
    as [[self|e] st1] eqn:E.
  2:{ assert (K : is_ok (run (PositionalEncoding_init 4 2) (Sample.state_of [])).1 = true)
        by (vm_compute; reflexivity).
      rewrite E in K. discriminate K. }
  destruct (sinusoid_table_unit_circle 4 2 (Sample.state_of []) self st1 E)
    as (table & vt & _ & R & _ & P & _).
  exists self, st1, table, vt. split; [reflexivity|]. split; [exact R|].
  apply (P 1 0); lia.
Defined.

(** ** Constructors *)

(** X12. The layer constructors validate their dropout probabilities:
    [EncoderLayer], [DecoderLayer] and [MultiHeadAttention] raise
    ValueError exactly when [dropout] or [attn_dropout] lies outside
    [0, 1], [PositionWiseFeedForward] exactly when [dropout] does; what
    they return is in training mode. *)
Theorem layer_constructors_validate_dropout
  sd d_model d_inner n_head d_k d_v dropout attn_dropout :
  match EncoderLayer_init sd d_model d_inner n_head d_k d_v dropout attn_dropout with
  | Ok self =>
      probability dropout /\ probability attn_dropout
      /\ self = encoder_layer_module sd d_model d_inner n_head d_k d_v
                  dropout attn_dropout true
  | Raise e => e = ValueError /\ ~ (probability dropout /\ probability attn_dropout)
  end
  /\ match DecoderLayer_init sd d_model d_inner n_head d_k d_v dropout attn_dropout with
     | Ok self => probability dropout /\ probability attn_dropout
     | Raise e => e = ValueError /\ ~ (probability dropout /\ probability attn_dropout)
     end
  /\ match MultiHeadAttention_init sd n_head d_model d_k d_v dropout attn_dropout with
     | Ok self =>
         probability dropout /\ probability attn_dropout
         /\ self = mha_module sd n_head d_model d_k d_v dropout attn_dropout true
     | Raise e => e = ValueError /\ ~ (probability dropout /\ probability attn_dropout)
     end
  /\ match PositionWiseFeedForward_init sd d_model d_inner dropout with
     | Ok self => probability dropout /\ self = pwff_module sd d_model d_inner dropout true
     | Raise e => e = ValueError /\ ~ probability dropout
     end.
Proof.
  destruct (probability_dec dropout) as [Hd|Hd];
    [destruct (probability_dec attn_dropout) as [Ha|Ha]|].
  - rewrite (EncoderLayer_init_ok _ _ _ _ _ _ _ _ Hd Ha),
      (MultiHeadAttention_init_ok _ _ _ _ _ _ _ Hd Ha),
      (PositionWiseFeedForward_init_ok _ _ _ _ Hd).
    destruct (DecoderLayer_init_ok sd d_model d_inner n_head d_k d_v _ _ Hd Ha) as (l & ->).
    auto 10.
  - assert (H : ~ (probability dropout /\ probability attn_dropout)) by tauto.
    rewrite (EncoderLayer_init_err _ _ _ _ _ _ _ _ H), (DecoderLayer_init_err _ _ _ _ _ _ _ _ H),
      (MultiHeadAttention_init_err _ _ _ _ _ _ _ H),
      (PositionWiseFeedForward_init_ok _ _ _ _ Hd). auto 10.
  - assert (H : ~ (probability dropout /\ probability attn_dropout)) by tauto.
    rewrite (EncoderLayer_init_err _ _ _ _ _ _ _ _ H), (DecoderLayer_init_err _ _ _ _ _ _ _ _ H),
      (MultiHeadAttention_init_err _ _ _ _ _ _ _ H).
    unfold PositionWiseFeedForward_init. rewrite (nn_Dropout_err _ Hd). cbn [rbind]. auto 10.
Qed.

(** X13. The outcome of [Encoder.__init__] and of [Decoder.__init__]: a
    dropout probability outside [0, 1] is a ValueError; otherwise a table
    without positions ([n_steps = 0]) is an IndexError; otherwise, when
    there is a layer to build, an attention dropout probability outside
    [0, 1] is a ValueError; otherwise the module is returned (the encoder
    with [n_layers] layers) and no storage that existed is changed. *)
Theorem stack_constructors_outcome
  sd n_layers n_steps n_features d_model d_inner n_heads d_k d_v dropout attn_dropout st :
  match run (Encoder_init sd n_layers n_steps n_features d_model d_inner n_heads
               d_k d_v dropout attn_dropout) st with
  | (Ok self, st') =>
      probability dropout /\ 0 < n_steps /\ (0 < n_layers -> probability attn_dropout)
      /\ ext st st' /\ length (layers_of self) = n_layers
  | (Raise e, st') =>
      (e = ValueError /\ ~ probability dropout /\ st' = st)
      \/ (e = IndexError /\ probability dropout /\ n_steps = 0 /\ st' = st)
      \/ (e = ValueError /\ probability dropout /\ 0 < n_steps /\ 0 < n_layers
          /\ ~ probability attn_dropout)
  end
  /\ match run (Decoder_init sd n_layers n_steps n_features d_model d_inner n_heads
                  d_k d_v dropout attn_dropout) st with
     | (Ok self, st') =>
         probability dropout /\ 0 < n_steps /\ (0 < n_layers -> probability attn_dropout)
         /\ ext st st'
     | (Raise e, st') =>
         (e = ValueError /\ ~ probability dropout /\ st' = st)
         \/ (e = IndexError /\ probability dropout /\ n_steps = 0 /\ st' = st)
         \/ (e = ValueError /\ probability dropout /\ 0 < n_steps /\ 0 < n_layers
             /\ ~ probability attn_dropout)
     end.
Proof.
  split.
  - pose proof (stack_init_outcome "Encoder" "enc_layer_stack"
                  (nn_Linear (sub_dict sd "embedding") n_features d_model true)
                  (fun i => EncoderLayer_init (layer_dict sd "enc_layer_stack" i)
                              d_model d_inner n_heads d_k d_v dropout attn_dropout)
                  n_layers n_steps d_model dropout attn_dropout st) as H.
    change (run (drop <- lift (nn_Dropout dropout) ;; _) st)
      with (run (Encoder_init sd n_layers n_steps n_features d_model d_inner n_heads
                   d_k d_v dropout attn_dropout) st) in H.
    destruct (run (Encoder_init _ _ _ _ _ _ _ _ _ _ _) st) as [[self|e] st'].
    + destruct H as (H1 & H2 & H3 & H4 & pe & layers & L & ->).
      * intros Hd Ha i. rewrite (EncoderLayer_init_ok _ _ _ _ _ _ _ _ Hd Ha). eauto.
      * intros Hd Ha i. apply EncoderLayer_init_err. tauto.
      * auto.
    + apply H.
      * intros Hd Ha i. rewrite (EncoderLayer_init_ok _ _ _ _ _ _ _ _ Hd Ha). eauto.
      * intros Hd Ha i. apply EncoderLayer_init_err. tauto.
  - pose proof (stack_init_outcome "Decoder" "dec_layer_stack"
                  (nn_Linear (sub_dict sd "embedding") n_features d_model true)
                  (fun i => DecoderLayer_init (layer_dict sd "dec_layer_stack" i)
                              d_model d_inner n_heads d_k d_v dropout attn_dropout)
                  n_layers n_steps d_model dropout attn_dropout st) as H.
    change (run (drop <- lift (nn_Dropout dropout) ;; _) st)
      with (run (Decoder_init sd n_layers n_steps n_features d_model d_inner n_heads
                   d_k d_v dropout attn_dropout) st) in H.
    destruct (run (Decoder_init _ _ _ _ _ _ _ _ _ _ _) st) as [[self|e] st'].
    + destruct H as (H1 & H2 & H3 & H4 & _).
      * intros Hd Ha i. apply DecoderLayer_init_ok; assumption.
      * intros Hd Ha i. apply DecoderLayer_init_err. tauto.
      * auto.
    + apply H.
      * intros Hd Ha i. apply DecoderLayer_init_ok; assumption.
      * intros Hd Ha i. apply DecoderLayer_init_err. tauto.
Qed.

(** ** Encoder *)

(** X14. [Encoder.forward] raises RuntimeError on an input whose last
    size is not [n_features] (or which has no axis), and on a sequence
    longer than the [n_steps] the encoder was built for (unless [n_steps]
    is 1); no storage that existed before the call is changed. *)
Theorem Encoder_forward_rejects_bad_input
  sd n_layers n_steps n_features d_model d_inner n_heads d_k d_v dropout attn_dropout
  mode self st0 st1 st x vx src_mask return_attn_weights :
  run (Encoder_init sd n_layers n_steps n_features d_model d_inner n_heads d_k d_v
         dropout attn_dropout) st0 = (Ok self, st1) ->
  ext st1 st ->
  Torch.read st x = Some vx ->
  shape vx = [] \/ last_of (shape vx) <> n_features
  \/ (exists B N, shape vx = [B; N; n_features] /\ n_steps < N /\ n_steps <> 1) ->
  exists st',
    run (Encoder_forward (Module_train mode self) x src_mask return_attn_weights) st
    = (Raise RuntimeError, st')
    /\ ext st st'.
Proof.
  intros Hinit Est Rx Hbad.
  apply (Encoder_train _ _ _ _ _ _ _ _ _ _ _ mode) in Hinit
    as (Hpos & tbl & vt & -> & _ & Rt & St).
  set (emb := nn_Linear (sub_dict sd "embedding") n_features d_model true).
  assert (Hcase : (shape vx = [] \/ last_of (shape vx) <> in_features emb)
                  \/ exists B N, shape vx = [B; N; n_features] /\ n_steps < N /\ n_steps <> 1)
    by (cbn [in_features emb nn_Linear]; tauto).
  clear Hbad. destruct Hcase as [Hbad|(B & N & Sx & Hlt & Hne)].
  - exists st. split; [|apply ext_refl].
    unfold Encoder_forward, run, bind.
    cbn [getattr assoc String.eqb Ascii.eqb Bool.eqb ret call_Linear].
    unfold Torch.Linear_forward, bind, Torch.value, lift. rewrite Rx.
    fold emb. rewrite (linear_v_err emb vx Hbad). reflexivity.
  - assert (W1 : wp (Torch.Linear_forward emb x) st
                   (fun h s => ext st s /\ Torch.read s h = Some (linear_t emb vx))).
    { eapply wp_Linear; [exact Rx | apply (linear_v_ok emb vx [B; N] Sx) |].
      intros h s (E & R & _). auto. }
    apply wp_run in W1 as (h1 & s1 & Run1 & E1 & R1).
    destruct (PositionalEncoding_forward_long tbl h1 (linear_t emb vx) vt s1
                B N d_model d_model n_steps
                (read_ext _ _ _ _ (ext_trans _ _ _ Est E1) Rt) St R1)
      as (st' & Run2 & E2); [cbn [shape linear_t]; rewrite Sx; reflexivity | exact Hlt | lia |].
    exists st'. split; [|exact (ext_trans _ _ _ E1 E2)].
    unfold Encoder_forward, run, bind in *.
    cbn [getattr assoc String.eqb Ascii.eqb Bool.eqb ret call_Linear].
    fold emb. rewrite Run1. cbn beta iota.
    rewrite PositionalEncoding_call_eq by reflexivity. rewrite Run2. reflexivity.
Qed.

Lemma Encoder_forward_rejects_bad_input_witness :
  exists self st1 st',
    run (Encoder_init Sample.sd0 2 5 3 4 8 2 3 5 0 0) (Sample.state_of []) = (Ok self, st1)
    /\ run (Encoder_forward (Module_train false self)
              (Sample.obj (length (heap st1)) [1; 6; 3]) None false)
           (Torch.alloc st1 (Sample.zeros [1; 6; 3]))
       = (Raise RuntimeError, st').
Proof.
  destruct (run (Encoder_init Sample.sd0 2 5 3 4 8 2 3 5 0 0) (Sample.state_of []))
    as [[self|e] st1] eqn:E.
  2:{ assert (K : is_ok (run (Encoder_init Sample.sd0 2 5 3 4 8 2 3 5 0 0)
                           (Sample.state_of [])).1 = true)
        by (vm_compute; reflexivity).
      rewrite E in K. discriminate K. }
  destruct (Encoder_forward_rejects_bad_input Sample.sd0 2 5 3 4 8 2 3 5 0 0 false self
              (Sample.state_of []) st1 (Torch.alloc st1 (Sample.zeros [1; 6; 3]))
              (Sample.obj (length (heap st1)) [1; 6; 3]) (Sample.zeros [1; 6; 3])
              None false E (ext_alloc _ _) (read_alloc_new _ _ _ _))
    as (st' & H & _).
  { right. right. exists 1, 6. split; [reflexivity|]. split; lia. }
  exists self, st1, st'. split; [reflexivity | exact H].
Defined.

(** X15. [Encoder.forward] before its layers: the hidden state that
    enters the layer loop is [dropout(embedding(x) + table[:steps])]; the
    loop over the layers, run on it, gives the result; an encoder without
    layers returns it as it is, with an empty list of weights. *)
Theorem Encoder_forward_input_stage
  sd n_layers n_steps n_features d_model d_inner n_heads d_k d_v dropout attn_dropout
  mode self st0 st1 st x vx src_mask vmask B N :
  run (Encoder_init sd n_layers n_steps n_features d_model d_inner n_heads d_k d_v
         dropout attn_dropout) st0 = (Ok self, st1) ->
  ext st1 st ->
  Torch.read st x = Some vx -> shape vx = [B; N; n_features] ->
  0 < B -> 0 < N -> N <= n_steps ->
  read_opt st src_mask = Some vmask ->
  match vmask with Some m => 1 <= rank m | None => True end ->
  mask_fits [B; n_heads; N; N] (unsqueeze_v 1 <$> vmask) ->
  exists enc_output attn_weights st' x0 s0 keep pre,
    run (Encoder_forward (Module_train mode self) x src_mask true) st
    = (Ok (OTuple [OTensor enc_output; OList attn_weights]), st')
    /\ Torch.read s0 x0 = Some (dropout_t (mkDropout dropout mode) keep pre)
    /\ shape pre = [B; N; d_model]
    /\ (forall b s j, b < B -> s < N -> j < d_model ->
          elem pre [b; s; j]
          = (elem (linear_t (nn_Linear (sub_dict sd "embedding") n_features d_model true) vx)
                  [b; s; j]
             + (if Nat.even j
                then sin (INR s / Rpower 10000 (2 * INR (j / 2) / INR d_model))
                else cos (INR s / Rpower 10000 (2 * INR (j / 2) / INR d_model))))%R)
    /\ run (Encoder_loop (layers_of (Module_train mode self)) src_mask x0 []) s0
       = (Ok (enc_output, attn_weights), st')
    /\ (n_layers = 0 -> enc_output = x0 /\ attn_weights = [] /\ st' = s0).
Proof.
  intros Hinit Est Rx Sx HB HN HNs Rm Km Fm.
  destruct (Encoder_forward_stages sd n_layers n_steps n_features d_model d_inner n_heads
              d_k d_v dropout attn_dropout mode self st0 st1 st x vx src_mask vmask B N
              Hinit Est Rx Sx HB HN HNs Rm Km Fm)
    as (xn & ws & st' & x0 & s0 & keep & pre & Hrun & R0 & S0 & V0 & Hloop & Hlen).
  exists xn, ws, st', x0, s0, keep, pre.
  split; [exact (Hrun true)|]. split; [exact R0|]. split; [exact S0|].
  split; [|split; [exact Hloop|]].
  - intros b s j Hb Hs Hj. rewrite (V0 b s j Hb Hs Hj). reflexivity.
  - intros ->. destruct (layers_of (Module_train mode self)); [|discriminate Hlen].
    injection Hloop as <- <- <-. auto.
Qed.

Lemma Encoder_forward_input_stage_witness :
  let st0 := Sample.state_of [] in
  exists self st1 r st',
    run (Encoder_init Sample.sd0 0 5 3 4 8 2 3 5 0 0) st0 = (Ok self, st1)
    /\ run (Encoder_forward (Module_train false self)
              (Sample.obj (length (heap st1)) [1; 5; 3]) None true)
           (Torch.alloc st1 (Sample.zeros [1; 5; 3]))
       = (Ok (OTuple [OTensor r; OList []]), st').
Proof.
  intros st0.
  destruct (run (Encoder_init Sample.sd0 0 5 3 4 8 2 3 5 0 0) st0)
    as [[self|e] st1] eqn:E.
  2:{ assert (K : is_ok (run (Encoder_init Sample.sd0 0 5 3 4 8 2 3 5 0 0) st0).1 = true)
        by (vm_compute; reflexivity).
      rewrite E in K. discriminate K. }
  destruct (Encoder_forward_input_stage Sample.sd0 0 5 3 4 8 2 3 5 0 0 false self st0 st1
              (Torch.alloc st1 (Sample.zeros [1; 5; 3]))
              (Sample.obj (length (heap st1)) [1; 5; 3]) (Sample.zeros [1; 5; 3])
              None None 1 5 E (ext_alloc _ _) (read_alloc_new _ _ _ _) eq_refl
              (Nat.lt_0_succ 0) (Nat.lt_0_succ 4) (Nat.le_refl 5) eq_refl I I)
    as (xn & ws & st' & x0 & s0 & keep & pre & H & _ & _ & _ & _ & Z).
  destruct (Z eq_refl) as (_ & -> & _).
  exists self, st1, xn, st'. split; [reflexivity | exact H].
Defined.

(** X16. [EncoderLayer.forward] is the feed-forward block applied to the
    hidden state of the self-attention block, which gets the layer input
    as query, key and value and the mask under the keyword [attn_mask];
    the attention weights are returned as the attention block gave them;
    the output has the sizes of the input, which is left unchanged. *)
Theorem EncoderLayer_forward_composes
  sd d_model d_inner n_head d_k d_v dropout attn_dropout self mode
  st enc_input src_mask vx vmask B N :
  EncoderLayer_init sd d_model d_inner n_head d_k d_v dropout attn_dropout = Ok self ->
  Torch.read st enc_input = Some vx -> shape vx = [B; N; d_model] ->
  0 < B -> 0 < N ->
  read_opt st src_mask = Some vmask ->
  match vmask with Some m => 1 <= rank m | None => True end ->
  mask_fits [B; n_head; N; N] (unsqueeze_v 1 <$> vmask) ->
  exists enc_output attn_weights st' hidden s1 vo vw,
    run (EncoderLayer_forward (Module_train mode self) enc_input src_mask) st
    = (Ok (enc_output, attn_weights), st')
    /\ run (MultiHeadAttention_forward
              (mha_module (sub_dict sd "slf_attn") n_head d_model d_k d_v
                 dropout attn_dropout mode)
              enc_input enc_input enc_input src_mask) st
       = (Ok (hidden, attn_weights), s1)
    /\ run (PositionWiseFeedForward_forward
              (pwff_module (sub_dict sd "pos_ffn") d_model d_inner dropout mode) hidden) s1
       = (Ok enc_output, st')
    /\ Torch.read st' enc_output = Some vo /\ shape vo = [B; N; d_model]
    /\ Torch.read st' attn_weights = Some vw /\ shape vw = [B; n_head; N; N]
    /\ Torch.read st' enc_input = Some vx.
Proof.
  intros Hinit Rx Sx HB HN Rm Km Fm.
  rewrite (EncoderLayer_init_train _ _ _ _ _ _ _ _ mode _ Hinit).
  assert (W1 : wp (MultiHeadAttention_forward
                     (mha_module (sub_dict sd "slf_attn") n_head d_model d_k d_v
                        dropout attn_dropout mode)
                     enc_input enc_input enc_input src_mask) st
                 (fun r s1 => exists vh vw,
                    ext st s1 /\ Torch.read s1 r.1 = Some vh /\ shape vh = [B; N; d_model]
                    /\ Torch.read s1 r.2 = Some vw /\ shape vw = [B; n_head; N; N])).
  { eapply (wp_MHA_forward _ _ _ _ _ _ _ _ _ _ _ _ vx vx vx vmask _ B N);
      [exact Rx | exact Rx | exact Rx | exact Sx | exact Sx | exact Sx | exact HB | exact HN
      | exact Rm | exact Km | exact Fm |].
    intros ho hw s1 sm keep1 keep2 vattn E1 _ Rw Ssm _ _ _ Ro.
    eexists _, _. cbn [fst snd]. split; [exact E1|]. split; [exact Ro|].
    split; [|split; [exact Rw | rewrite dropout_t_shape; exact Ssm]].
    cbn [shape layer_norm_t iadd_t]. rewrite dropout_t_shape. reflexivity. }
  apply wp_run in W1 as ([hidden w] & s1 & Run1 & vh & vw & E1 & Rh & Sh & Rw & Sw).
  cbn [fst snd] in Rh, Rw.
  assert (W2 : wp (PositionWiseFeedForward_forward
                     (pwff_module (sub_dict sd "pos_ffn") d_model d_inner dropout mode)
                     hidden) s1
                 (fun h s2 => exists vo,
                    ext s1 s2 /\ Torch.read s2 h = Some vo /\ shape vo = [B; N; d_model])).
  { eapply (wp_PWFF_forward _ _ _ _ _ _ _ [B; N]); [exact Rh | exact Sh |].
    intros h s2 keep E2 R2 _. eexists. split; [exact E2|]. split; [exact R2|].
    rewrite (pwff_value_shape _ _ _ _ _ _ _ [B; N]); [exact Sh | exact Sh]. }
  apply wp_run in W2 as (out & s2 & Run2 & vo & E2 & Ro & So).
  exists out, w, s2, hidden, s1, vo, vw.
  split.
  { unfold EncoderLayer_forward, encoder_layer_module, run, bind in *.
    cbn [getattr assoc String.eqb Ascii.eqb Bool.eqb ret].
    rewrite MHA_call_kw_eq by reflexivity. rewrite Run1. cbn beta iota.
    rewrite PWFF_call_eq by reflexivity. rewrite Run2. reflexivity. }
  split; [exact Run1|]. split; [exact Run2|]. split; [exact Ro|]. split; [exact So|].
  split; [exact (read_ext _ _ _ _ E2 Rw)|]. split; [exact Sw|].
  exact (read_ext _ _ _ _ (ext_trans _ _ _ E1 E2) Rx).
Qed.

Lemma EncoderLayer_forward_composes_witness :
  let t := Sample.zeros [1; 5; 4] in
  let st := Sample.state_of [t] in
  let x := Sample.obj 0 [1; 5; 4] in
  EncoderLayer_init Sample.sd0 4 8 2 3 5 0 0
  = Ok (encoder_layer_module Sample.sd0 4 8 2 3 5 0 0 true)
  /\ Torch.read st x = Some t
  /\ exists r st',
       run (EncoderLayer_forward
              (Module_train false (encoder_layer_module Sample.sd0 4 8 2 3 5 0 0 true))
              x None) st
       = (Ok r, st').
Proof.
  intros t st x. split; [reflexivity|]. split; [reflexivity|].
  destruct (EncoderLayer_forward_composes Sample.sd0 4 8 2 3 5 0 0
              (encoder_layer_module Sample.sd0 4 8 2 3 5 0 0 true) false st x None t None 1 5
              eq_refl eq_refl eq_refl (Nat.lt_0_succ 0) (Nat.lt_0_succ 4) eq_refl I I)
    as (out & w & st' & _ & _ & _ & _ & H & _).
  exists (out, w), st'. exact H.
Defined.

(** ** Feed-forward block *)

(** X17. [PositionWiseFeedForward.forward] is position-wise: in
    evaluation mode the output at a position of the sequence is
    determined by the input at that position alone, whatever the batch,
    the other steps and the place of the position. *)
Theorem PositionWiseFeedForward_is_position_wise
  sd d_in d_hid dropout self
  st x vx B N b n st2 x2 vx2 B2 N2 b2 n2 :
  PositionWiseFeedForward_init sd d_in d_hid dropout = Ok self ->
  Torch.read st x = Some vx -> shape vx = [B; N; d_in] ->
  Torch.read st2 x2 = Some vx2 -> shape vx2 = [B2; N2; d_in] ->
  b < B -> n < N -> b2 < B2 -> n2 < N2 ->
  (forall l, l < d_in -> elem vx [b; n; l] = elem vx2 [b2; n2; l]) ->
  exists out st' vo out2 st2' vo2,
    run (PositionWiseFeedForward_forward (Module_train false self) x) st = (Ok out, st')
    /\ Torch.read st' out = Some vo
    /\ run (PositionWiseFeedForward_forward (Module_train false self) x2) st2
       = (Ok out2, st2')
    /\ Torch.read st2' out2 = Some vo2
    /\ forall j, j < d_in -> elem vo [b; n; j] = elem vo2 [b2; n2; j].
Proof.
  intros Hinit Rx Sx Rx2 Sx2 Hb Hn Hb2 Hn2 Hrow.
  rewrite (PositionWiseFeedForward_init_train _ _ _ _ false _ Hinit).
  assert (W : forall s y vy By Ny,
            Torch.read s y = Some vy -> shape vy = [By; Ny; d_in] ->
            exists o s',
              run (PositionWiseFeedForward_forward (pwff_module sd d_in d_hid dropout false) y) s
              = (Ok o, s')
              /\ Torch.read s' o
                 = Some (layer_norm_t (pwff_norm sd d_in)
                           (iadd_t (linear_t (linear_2 sd d_in d_hid)
                                      (relu_v (linear_t (linear_1 sd d_in d_hid) vy))) vy))).
  { intros s y vy By Ny Ry Sy.
    assert (W : wp (PositionWiseFeedForward_forward (pwff_module sd d_in d_hid dropout false) y)
                  s (fun h s' =>
                       Torch.read s' h
                       = Some (layer_norm_t (pwff_norm sd d_in)
                                 (iadd_t (linear_t (linear_2 sd d_in d_hid)
                                            (relu_v (linear_t (linear_1 sd d_in d_hid) vy)))
                                    vy)))).
    { eapply (wp_PWFF_forward _ _ _ _ _ _ _ [By; Ny]); [exact Ry | exact Sy |].
      intros h s' keep _ R _. exact R. }
    apply wp_run in W as (o & s' & Hrun & R). eauto. }
  destruct (W st x vx B N Rx Sx) as (out & st' & Run1 & R1).
  destruct (W st2 x2 vx2 B2 N2 Rx2 Sx2) as (out2 & st2' & Run2 & R2).
  eexists out, st', _, out2, st2', _.
  split; [exact Run1|]. split; [exact R1|]. split; [exact Run2|]. split; [exact R2|].
  intros j Hj.
  rewrite (residual_norm_elem _ _ _ B N d_in), (residual_norm_elem _ _ _ B2 N2 d_in);
    try assumption;
    try (cbn [shape linear_t relu_v]; rewrite ?Sx, ?Sx2; reflexivity).
  apply layer_norm_ext; [|exact Hj].
  intros l Hl. rewrite (Hrow l Hl). f_equal.
  apply pwff_branch_row. exact Hrow.
Qed.

Lemma PositionWiseFeedForward_is_position_wise_witness :
  let t := Sample.zeros [1; 2; 2] in
  let st := Sample.state_of [t] in
  let x := Sample.obj 0 [1; 2; 2] in
  PositionWiseFeedForward_init Sample.sd0 2 3 0 = Ok (pwff_module Sample.sd0 2 3 0 true)
  /\ Torch.read st x = Some t
  /\ exists out st' vo,
       run (PositionWiseFeedForward_forward
              (Module_train false (pwff_module Sample.sd0 2 3 0 true)) x) st
       = (Ok out, st')
       /\ Torch.read st' out = Some vo
       /\ forall j, j < 2 -> elem vo [0; 0; j] = elem vo [0; 1; j].
Proof.
  intros t st x. split; [reflexivity|]. split; [reflexivity|].
  destruct (PositionWiseFeedForward_is_position_wise Sample.sd0 2 3 0
              (pwff_module Sample.sd0 2 3 0 true)
              st x t 1 2 0 0 st x t 1 2 0 1
              eq_refl eq_refl eq_refl eq_refl eq_refl
              (Nat.lt_0_succ 0) (Nat.lt_0_succ 1) (Nat.lt_0_succ 0) (Nat.lt_succ_diag_r 1)
              (fun l _ => eq_refl))
    as (out & st' & vo & out2 & st2' & vo2 & H1 & R1 & H2 & R2 & V).
  rewrite H1 in H2. injection H2 as <- <-. rewrite R1 in R2. injection R2 as <-.
  exists out, st', vo. split; [exact H1|]. split; [exact R1 | exact V].
Defined.

(** ** What no forward pass does *)

(** X18. No forward pass of the encoder side overwrites a tensor that
    existed before the call: after [Encoder.forward],
    [EncoderLayer.forward], [PositionWiseFeedForward.forward],
    [ScaledDotProductAttention.forward] and [PositionalEncoding.forward],
    whatever the module, the arguments and the outcome, every storage that
    existed holds the same contents (the input, the mask and the
    positional table among them). *)
Theorem encoder_forward_preserves_existing_tensors st h v :
  Torch.read st h = Some v ->
  (forall self x src_mask return_attn_weights,
     let st' := (run (Encoder_forward self x src_mask return_attn_weights) st).2 in
     ext st st' /\ Torch.read st' h = Some v)
  /\ (forall self enc_input src_mask,
        let st' := (run (EncoderLayer_forward self enc_input src_mask) st).2 in
        ext st st' /\ Torch.read st' h = Some v)
  /\ (forall self x,
        let st' := (run (PositionWiseFeedForward_forward self x) st).2 in
        ext st st' /\ Torch.read st' h = Some v)
  /\ (forall self q k v' attn_mask,
        let st' := (run (ScaledDotProductAttention_forward self q k v' attn_mask) st).2 in
        ext st st' /\ Torch.read st' h = Some v)
  /\ (forall self x,
        let st' := (run (PositionalEncoding_forward self x) st).2 in
        ext st st' /\ Torch.read st' h = Some v).
Proof.
  intros Hr.
  assert (G : forall {A} (m : M A),
            safe st m (fun _ => True) ->
            ext st (run m st).2 /\ Torch.read (run m st).2 h = Some v).
  { intros A m Hs. destruct (Hs st (ext_refl st)) as [E _].
    split; [exact E|]. exact (read_ext _ _ _ _ E Hr). }
  split; [|split; [|split; [|split]]]; intros; apply G.
  - apply safe_Encoder_forward.
  - apply safe_EncoderLayer_forward.
  - apply safe_PWFF_forward.
  - apply safe_SDPA_forward.
  - apply safe_PositionalEncoding_forward.
Qed.

Lemma encoder_forward_preserves_existing_tensors_witness :
  let t := Sample.zeros [1; 1; 2] in
  let st := Sample.state_of [t] in
  let x := Sample.obj 0 [1; 1; 2] in
  Torch.read st x = Some t
  /\ Torch.read
       (run (PositionWiseFeedForward_forward (pwff_module Sample.sd0 2 3 0 true) x) st).2 x
     = Some t.
Proof.
  intros t st x. split; [reflexivity|].
  destruct (encoder_forward_preserves_existing_tensors st x t eq_refl) as (_ & _ & H & _).
  exact (proj2 (H (pwff_module Sample.sd0 2 3 0 true) x)).
Defined.

(** X19. In evaluation mode no forward pass draws a dropout mask: the
    random source is left where it was, whatever the module, the inputs
    and the outcome of the call. *)
Theorem evaluation_mode_draws_no_dropout_mask self st :
  (forall x src_mask return_attn_weights,
     tick (run (Encoder_forward (Module_train false self) x src_mask
                  return_attn_weights) st).2 = tick st)
  /\ (forall enc_input src_mask,
        tick (run (EncoderLayer_forward (Module_train false self) enc_input src_mask) st).2
        = tick st)
  /\ (forall q k v attn_mask,
        tick (run (MultiHeadAttention_forward (Module_train false self) q k v attn_mask) st).2
        = tick st)
  /\ (forall q k v attn_mask,
        tick (run (ScaledDotProductAttention_forward (Module_train false self)
                     q k v attn_mask) st).2
        = tick st)
  /\ (forall x,
        tick (run (PositionWiseFeedForward_forward (Module_train false self) x) st).2
        = tick st)
  /\ (forall x,
        tick (run (PositionalEncoding_forward (Module_train false self) x) st).2
        = tick st)
  /\ (forall dec_input enc_output slf_attn_mask dec_enc_attn_mask,
        tick (run (DecoderLayer_forward (Module_train false self) dec_input enc_output
                     slf_attn_mask dec_enc_attn_mask) st).2
        = tick st)
  /\ (forall trg_seq enc_output trg_mask src_mask return_attn_weights,
        tick (run (Decoder_forward (Module_train false self) trg_seq enc_output
                     trg_mask src_mask return_attn_weights) st).2
        = tick st).
Proof.
  assert (He : in_eval (Module_train false self)) by (exists self; reflexivity).
  split; [|split; [|split; [|split; [|split; [|split; [|split]]]]]]; intros.
  - apply (calm_Encoder_forward _ _ _ _ He).
  - apply (calm_EncoderLayer_forward _ _ _ He).
  - apply (calm_MHA_forward _ _ _ _ _ He).
  - apply (calm_SDPA_forward _ _ _ _ _ He).
  - apply (calm_PWFF_forward _ _ He).
  - apply (calm_PositionalEncoding_forward _ _ He).
  - apply (calm_DecoderLayer_forward _ _ _ _ _ He).
  - apply (calm_Decoder_forward _ _ _ _ _ _ He).
Qed.

(** In training mode, with a dropout probability strictly between 0 and
    1, the feed-forward block does draw a mask. *)
Example training_mode_draws_a_dropout_mask :
  tick (run (PositionWiseFeedForward_forward (pwff_module Sample.sd0 2 3 (1 # 2) true)
               (Sample.obj 0 [1; 1; 2]))
          (Sample.state_of [Sample.zeros [1; 1; 2]])).2
  = 1.
Proof. vm_compute. reflexivity. Qed.

(** X20. With both dropout probabilities 0, the encoder computes the same
    in training mode as in evaluation mode: same outcome, same result
    object, same final state. *)
Theorem zero_dropout_training_is_evaluation
  sd n_layers n_steps n_features d_model d_inner n_heads d_k d_v dropout attn_dropout
  self st0 st1 st x src_mask return_attn_weights :
  run (Encoder_init sd n_layers n_steps n_features d_model d_inner n_heads d_k d_v
         dropout attn_dropout) st0 = (Ok self, st1) ->
  (dropout == 0)%Q -> (attn_dropout == 0)%Q ->
  run (Encoder_forward (Module_train true self) x src_mask return_attn_weights) st
  = run (Encoder_forward (Module_train false self) x src_mask return_attn_weights) st.
Proof.
  intros Hinit Hd Ha. apply Qeq_bool_iff in Hd, Ha.
  destruct (Encoder_train_modes _ _ _ _ _ _ _ _ _ _ _ _ _ _ Hinit) as (tbl & Hm).
  rewrite !Hm. unfold run. revert st.
  match goal with |- forall st, ?m st = ?m' st => change (same_run m m') end.
  unfold Encoder_forward.
  do 5 same_step.
  apply same_bind; [apply same_Dropout_zero; assumption | intros ?].
  eapply same_getattr_then; [reflexivity | reflexivity |]. cbn [as_list].
  apply same_ret. apply same_bind; [apply same_Encoder_loop; assumption|].
  intros [o c]. apply same_refl.
Qed.

Lemma zero_dropout_training_is_evaluation_witness :
  let st0 := Sample.state_of [] in
  exists self st1,
    run (Encoder_init Sample.sd0 2 5 3 4 8 2 3 5 0 0) st0 = (Ok self, st1)
    /\ run (Encoder_forward (Module_train true self)
              (Sample.obj (length (heap st1)) [1; 5; 3]) None false)
           (Torch.alloc st1 (Sample.zeros [1; 5; 3]))
       = run (Encoder_forward (Module_train false self)
                (Sample.obj (length (heap st1)) [1; 5; 3]) None false)
             (Torch.alloc st1 (Sample.zeros [1; 5; 3])).
Proof.
  intros st0.
  destruct (run (Encoder_init Sample.sd0 2 5 3 4 8 2 3 5 0 0) st0)
    as [[self|e] st1] eqn:E.
  2:{ assert (K : is_ok (run (Encoder_init Sample.sd0 2 5 3 4 8 2 3 5 0 0) st0).1 = true)
        by (vm_compute; reflexivity).
      rewrite E in K. discriminate K. }
  exists self, st1. split; [reflexivity|].
  exact (zero_dropout_training_is_evaluation Sample.sd0 2 5 3 4 8 2 3 5 0 0 self st0 st1
           (Torch.alloc st1 (Sample.zeros [1; 5; 3]))
           (Sample.obj (length (heap st1)) [1; 5; 3]) None false E
           (Qeq_refl 0) (Qeq_refl 0)).
Defined.
